(** * timingmarket: NAV snapshots, trailing signals, composite score, snapshot store

    A shallow embedding of the JavaScript sources

      - lib/hyperliquid.js   (parseVaultData, computeSignalScores,
                              computeTrailingSignals, parseAllTimeframes)
      - lib/db.js            (insertSnapshot, getLatestSnapshot, getSnapshots)
      - api/collect.js       (the ingestion handler and its gap-fill pass)
      - scripts/setup-db.js  (computeWithATH and the seed score backfill)

    Conventions of the embedding.

      - A JavaScript number is an exact rational ([Q]).  Comparisons, maxima,
        minima and the bucket tables are exact on doubles as well; sums,
        products and quotients are the exact values that the doubles
        approximate.  Equalities between computed quantities are therefore
        stated with [==] (equality of rationals), not with [=].
      - Where the rounding of the doubles decides an integer result, the
        expression is also given as the engine evaluates it, on binary64
        numbers ([PrimFloat.float]): the argument of [Math.round] in the
        composite score ([composite_f64] beside [composite_of]).  The
        percent change, the mean return, the volatilities and the weighted
        funding are exact quotients here; on doubles they can fall on the
        other side of a tier edge when they lie within rounding distance of
        it, so the properties of these signals are stated on the direction
        of a change, on its sign and on tiers away from their edges.
      - A value that may be [null] or [undefined] is an [option]; both are
        [None].  A property that may be missing from an object is an [option]
        field as well.
      - A timestamp ([Date], ISO string, TIMESTAMPTZ) is the number of
        milliseconds since the epoch, a [Z].  The wall clock ([Date.now()],
        [new Date()]) is an explicit argument [now].
      - [Math.sqrt] is a host primitive without a rational counterpart; the
        code that calls it takes it as a section variable.
      - The SQL statements are modelled on a list of rows: the unique index
        on the hour-truncated timestamp, [ON CONFLICT DO NOTHING],
        [WHERE collected_at >= cutoff], [GROUP BY date_trunc('day', ...)] with
        [AVG], [MAX], [MIN], [bool_and] and the [::integer] cast. *)

From Stdlib Require Import QArith ZArith List String Bool Lia Lqa Qround Qabs.
From Stdlib Require Import Sorted Permutation.
From Stdlib Require Import Floats FMapPositive.
Import ListNotations.

#[local] Set Warnings "-inexact-float".

Local Open Scope Q_scope.

(** ** JavaScript primitives *)

Module Js.

(** [a > b] and [a < b] on numbers. *)
Definition gt (a b : Q) : bool := negb (Qle_bool a b).
Definition lt (a b : Q) : bool := negb (Qle_bool b a).

(** Truthiness of a number: [0] is falsy. *)
Definition truthy (q : Q) : bool := negb (Qeq_bool q 0).
Definition truthyZ (z : Z) : bool := negb (Z.eqb z 0).

(** [x || d] where [x] is a possibly missing number. *)
Definition or_num (x : option Q) (d : Q) : Q :=
  match x with
  | Some q => if truthy q then q else d
  | None => d
  end.

(** [x || null] on a possibly missing number, and on an integer score. *)
Definition or_null (x : option Q) : option Q :=
  match x with
  | Some q => if truthy q then Some q else None
  | None => None
  end.

Definition or_nullZ (x : option Z) : option Z :=
  match x with
  | Some z => if truthyZ z then Some z else None
  | None => None
  end.

(** [x ?? d]. *)
Definition nullish {A : Type} (x : option A) (d : A) : A :=
  match x with
  | Some a => a
  | None => d
  end.

(** [Math.round]: the nearest integer, a tie going up. *)
Definition Math_round (x : Q) : Z := Qfloor (x + (1 # 2)).

Definition Math_abs (x : Q) : Q := Qabs x.




(** [l.slice(-n)]: the last [n] elements. *)
Definition slice_last {A : Type} (n : nat) (l : list A) : list A :=
  skipn (List.length l - n) l.

(** [l.slice(0, n)]. *)
Definition slice_first {A : Type} (n : nat) (l : list A) : list A :=
  firstn n l.

(** [l.reduce((s, v) => s + v, 0)]. *)
Definition sum (l : list Q) : Q := fold_left Qplus l 0.

(** [l[l.length - 1]]. *)
Definition last_opt {A : Type} (l : list A) : option A :=
  nth_error l (List.length l - 1).

(** [Object.fromEntries(entries)[key]]: the last entry of a key wins. *)
Fixpoint fromEntries_get {A : Type} (entries : list (string * A)) (key : string)
  : option A :=
  match entries with
  | [] => None
  | (k, v) :: rest =>
      match fromEntries_get rest key with
      | Some v' => Some v'
      | None => if String.eqb k key then Some v else None
      end
  end.

(** A [Map] keyed by timestamps, as the list of its [set] calls in order;
    [get] sees the last [set] of a key. *)
Fixpoint Map_get (m : list (Z * Q)) (key : Z) : option Q :=
  match m with
  | [] => None
  | (k, v) :: rest =>
      match Map_get rest key with
      | Some v' => Some v'
      | None => if Z.eqb k key then Some v else None
      end
  end.

End Js.

(** ** The snapshots table and the object handed to the store *)

(** A row of the table created by scripts/setup-db.js.  [nav], [nav_ath],
    [drawdown_pct] and [max_drawdown] are NOT NULL; [allow_deposits] is
    written as a boolean by every caller. *)
Module Row.
Record t := mk {
  id : Z;
  collected_at : Z;
  nav : Q;
  pnl : option Q;
  apr : option Q;
  vlm : option Q;
  allow_deposits : bool;
  nav_ath : Q;
  drawdown_pct : Q;
  max_drawdown : Q;
  composite_score : option Z;
  dd_score : option Z;
  tvl_score : option Z;
  momentum_score : option Z;
  vol_score : option Z;
  apr_score : option Z;
  funding_rate : option Q;
  open_interest : option Q;
  volume_24h : option Q;
  funding_score : option Z;
  oi_score : option Z
}.
End Row.

(** The [data] object of insertSnapshot, with the keys that api/collect.js
    puts into it; a key the caller leaves out is [None]. *)
Module Snapshot.
Record t := mk {
  collected_at : option Z;
  nav : Q;
  pnl : option Q;
  apr : option Q;
  vlm : option Q;
  allow_deposits : bool;
  nav_ath : Q;
  drawdown_pct : Q;
  max_drawdown : Q;
  composite_score : option Z;
  dd_score : option Z;
  tvl_score : option Z;
  momentum_score : option Z;
  vol_score : option Z;
  apr_score : option Z;
  funding_rate : option Q;
  open_interest : option Q;
  volume_24h : option Q;
  funding_score : option Z;
  oi_score : option Z
}.
End Snapshot.

(** ** lib/hyperliquid.js *)

Module Hyperliquid.

(** [{ time, value }]. *)
Record point := mkPoint { time : Z; value : Q }.

(** One entry of the provider's [portfolio]: the [[ts, val]] pairs, with
    [parseFloat] already applied to the values. *)
Record timeframe := mkTimeframe {
  accountValueHistory : list (Z * Q);
  tf_pnlHistory : list (Z * Q)
}.

(** The provider's vaultDetails payload. *)
Record vault_details := mkVaultDetails {
  portfolio : list (string * timeframe);
  vd_apr : option Q;
  vd_vlm : option Q;
  vd_allowDeposits : option bool;
  vd_maxDistributable : option Q
}.

Definition to_point (e : Z * Q) : point := mkPoint (fst e) (snd e).

(** [.map(([ts, val]) => ({ time: ts, value: parseFloat(val) }))
     .filter(d => d.value > 0)]. *)
Definition positive_points (h : list (Z * Q)) : list point :=
  filter (fun d => Js.gt (value d) 0) (map to_point h).

(** The loop of parseVaultData that computes the running high and the
    drawdown history; it returns the final [ath] and the pushed points. *)
Fixpoint drawdown_loop (ath : Q) (navHistory : list point) : Q * list point :=
  match navHistory with
  | [] => (ath, [])
  | point :: rest =>
      let ath := if Js.gt (value point) ath then value point else ath in
      let dd := (value point - ath) / ath in
      let (ath', drawdownHistory) := drawdown_loop ath rest in
      (ath', mkPoint (time point) dd :: drawdownHistory)
  end.

(** [let maxDD = 0; for (const d of drawdownHistory) if (d.value < maxDD) maxDD = d.value]. *)
Definition maxDD_loop (drawdownHistory : list point) : Q :=
  fold_left (fun maxDD d => if Js.lt (value d) maxDD then value d else maxDD)
            drawdownHistory 0.

Record parsed := mkParsed {
  navHistory : list point;
  pnlHistory : list point;
  drawdownHistory : list point;
  currentNav : Q;
  currentPnl : Q;
  ath : Q;
  currentDrawdown : Q;
  maxDD : Q;
  apr : Q;
  vlm : Q;
  allowDeposits : option bool;
  maxDistributable : Q
}.

(** parseVaultData; [inl msg] is [throw new Error(msg)]. *)
Definition parseVaultData (data : vault_details) : string + parsed :=
  match Js.fromEntries_get (portfolio data) "allTime" with
  | None => inl "No allTime portfolio data"%string
  | Some allTime =>
      let navHistory := positive_points (accountValueHistory allTime) in
      let first_time :=
        match navHistory with
        | [] => 0%Z
        | p :: _ => time p
        end in
      let pnlHistory :=
        filter (fun d => Z.ltb first_time (time d))
               (map to_point (tf_pnlHistory allTime)) in
      let currentNav := Js.or_num (option_map value (Js.last_opt navHistory)) 0 in
      let currentPnl := Js.or_num (option_map value (Js.last_opt pnlHistory)) 0 in
      let (ath, drawdownHistory) := drawdown_loop 0 navHistory in
      let currentDrawdown :=
        if Js.gt ath 0 then (currentNav - ath) / ath else 0 in
      let maxDD := maxDD_loop drawdownHistory in
      inr {| navHistory := navHistory;
             pnlHistory := pnlHistory;
             drawdownHistory := drawdownHistory;
             currentNav := currentNav;
             currentPnl := currentPnl;
             ath := ath;
             currentDrawdown := currentDrawdown;
             maxDD := maxDD;
             apr := Js.or_num (vd_apr data) 0;
             vlm := Js.or_num (vd_vlm data) 0;
             allowDeposits := vd_allowDeposits data;
             maxDistributable := Js.or_num (vd_maxDistributable data) 0 |}
  end.

(** parseAllTimeframes: every known timeframe that is present, with its
    positive NAV points and its unfiltered PnL points. *)
Definition timeframe_names : list string :=
  ["allTime"; "perpAllTime"; "month"; "week"; "day"]%string.

Definition parseAllTimeframes (data : vault_details)
  : list (string * (list point * list point)) :=
  flat_map
    (fun tf =>
       match Js.fromEntries_get (portfolio data) tf with
       | None => []
       | Some tfData =>
           [(tf, (positive_points (accountValueHistory tfData),
                  map to_point (tf_pnlHistory tfData)))]
       end)
    timeframe_names.

(** *** The bucket tables

    Each cascade of [if ... else if ...] of the source, as a function of the
    quantity it tests.  The same cascades appear in computeSignalScores, in
    computeTrailingSignals and in the seed's score backfill. *)

Definition ddScore_of (ddPct : Q) : Z :=
  if Js.lt ddPct 0.1 then 5
  else if Js.lt ddPct 0.5 then 15
  else if Js.lt ddPct 1 then 25
  else if Js.lt ddPct 2 then 40
  else if Js.lt ddPct 3 then 55
  else if Js.lt ddPct 5 then 70
  else if Js.lt ddPct 7 then 85
  else if Js.lt ddPct 9 then 92
  else 98.

Definition tvlScore_of (tvl7 : Q) : Z :=
  if Js.gt tvl7 3 then 10
  else if Js.gt tvl7 1 then 25
  else if Js.gt tvl7 0 then 40
  else if Js.gt tvl7 (-1) then 55
  else if Js.gt tvl7 (-3) then 70
  else if Js.gt tvl7 (-5) then 85
  else 95.

Definition momentumScore_of (recent7Avg : Q) : Z :=
  if Js.gt recent7Avg 0.003 then 10
  else if Js.gt recent7Avg 0.001 then 25
  else if Js.gt recent7Avg 0 then 40
  else if Js.gt recent7Avg (-0.001) then 55
  else if Js.gt recent7Avg (-0.003) then 70
  else if Js.gt recent7Avg (-0.01) then 85
  else 95.

Definition volScore_of (volTrend vol7dAnnualized : Q) : Z :=
  if Js.lt volTrend (-0.3) && Js.gt vol7dAnnualized 10 then 90
  else if Js.lt volTrend (-0.1) then 70
  else if Js.lt (Js.Math_abs volTrend) 0.1 then 50
  else if Js.lt volTrend 0.3 then 35
  else 15.

Definition aprScore_of (aprPct : Q) : Z :=
  if Js.gt aprPct 40 then 15
  else if Js.gt aprPct 25 then 30
  else if Js.gt aprPct 15 then 50
  else if Js.gt aprPct 8 then 65
  else if Js.gt aprPct 3 then 75
  else 90.

Definition fundingScore_of (fundingBps : Q) : Z :=
  if Js.gt fundingBps 5 then 90
  else if Js.gt fundingBps 2 then 75
  else if Js.gt fundingBps 0.5 then 60
  else if Js.gt fundingBps (-0.5) then 45
  else if Js.gt fundingBps (-2) then 25
  else 15.

Definition oiScore_of (oiChange : Q) : Z :=
  if Js.gt oiChange 0.10 then 90
  else if Js.gt oiChange 0.03 then 70
  else if Js.gt oiChange (-0.03) then 50
  else if Js.gt oiChange (-0.05) then 30
  else 15.

(** *** computeSignalScores *)

(** The argument of [Math.round] in the composite. *)
Definition weighted (ddScore tvlScore momentumScore volScore aprScore
                     fundingScore oiScore : Z) : Q :=
  inject_Z ddScore * 0.25 +
  inject_Z tvlScore * 0.15 +
  inject_Z momentumScore * 0.15 +
  inject_Z volScore * 0.15 +
  inject_Z aprScore * 0.05 +
  inject_Z fundingScore * 0.15 +
  inject_Z oiScore * 0.10.

Definition composite_of (ddScore tvlScore momentumScore volScore aprScore
                         fundingScore oiScore : Z) : Z :=
  Js.Math_round
    (weighted ddScore tvlScore momentumScore volScore aprScore
              fundingScore oiScore).



(** The keys of [analytics] that computeSignalScores reads. *)
Record analytics := mkAnalytics {
  a_currentDrawdown : Q;
  a_tvlScore : option Z;
  a_momentumScore : option Z;
  a_volScore : option Z;
  a_apr : option Q;
  a_fundingRate : option Q;
  a_oiScore : option Z
}.

Record scores := mkScores {
  composite : Z;
  ddScore : Z;
  tvlScore : Z;
  momentumScore : Z;
  volScore : Z;
  aprScore : Z;
  fundingScore : Z;
  oiScore : Z
}.

Definition computeSignalScores (analytics : analytics) : scores :=
  let ddPct := Js.Math_abs (a_currentDrawdown analytics) * 100 in
  let ddScore := ddScore_of ddPct in
  let tvlScore := Js.nullish (a_tvlScore analytics) 50%Z in
  let momentumScore := Js.nullish (a_momentumScore analytics) 50%Z in
  let volScore := Js.nullish (a_volScore analytics) 50%Z in
  let aprPct := Js.or_num (a_apr analytics) 0 * 100 in
  let aprScore := aprScore_of aprPct in
  let fundingBps := Js.or_num (a_fundingRate analytics) 0 * 10000 in
  let fundingScore := fundingScore_of fundingBps in
  let oiScore := Js.nullish (a_oiScore analytics) 50%Z in
  let composite :=
    composite_of ddScore tvlScore momentumScore volScore aprScore
                 fundingScore oiScore in
  {| composite := composite; ddScore := ddScore; tvlScore := tvlScore;
     momentumScore := momentumScore; volScore := volScore;
     aprScore := aprScore; fundingScore := fundingScore;
     oiScore := oiScore |}.

(** *** computeTrailingSignals *)

(** The object it returns; the early return has no [oiScore] key. *)
Record trailing_signals := mkTrailing {
  t_tvlScore : Z;
  t_momentumScore : Z;
  t_volScore : Z;
  t_oiScore : option Z
}.

Definition SEVEN_DAYS_MS : Z := 7 * 24 * 3600 * 1000.

(** [for (i = 1; i < navs.length; i++) if (prev > 0) returns.push((curr - prev) / prev)]. *)
Fixpoint returns_of (navs : list Q) : list Q :=
  match navs with
  | prev :: ((curr :: _) as rest) =>
      (if Js.gt prev 0 then [(curr - prev) / prev] else []) ++ returns_of rest
  | _ => []
  end.

Definition len (l : list Q) : Q := inject_Z (Z.of_nat (List.length l)).

(** [l.length > 0 ? l.reduce((s, v) => s + v, 0) / l.length : 0]. *)
Definition mean (l : list Q) : Q :=
  if (0 <? List.length l)%nat then Js.sum l / len l else 0.

(** [l.length > 1 ? l.reduce((s, v) => s + Math.pow(v - avg, 2), 0) / (l.length - 1) : 0]. *)
Definition sample_variance (l : list Q) (avg : Q) : Q :=
  if (1 <? List.length l)%nat
  then fold_left (fun s v => s + (v - avg) ^ 2) l 0 / (len l - 1)
  else 0.

Section WithSqrt.

Variable Math_sqrt : Q -> Q.

(** The volatility-regime block, shared verbatim by computeTrailingSignals
    and the seed's score backfill. *)
Definition volScore_from (returns : list Q) : Z :=
  let avgReturn := mean returns in
  let variance := sample_variance returns avgReturn in
  let currentVol := Math_sqrt variance in
  let firstHalf := Js.slice_first (List.length returns / 2) returns in
  let firstAvg := mean firstHalf in
  let firstVar := sample_variance firstHalf firstAvg in
  let priorVol := Math_sqrt firstVar in
  let volTrend :=
    if Js.gt priorVol 0 then (currentVol - priorVol) / priorVol else 0 in
  let vol7dAnnualized := currentVol * Math_sqrt 365 * 100 in
  volScore_of volTrend vol7dAnnualized.

Definition has_oi (s : Row.t) : bool :=
  match Row.open_interest s with
  | Some oi => Js.gt oi 0
  | None => false
  end.

Definition oi_of (s : Row.t) : Q := Js.nullish (Row.open_interest s) 0.

Definition computeTrailingSignals (now : Z) (snapshots : list Row.t)
           (currentNav : Q) : trailing_signals :=
  if (List.length snapshots <? 2)%nat then
    {| t_tvlScore := 50; t_momentumScore := 50; t_volScore := 50;
       t_oiScore := None |}
  else
    let snap7d :=
      filter (fun s => (now - SEVEN_DAYS_MS <=? Row.collected_at s)%Z)
             snapshots in
    let nav7dAgo :=
      match snap7d with
      | s :: _ => Row.nav s
      | [] => currentNav
      end in
    let tvl7 :=
      if Js.gt nav7dAgo 0
      then ((currentNav - nav7dAgo) / nav7dAgo) * 100 else 0 in
    let tvlScore := tvlScore_of tvl7 in
    let recent := Js.slice_last 30 snapshots in
    let returns := returns_of (map Row.nav recent) in
    let recent7Returns := Js.slice_last 7 returns in
    let recent7Avg := mean recent7Returns in
    let momentumScore := momentumScore_of recent7Avg in
    let volScore := volScore_from returns in
    let snapsWithOI := filter has_oi snapshots in
    let oiScore :=
      if (2 <=? List.length snapsWithOI)%nat then
        let latestOI := Js.nullish (option_map oi_of (Js.last_opt snapsWithOI)) 0 in
        let sevenDaysAgoTime := (now - SEVEN_DAYS_MS)%Z in
        let snap7dOI :=
          filter (fun s => (sevenDaysAgoTime <=? Row.collected_at s)%Z)
                 snapsWithOI in
        let oiAgo :=
          match snap7dOI with
          | s :: _ => oi_of s
          | [] => latestOI
          end in
        if Js.gt oiAgo 0
        then oiScore_of ((latestOI - oiAgo) / oiAgo)
        else 50%Z
      else 50%Z in
    {| t_tvlScore := tvlScore; t_momentumScore := momentumScore;
       t_volScore := volScore; t_oiScore := Some oiScore |}.

End WithSqrt.

End Hyperliquid.

(** ** lib/db.js: the snapshot store *)

Module Db.

(** The table behind [sql]: its rows in insertion order and the next value
    of the SERIAL sequence of [id]. *)
Record store := mkStore {
  rows : list Row.t;
  next_id : Z
}.

Definition HOUR_MS : Z := 60 * 60 * 1000.
Definition DAY_MS : Z := 24 * 60 * 60 * 1000.

(** [date_trunc('hour', collected_at AT TIME ZONE 'UTC')], as the number of
    the hour, and [date_trunc('day', collected_at)], as the number of the
    day (the session time zone is UTC). *)
Definition hour_of (t : Z) : Z := (t / HOUR_MS)%Z.
Definition day_of (t : Z) : Z := (t / DAY_MS)%Z.

(** The unique index idx_snapshots_hourly: is the hour of [t] taken? *)
Definition hour_taken (sql : store) (t : Z) : bool :=
  existsb (fun r => (hour_of (Row.collected_at r) =? hour_of t)%Z) (rows sql).

(** The VALUES list of the INSERT: fifteen columns; the five columns added
    by setup-db.js step 1b are not named and take their default, NULL. *)
Definition insert_values (now : Z) (id : Z) (data : Snapshot.t) : Row.t :=
  {| Row.id := id;
     Row.collected_at := Js.nullish (Snapshot.collected_at data) now;
     Row.nav := Snapshot.nav data;
     Row.pnl := Snapshot.pnl data;
     Row.apr := Snapshot.apr data;
     Row.vlm := Js.or_null (Snapshot.vlm data);
     Row.allow_deposits := Snapshot.allow_deposits data;
     Row.nav_ath := Snapshot.nav_ath data;
     Row.drawdown_pct := Snapshot.drawdown_pct data;
     Row.max_drawdown := Snapshot.max_drawdown data;
     Row.composite_score := Js.or_nullZ (Snapshot.composite_score data);
     Row.dd_score := Js.or_nullZ (Snapshot.dd_score data);
     Row.tvl_score := Js.or_nullZ (Snapshot.tvl_score data);
     Row.momentum_score := Js.or_nullZ (Snapshot.momentum_score data);
     Row.vol_score := Js.or_nullZ (Snapshot.vol_score data);
     Row.apr_score := Js.or_nullZ (Snapshot.apr_score data);
     Row.funding_rate := None;
     Row.open_interest := None;
     Row.volume_24h := None;
     Row.funding_score := None;
     Row.oi_score := None |}.

(** insertSnapshot: INSERT ... ON CONFLICT (hour) DO NOTHING RETURNING id,
    collected_at; the result is [result[0] || null].  The sequence advances
    on a conflict too. *)
Definition insertSnapshot (now : Z) (sql : store) (data : Snapshot.t)
  : store * option (Z * Z) :=
  let row := insert_values now (next_id sql) data in
  if hour_taken sql (Row.collected_at row)
  then ({| rows := rows sql; next_id := next_id sql + 1 |}, None)
  else ({| rows := rows sql ++ [row]; next_id := next_id sql + 1 |},
        Some (Row.id row, Row.collected_at row)).

(** [ORDER BY collected_at ASC]. *)
Fixpoint insert_by_time (r : Row.t) (l : list Row.t) : list Row.t :=
  match l with
  | [] => [r]
  | x :: l' =>
      if (Row.collected_at r <? Row.collected_at x)%Z
      then r :: l
      else x :: insert_by_time r l'
  end.

Definition order_by_time (l : list Row.t) : list Row.t :=
  fold_right insert_by_time [] l.

(** getLatestSnapshot: ORDER BY collected_at DESC LIMIT 1. *)
Definition getLatestSnapshot (sql : store) : option Row.t :=
  Js.last_opt (order_by_time (rows sql)).

(** The [switch (range)]. *)
Definition cutoff_of (now : Z) (range : string) : option Z :=
  if String.eqb range "24h" then Some (now - 24 * 60 * 60 * 1000)%Z
  else if String.eqb range "7d" then Some (now - 7 * 24 * 60 * 60 * 1000)%Z
  else if String.eqb range "30d" then Some (now - 30 * 24 * 60 * 60 * 1000)%Z
  else if String.eqb range "90d" then Some (now - 90 * 24 * 60 * 60 * 1000)%Z
  else if String.eqb range "1y" then Some (now - 365 * 24 * 60 * 60 * 1000)%Z
  else None.

(** [WHERE collected_at >= cutoff], or no WHERE clause. *)
Definition where_cutoff (cutoff : option Z) (l : list Row.t) : list Row.t :=
  match cutoff with
  | Some c => filter (fun r => (c <=? Row.collected_at r)%Z) l
  | None => l
  end.

(** *** SQL aggregates; an aggregate over no value is NULL *)

Definition non_null {A : Type} (l : list (option A)) : list A :=
  flat_map (fun x => match x with Some a => [a] | None => [] end) l.

Definition AVG (l : list (option Q)) : option Q :=
  match non_null l with
  | [] => None
  | v :: vs =>
      Some (Js.sum (v :: vs) / inject_Z (Z.of_nat (List.length (v :: vs))))
  end.

Definition MAX (l : list (option Q)) : option Q :=
  match non_null l with
  | [] => None
  | v :: vs => Some (fold_left (fun m x => if Js.gt x m then x else m) vs v)
  end.

Definition MIN (l : list (option Q)) : option Q :=
  match non_null l with
  | [] => None
  | v :: vs => Some (fold_left (fun m x => if Js.lt x m then x else m) vs v)
  end.

Definition bool_and (l : list (option bool)) : option bool :=
  match non_null l with
  | [] => None
  | v :: vs => Some (forallb (fun b => b) (v :: vs))
  end.

(** [::integer] on a numeric: the nearest integer, a tie going away from
    zero. *)
Definition to_integer (q : Q) : Z :=
  if Qle_bool 0 q then Qfloor (q + (1 # 2)) else Qceiling (q - (1 # 2)).

(** [AVG(col)::integer] on an INTEGER column. *)
Definition AVG_integer (l : list (option Z)) : option Z :=
  option_map to_integer (AVG (map (option_map inject_Z) l)).

(** One row of the daily SELECT. *)
Record day_row := mkDayRow {
  d_collected_at : Z;
  d_nav : option Q;
  d_pnl : option Q;
  d_apr : option Q;
  d_vlm : option Q;
  d_allow_deposits : option bool;
  d_nav_ath : option Q;
  d_drawdown_pct : option Q;
  d_max_drawdown : option Q;
  d_composite_score : option Z;
  d_dd_score : option Z;
  d_tvl_score : option Z;
  d_momentum_score : option Z;
  d_vol_score : option Z;
  d_apr_score : option Z
}.

(** The select list of the daily SELECT over one group. *)
Definition aggregate (day : Z) (group : list Row.t) : day_row :=
  {| d_collected_at := (day * DAY_MS)%Z;
     d_nav := AVG (map (fun r => Some (Row.nav r)) group);
     d_pnl := AVG (map Row.pnl group);
     d_apr := AVG (map Row.apr group);
     d_vlm := AVG (map Row.vlm group);
     d_allow_deposits := bool_and (map (fun r => Some (Row.allow_deposits r)) group);
     d_nav_ath := MAX (map (fun r => Some (Row.nav_ath r)) group);
     d_drawdown_pct := AVG (map (fun r => Some (Row.drawdown_pct r)) group);
     d_max_drawdown := MIN (map (fun r => Some (Row.max_drawdown r)) group);
     d_composite_score := AVG_integer (map Row.composite_score group);
     d_dd_score := AVG_integer (map Row.dd_score group);
     d_tvl_score := AVG_integer (map Row.tvl_score group);
     d_momentum_score := AVG_integer (map Row.momentum_score group);
     d_vol_score := AVG_integer (map Row.vol_score group);
     d_apr_score := AVG_integer (map Row.apr_score group) |}.

(** The rows of one day, [GROUP BY date_trunc('day', collected_at)]. *)
Definition group_of (day : Z) (l : list Row.t) : list Row.t :=
  filter (fun r => (day_of (Row.collected_at r) =? day)%Z) l.

(** The days that have a group, ascending ([ORDER BY collected_at ASC] on
    the truncated timestamp). *)
Definition days_of (l : list Row.t) : list Z :=
  nodup Z.eq_dec (map (fun r => day_of (Row.collected_at r)) (order_by_time l)).

Definition select_daily (l : list Row.t) : list day_row :=
  map (fun day => aggregate day (group_of day l)) (days_of l).

(** What getSnapshots resolves to: raw rows or daily aggregates. *)
Inductive result :=
| Raw (snapshots : list Row.t)
| Daily (snapshots : list day_row).

(** [snapshots.length]. *)
Definition count (r : result) : nat :=
  match r with
  | Raw l => List.length l
  | Daily l => List.length l
  end.

Definition getSnapshots (now : Z) (sql : store) (range resolution : string)
  : result :=
  let cutoff := cutoff_of now range in
  let resolution :=
    if String.eqb resolution "auto"
    then (if String.eqb range "24h" || String.eqb range "7d"
          then "hourly" else "daily")%string
    else resolution in
  if String.eqb resolution "daily"
  then Daily (select_daily (where_cutoff cutoff (rows sql)))
  else Raw (order_by_time (where_cutoff cutoff (rows sql))).

End Db.

(** ** scripts/setup-db.js: the seed's ATH pass *)

Module Seed.

Import Hyperliquid.

(** The object built for each historical point. *)
Record seed_point := mkSeedPoint {
  sp_time : Z;
  sp_nav : Q;
  sp_pnl : option Q;
  sp_apr : option Q;
  sp_ath : Q;
  sp_dd : Q;
  sp_maxDD : Q
}.

(** The body of [navHistory.map(point => ...)] with the two captured
    variables [ath] and [maxDD] threaded through. *)
Fixpoint computeWithATH_from (ath maxDD : Q) (navHistory : list point)
         (pnlMap : option (list (Z * Q))) : list seed_point :=
  match navHistory with
  | [] => []
  | point :: rest =>
      let ath := if Js.gt (value point) ath then value point else ath in
      let dd := if Js.gt ath 0 then (value point - ath) / ath else 0 in
      let maxDD := if Js.lt dd maxDD then dd else maxDD in
      {| sp_time := time point;
         sp_nav := value point;
         sp_pnl := match pnlMap with
                   | Some m => Js.Map_get m (time point)
                   | None => None
                   end;
         sp_apr := None;
         sp_ath := ath;
         sp_dd := dd;
         sp_maxDD := maxDD |}
      :: computeWithATH_from ath maxDD rest pnlMap
  end.

(** [let ath = 0; let maxDD = 0; return navHistory.map(...)]. *)
Definition computeWithATH (navHistory : list point)
           (pnlMap : option (list (Z * Q))) : list seed_point :=
  computeWithATH_from 0 0 navHistory pnlMap.

(** *** Step 6: signal scores for the rows that have none *)

Definition THIRTY_DAYS_MS : Z := 30 * 24 * 3600 * 1000.

Section WithSqrt.

Variable Math_sqrt : Q -> Q.

(** The body of [for (const row of nullScoreRows)]: the scores written by
    the UPDATE, or [None] when the row is skipped by [continue]. *)
Definition score_row (allSnaps : list Row.t) (row : Row.t) : option scores :=
  let rowTime := Row.collected_at row in
  let thirtyDaysAgo := (rowTime - THIRTY_DAYS_MS)%Z in
  let trailing :=
    filter (fun s => (thirtyDaysAgo <=? Row.collected_at s)%Z
                     && (Row.collected_at s <=? rowTime)%Z)
           allSnaps in
  if (List.length trailing <? 2)%nat then None
  else
    let currentNav := Row.nav row in
    let currentDrawdown := Row.drawdown_pct row in
    let now := rowTime in
    let snap7d :=
      filter (fun s => (now - SEVEN_DAYS_MS <=? Row.collected_at s)%Z)
             trailing in
    let nav7dAgo :=
      match snap7d with
      | s :: _ => Row.nav s
      | [] => currentNav
      end in
    let tvl7 :=
      if Js.gt nav7dAgo 0
      then ((currentNav - nav7dAgo) / nav7dAgo) * 100 else 0 in
    let tvlScore := tvlScore_of tvl7 in
    let returns := returns_of (map Row.nav trailing) in
    let recent7Returns := Js.slice_last 7 returns in
    let recent7Avg := mean recent7Returns in
    let momentumScore := momentumScore_of recent7Avg in
    let volScore := volScore_from Math_sqrt returns in
    let ddPct := Js.Math_abs currentDrawdown * 100 in
    let ddScore := ddScore_of ddPct in
    let aprScore :=
      match Row.apr row with
      | None => 50%Z
      | Some apr => aprScore_of (apr * 100)
      end in
    let fundingScore := 50%Z in
    let oiScore := 50%Z in
    let composite :=
      composite_of ddScore tvlScore momentumScore volScore aprScore
                   fundingScore oiScore in
    Some {| composite := composite; ddScore := ddScore;
            tvlScore := tvlScore; momentumScore := momentumScore;
            volScore := volScore; aprScore := aprScore;
            fundingScore := fundingScore; oiScore := oiScore |}.

End WithSqrt.

End Seed.

(** ** api/collect.js: the ingestion handler *)

Module Collect.

Import Hyperliquid.

Record request := mkRequest {
  method : string;
  authorization : option string
}.

(** [process.env]. *)
Record env := mkEnv {
  DATABASE_URL : option string;
  CRON_SECRET : option string
}.

(** What fetchMarketContext resolves to. *)
Record market_ctx := mkMarketCtx {
  fundingRate : Q;
  openInterest : Q;
  volume24h : Q
}.

(** The body of the 200 answer of a completed cycle. *)
Record body := mkBody {
  success : bool;
  snapshot : (Z * Z) + Snapshot.t;
  skipped : bool;
  gapFilled : Z
}.

Inductive response :=
| Ended (status : Z)
| Failed (status : Z) (error : string)
| Json (status : Z) (b : body).

(** A string is truthy when it is set and not empty. *)
Definition truthy_string (s : option string) : bool :=
  match s with
  | Some s => negb (String.eqb s "")
  | None => false
  end.

Definition bearer_ok (cronSecret authHeader : option string) : bool :=
  match cronSecret, authHeader with
  | Some secret, Some header => String.eqb header ("Bearer " ++ secret)
  | _, _ => false
  end.

(** The rows of a raw read; the handler reads with resolution 'hourly',
    which never aggregates. *)
Definition rows_of (r : Db.result) : list Row.t :=
  match r with
  | Db.Raw l => l
  | Db.Daily _ => []
  end.

(** The loop over one timeframe's [navHistory] in the gap-fill pass, with
    [ath], [maxDD], the store and [gapFilled] threaded through. *)
Fixpoint gap_loop (now : Z) (pnlMap : list (Z * Q)) (ath maxDD : Q)
         (navHistory : list point) (sql : Db.store) (gapFilled : Z)
  : Db.store * Z :=
  match navHistory with
  | [] => (sql, gapFilled)
  | point :: rest =>
      let ath := if Js.gt (value point) ath then value point else ath in
      let dd := if Js.gt ath 0 then (value point - ath) / ath else 0 in
      let maxDD := if Js.lt dd maxDD then dd else maxDD in
      let gapSnapshot :=
        {| Snapshot.collected_at := Some (time point);
           Snapshot.nav := value point;
           Snapshot.pnl := Js.Map_get pnlMap (time point);
           Snapshot.apr := None;
           Snapshot.vlm := None;
           Snapshot.allow_deposits := true;
           Snapshot.nav_ath := ath;
           Snapshot.drawdown_pct := dd;
           Snapshot.max_drawdown := maxDD;
           Snapshot.composite_score := None;
           Snapshot.dd_score := None;
           Snapshot.tvl_score := None;
           Snapshot.momentum_score := None;
           Snapshot.vol_score := None;
           Snapshot.apr_score := None;
           Snapshot.funding_rate := None;
           Snapshot.open_interest := None;
           Snapshot.volume_24h := None;
           Snapshot.funding_score := None;
           Snapshot.oi_score := None |} in
      let (sql, gapInserted) := Db.insertSnapshot now sql gapSnapshot in
      let gapFilled :=
        match gapInserted with
        | Some _ => (gapFilled + 1)%Z
        | None => gapFilled
        end in
      gap_loop now pnlMap ath maxDD rest sql gapFilled
  end.

(** [for (const tf of ['month', 'week'])]. *)
Definition gap_fill (now : Z) (raw : vault_details) (sql : Db.store)
  : Db.store * Z :=
  let timeframes := parseAllTimeframes raw in
  fold_left
    (fun (acc : Db.store * Z) (tf : string) =>
       let (sql, gapFilled) := acc in
       match Js.fromEntries_get timeframes tf with
       | None => acc
       | Some (navHistory, pnlHistory) =>
           let pnlMap := map (fun p => (time p, value p)) pnlHistory in
           gap_loop now pnlMap 0 0 navHistory sql gapFilled
       end)
    ["month"; "week"]%string
    (sql, 0%Z).

Section WithSqrt.

Variable Math_sqrt : Q -> Q.

(** The snapshot row built from the parsed payload, the market context
    and the stored trailing window. *)
Definition build_snapshot (now : Z) (parsed : parsed) (marketCtx : market_ctx)
           (trailing : list Row.t) : Snapshot.t :=
  let trailingSignals :=
    computeTrailingSignals Math_sqrt now trailing (currentNav parsed) in
  let scores :=
    computeSignalScores
      {| a_currentDrawdown := currentDrawdown parsed;
         a_tvlScore := Some (t_tvlScore trailingSignals);
         a_momentumScore := Some (t_momentumScore trailingSignals);
         a_volScore := Some (t_volScore trailingSignals);
         a_apr := Some (apr parsed);
         a_fundingRate := Some (fundingRate marketCtx);
         a_oiScore := t_oiScore trailingSignals |} in
  {| Snapshot.collected_at := Some now;
     Snapshot.nav := currentNav parsed;
     Snapshot.pnl := Some (currentPnl parsed);
     Snapshot.apr := Some (apr parsed);
     Snapshot.vlm := Some (vlm parsed);
     Snapshot.allow_deposits :=
       match allowDeposits parsed with
       | Some false => false
       | _ => true
       end;
     Snapshot.nav_ath := ath parsed;
     Snapshot.drawdown_pct := currentDrawdown parsed;
     Snapshot.max_drawdown := maxDD parsed;
     Snapshot.composite_score := Some (composite scores);
     Snapshot.dd_score := Some (ddScore scores);
     Snapshot.tvl_score := Some (tvlScore scores);
     Snapshot.momentum_score := Some (momentumScore scores);
     Snapshot.vol_score := Some (volScore scores);
     Snapshot.apr_score := Some (aprScore scores);
     Snapshot.funding_rate := Some (fundingRate marketCtx);
     Snapshot.open_interest := Some (openInterest marketCtx);
     Snapshot.volume_24h := Some (volume24h marketCtx);
     Snapshot.funding_score := Some (fundingScore scores);
     Snapshot.oi_score := Some (oiScore scores) |}.

(** The handler.  [vault] is the outcome of fetchVaultDetails ([inl msg]
    when it throws) and [market] that of fetchMarketContext ([None] when
    it throws, which the handler replaces by zeros).  The store is the
    state; an exception leaves it as it was when it was thrown. *)
Definition handler (now : Z) (env : env) (req : request)
           (vault : string + vault_details) (market : option market_ctx)
           (sql : Db.store) : Db.store * response :=
  if String.eqb (method req) "OPTIONS" then (sql, Ended 200)
  else if truthy_string (CRON_SECRET env)
          && negb (bearer_ok (CRON_SECRET env) (authorization req))
  then (sql, Failed 401 "Unauthorized")
  else if negb (truthy_string (DATABASE_URL env))
  then (sql, Failed 500 "DATABASE_URL environment variable is not set")
  else
    match vault with
    | inl msg => (sql, Failed 500 msg)
    | inr raw =>
        let marketCtx :=
          Js.nullish market
            {| fundingRate := 0; openInterest := 0; volume24h := 0 |} in
        match parseVaultData raw with
        | inl msg => (sql, Failed 500 msg)
        | inr parsed =>
            let trailing := rows_of (Db.getSnapshots now sql "30d" "hourly") in
            let snapshot := build_snapshot now parsed marketCtx trailing in
            let (sql, inserted) := Db.insertSnapshot now sql snapshot in
            let currentHour := ((now / Db.HOUR_MS) mod 24)%Z in
            let (sql, gapFilled) :=
              if (currentHour =? 0)%Z then gap_fill now raw sql
              else (sql, 0%Z) in
            (sql,
             Json 200
               {| success := true;
                  snapshot :=
                    match inserted with
                    | Some row => inl row
                    | None => inr snapshot
                    end;
                  skipped :=
                    match inserted with
                    | Some _ => false
                    | None => true
                    end;
                  gapFilled := gapFilled |})
        end
    end.

End WithSqrt.

End Collect.

(** ** lib/hyperliquid.js: the two provider readers *)

Module Provider.

(** What [fetch] resolves to: [resp.ok], [resp.status] and the parsed body. *)
Record http_response (A : Type) := mkResponse {
  ok : bool;
  status : Z;
  json : A
}.

Arguments ok {A} _.
Arguments status {A} _.
Arguments json {A} _.





(** One entry of DeFiLlama's [tvl] arrays and the two places the body may
    carry such an array. *)
Record llama_entry := mkLlamaEntry {
  date : Z;
  totalLiquidityUSD : Q
}.

Record llama_data := mkLlamaData {
  tvl : option (list llama_entry);
  chainTvls_Hyperliquid_tvl : option (list llama_entry)
}.

(** fetchDeFiLlamaTVL; an array, even an empty one, is truthy. *)
Definition fetchDeFiLlamaTVL (resp : http_response llama_data)
  : Z + list Hyperliquid.point :=
  if negb (ok resp) then inl (status resp)
  else
    let data := json resp in
    let tvl :=
      match tvl data with
      | Some l => l
      | None => Js.nullish (chainTvls_Hyperliquid_tvl data) []
      end in
    inr (filter (fun d => Js.gt (Hyperliquid.value d) 0)
                (map (fun d => Hyperliquid.mkPoint (date d * 1000)
                                                   (totalLiquidityUSD d))
                     tvl)).

End Provider.

(** ** api/snapshots.js: the range read endpoint *)

Module SnapshotsApi.

Record request := mkRequest {
  method : string;
  query_range : option string;
  query_resolution : option string
}.

Record meta := mkMeta {
  count : nat;
  range : string;
  resolution : string;
  oldest : option Z;
  newest : option Z
}.

Inductive response :=
| Ended (status : Z)
| Failed (status : Z) (error : string)
| Json (status : Z) (snapshots : Db.result) (m : meta).

Definition validRanges : list string :=
  ["24h"; "7d"; "30d"; "90d"; "1y"; "all"]%string.

(** [s || d] on a query parameter. *)
Definition or_string (s : option string) (d : string) : string :=
  match s with
  | Some s => if String.eqb s "" then d else s
  | None => d
  end.

(** [snapshots[0]?.collected_at || null] and
    [snapshots[snapshots.length - 1]?.collected_at || null]. *)
Definition first_collected_at (r : Db.result) : option Z :=
  match r with
  | Db.Raw l => option_map Row.collected_at (nth_error l 0)
  | Db.Daily l => option_map Db.d_collected_at (nth_error l 0)
  end.

Definition last_collected_at (r : Db.result) : option Z :=
  match r with
  | Db.Raw l => option_map Row.collected_at (Js.last_opt l)
  | Db.Daily l => option_map Db.d_collected_at (Js.last_opt l)
  end.

Definition handler (now : Z) (env : Collect.env) (req : request)
           (sql : Db.store) : response :=
  if String.eqb (method req) "OPTIONS" then Ended 200
  else if negb (Collect.truthy_string (Collect.DATABASE_URL env))
  then Failed 500 "DATABASE_URL environment variable is not set"
  else
    let range := or_string (query_range req) "all" in
    let resolution := or_string (query_resolution req) "auto" in
    if negb (existsb (String.eqb range) validRanges)
    then Failed 400 ("Invalid range. Use: " ++ String.concat ", " validRanges)
    else
      let snapshots := Db.getSnapshots now sql range resolution in
      let effectiveResolution :=
        if String.eqb resolution "auto"
        then (if String.eqb range "24h" || String.eqb range "7d"
              then "hourly" else "daily")%string
        else resolution in
      Json 200 snapshots
           {| count := Db.count snapshots;
              range := range;
              resolution := effectiveResolution;
              oldest := first_collected_at snapshots;
              newest := last_collected_at snapshots |}.

End SnapshotsApi.

(** ** api/latest.js: the latest snapshot beside the live readout *)

Module LatestApi.

Record live := mkLive {
  nav : Q;
  pnl : Q;
  apr : Q;
  vlm : Q;
  ath : Q;
  drawdown : Q;
  maxDD : Q;
  allowDeposits : option bool;
  maxDistributable : Q
}.

Inductive response :=
| Ended (status : Z)
| Failed (status : Z) (error : string)
| Json (status : Z) (snapshot : option Row.t) (l : live)
       (history_available : bool).

Definition handler (env : Collect.env) (method : string)
           (vault : string + Hyperliquid.vault_details) (sql : Db.store)
  : response :=
  if String.eqb method "OPTIONS" then Ended 200
  else if negb (Collect.truthy_string (Collect.DATABASE_URL env))
  then Failed 500 "DATABASE_URL environment variable is not set"
  else
    let snapshot := Db.getLatestSnapshot sql in
    match vault with
    | inl msg => Failed 500 msg
    | inr raw =>
        match Hyperliquid.parseVaultData raw with
        | inl msg => Failed 500 msg
        | inr parsed =>
            Json 200 snapshot
                 {| nav := Hyperliquid.currentNav parsed;
                    pnl := Hyperliquid.currentPnl parsed;
                    apr := Hyperliquid.apr parsed;
                    vlm := Hyperliquid.vlm parsed;
                    ath := Hyperliquid.ath parsed;
                    drawdown := Hyperliquid.currentDrawdown parsed;
                    maxDD := Hyperliquid.maxDD parsed;
                    allowDeposits := Hyperliquid.allowDeposits parsed;
                    maxDistributable := Hyperliquid.maxDistributable parsed |}
                 match snapshot with
                 | Some _ => true
                 | None => false
                 end
        end
    end.

End LatestApi.

(** ** The earlier ingestion handler: no market context, no gap-fill *)

Module CronCollect.

Import Hyperliquid.

Record body := mkBody {
  success : bool;
  snapshot : (Z * Z) + Snapshot.t;
  skipped : bool
}.

Inductive response :=
| Ended (status : Z)
| Failed (status : Z) (error : string)
| Json (status : Z) (b : body).

Section WithSqrt.

Variable Math_sqrt : Q -> Q.

Definition build_snapshot (now : Z) (parsed : parsed) (trailing : list Row.t)
  : Snapshot.t :=
  let trailingSignals :=
    computeTrailingSignals Math_sqrt now trailing (currentNav parsed) in
  let scores :=
    computeSignalScores
      {| a_currentDrawdown := currentDrawdown parsed;
         a_tvlScore := Some (t_tvlScore trailingSignals);
         a_momentumScore := Some (t_momentumScore trailingSignals);
         a_volScore := Some (t_volScore trailingSignals);
         a_apr := Some (apr parsed);
         a_fundingRate := None;
         a_oiScore := None |} in
  {| Snapshot.collected_at := Some now;
     Snapshot.nav := currentNav parsed;
     Snapshot.pnl := Some (currentPnl parsed);
     Snapshot.apr := Some (apr parsed);
     Snapshot.vlm := Some (vlm parsed);
     Snapshot.allow_deposits :=
       match allowDeposits parsed with
       | Some false => false
       | _ => true
       end;
     Snapshot.nav_ath := ath parsed;
     Snapshot.drawdown_pct := currentDrawdown parsed;
     Snapshot.max_drawdown := maxDD parsed;
     Snapshot.composite_score := Some (composite scores);
     Snapshot.dd_score := Some (ddScore scores);
     Snapshot.tvl_score := Some (tvlScore scores);
     Snapshot.momentum_score := Some (momentumScore scores);
     Snapshot.vol_score := Some (volScore scores);
     Snapshot.apr_score := Some (aprScore scores);
     Snapshot.funding_rate := None;
     Snapshot.open_interest := None;
     Snapshot.volume_24h := None;
     Snapshot.funding_score := None;
     Snapshot.oi_score := None |}.

Definition handler (now : Z) (env : Collect.env) (req : Collect.request)
           (vault : string + vault_details) (sql : Db.store)
  : Db.store * response :=
  if String.eqb (Collect.method req) "OPTIONS" then (sql, Ended 200)
  else if Collect.truthy_string (Collect.CRON_SECRET env)
          && negb (Collect.bearer_ok (Collect.CRON_SECRET env)
                                     (Collect.authorization req))
  then (sql, Failed 401 "Unauthorized")
  else if negb (Collect.truthy_string (Collect.DATABASE_URL env))
  then (sql, Failed 500 "DATABASE_URL environment variable is not set")
  else
    match vault with
    | inl msg => (sql, Failed 500 msg)
    | inr raw =>
        match parseVaultData raw with
        | inl msg => (sql, Failed 500 msg)
        | inr parsed =>
            let trailing :=
              Collect.rows_of (Db.getSnapshots now sql "30d" "hourly") in
            let snapshot := build_snapshot now parsed trailing in
            let (sql, inserted) := Db.insertSnapshot now sql snapshot in
            (sql,
             Json 200
               {| success := true;
                  snapshot :=
                    match inserted with
                    | Some row => inl row
                    | None => inr snapshot
                    end;
                  skipped :=
                    match inserted with
                    | Some _ => false
                    | None => true
                    end |})
        end
    end.

End WithSqrt.

End CronCollect.

(** ** scripts/setup-db.js: the seeding run on the table *)

Module Setup.

Import Hyperliquid Seed.

(** The VALUES list of the INSERT of insertPoints: nine columns, [vlm] NULL,
    [allow_deposits] true, every other column at its default, NULL. *)
Definition point_values (id : Z) (p : seed_point) : Row.t :=
  {| Row.id := id;
     Row.collected_at := sp_time p;
     Row.nav := sp_nav p;
     Row.pnl := sp_pnl p;
     Row.apr := sp_apr p;
     Row.vlm := None;
     Row.allow_deposits := true;
     Row.nav_ath := sp_ath p;
     Row.drawdown_pct := sp_dd p;
     Row.max_drawdown := sp_maxDD p;
     Row.composite_score := None;
     Row.dd_score := None;
     Row.tvl_score := None;
     Row.momentum_score := None;
     Row.vol_score := None;
     Row.apr_score := None;
     Row.funding_rate := None;
     Row.open_interest := None;
     Row.volume_24h := None;
     Row.funding_score := None;
     Row.oi_score := None |}.

(** insertPoints: one INSERT ... ON CONFLICT DO NOTHING per point, counting
    the inserted and the skipped ones; it returns [inserted] and logs both. *)
Fixpoint insertPoints (sql : Db.store) (points : list seed_point)
         (inserted skipped : Z) : Db.store * (Z * Z) :=
  match points with
  | [] => (sql, (inserted, skipped))
  | p :: rest =>
      let row := point_values (Db.next_id sql) p in
      if Db.hour_taken sql (Row.collected_at row)
      then insertPoints {| Db.rows := Db.rows sql;
                           Db.next_id := Db.next_id sql + 1 |}
                        rest inserted (skipped + 1)
      else insertPoints {| Db.rows := Db.rows sql ++ [row];
                           Db.next_id := Db.next_id sql + 1 |}
                        rest (inserted + 1) skipped
  end.

(** [UPDATE snapshots SET nav_ath = .., drawdown_pct = .., max_drawdown = ..
     WHERE id = ..]. *)
Definition set_ath (r : Row.t) (ath dd maxDD : Q) : Row.t :=
  {| Row.id := Row.id r;
     Row.collected_at := Row.collected_at r;
     Row.nav := Row.nav r;
     Row.pnl := Row.pnl r;
     Row.apr := Row.apr r;
     Row.vlm := Row.vlm r;
     Row.allow_deposits := Row.allow_deposits r;
     Row.nav_ath := ath;
     Row.drawdown_pct := dd;
     Row.max_drawdown := maxDD;
     Row.composite_score := Row.composite_score r;
     Row.dd_score := Row.dd_score r;
     Row.tvl_score := Row.tvl_score r;
     Row.momentum_score := Row.momentum_score r;
     Row.vol_score := Row.vol_score r;
     Row.apr_score := Row.apr_score r;
     Row.funding_rate := Row.funding_rate r;
     Row.open_interest := Row.open_interest r;
     Row.volume_24h := Row.volume_24h r;
     Row.funding_score := Row.funding_score r;
     Row.oi_score := Row.oi_score r |}.

Definition update_ath (id : Z) (ath dd maxDD : Q) (rows : list Row.t)
  : list Row.t :=
  map (fun r => if (Row.id r =? id)%Z then set_ath r ath dd maxDD else r) rows.

(** Step 5: the loop over [allRows] with [globalAth] and [globalMaxDD]
    threaded through and the table updated row by row. *)
Fixpoint recompute_loop (globalAth globalMaxDD : Q) (allRows : list Row.t)
         (rows : list Row.t) : list Row.t :=
  match allRows with
  | [] => rows
  | row :: rest =>
      let nav := Row.nav row in
      let globalAth := if Js.gt nav globalAth then nav else globalAth in
      let dd := if Js.gt globalAth 0 then (nav - globalAth) / globalAth else 0 in
      let globalMaxDD := if Js.lt dd globalMaxDD then dd else globalMaxDD in
      recompute_loop globalAth globalMaxDD rest
                     (update_ath (Row.id row) globalAth dd globalMaxDD rows)
  end.

Definition recompute_ath (sql : Db.store) : Db.store :=
  {| Db.rows := recompute_loop 0 0 (Db.order_by_time (Db.rows sql)) (Db.rows sql);
     Db.next_id := Db.next_id sql |}.

(** [UPDATE snapshots SET composite_score = .., dd_score = .., ... WHERE id = ..]. *)
Definition set_scores (r : Row.t) (s : scores) : Row.t :=
  {| Row.id := Row.id r;
     Row.collected_at := Row.collected_at r;
     Row.nav := Row.nav r;
     Row.pnl := Row.pnl r;
     Row.apr := Row.apr r;
     Row.vlm := Row.vlm r;
     Row.allow_deposits := Row.allow_deposits r;
     Row.nav_ath := Row.nav_ath r;
     Row.drawdown_pct := Row.drawdown_pct r;
     Row.max_drawdown := Row.max_drawdown r;
     Row.composite_score := Some (composite s);
     Row.dd_score := Some (ddScore s);
     Row.tvl_score := Some (tvlScore s);
     Row.momentum_score := Some (momentumScore s);
     Row.vol_score := Some (volScore s);
     Row.apr_score := Some (aprScore s);
     Row.funding_rate := Row.funding_rate r;
     Row.open_interest := Row.open_interest r;
     Row.volume_24h := Row.volume_24h r;
     Row.funding_score := Some (fundingScore s);
     Row.oi_score := Some (oiScore s) |}.

Definition update_scores (id : Z) (s : scores) (rows : list Row.t)
  : list Row.t :=
  map (fun r => if (Row.id r =? id)%Z then set_scores r s else r) rows.

(** [WHERE composite_score IS NULL]. *)
Definition unscored (r : Row.t) : bool :=
  match Row.composite_score r with
  | None => true
  | Some _ => false
  end.

Section WithSqrt.

Variable Math_sqrt : Q -> Q.

(** Step 6: the loop over [nullScoreRows]; [allSnaps] was read before it. *)
Fixpoint backfill_loop (allSnaps nullScoreRows rows : list Row.t)
  : list Row.t :=
  match nullScoreRows with
  | [] => rows
  | row :: rest =>
      match score_row Math_sqrt allSnaps row with
      | None => backfill_loop allSnaps rest rows
      | Some s => backfill_loop allSnaps rest (update_scores (Row.id row) s rows)
      end
  end.

Definition backfill_scores (sql : Db.store) : Db.store :=
  let nullScoreRows := Db.order_by_time (filter unscored (Db.rows sql)) in
  let allSnaps := Db.order_by_time (Db.rows sql) in
  {| Db.rows := backfill_loop allSnaps nullScoreRows (Db.rows sql);
     Db.next_id := Db.next_id sql |}.

(** The points of one timeframe of the payload. *)
Definition timeframe_points (tf : timeframe) : list seed_point :=
  computeWithATH (positive_points (accountValueHistory tf))
                 (Some (tf_pnlHistory tf)).

(** Steps 2b to 6 of [main] on the fetched payload: truncate, seed from
    'allTime', 'month', 'week' and 'day', recompute, backfill. *)
Definition main (hlData : vault_details) : Db.store :=
  let truncated := {| Db.rows := []; Db.next_id := 1 |} in
  let seeded :=
    fold_left
      (fun sql key =>
         match Js.fromEntries_get (portfolio hlData) key with
         | None => sql
         | Some tfData => fst (insertPoints sql (timeframe_points tfData) 0 0)
         end)
      ["allTime"; "month"; "week"; "day"]%string
      truncated in
  backfill_scores (recompute_ath seeded).

End WithSqrt.

End Setup.

(** ** The first version of the seeding script *)

Module SetupLegacy.

Import Hyperliquid.

(** The object built for each historical point: [pnl] is a number. *)
Record seed_point := mkSeedPoint {
  sp_time : Z;
  sp_nav : Q;
  sp_pnl : Q;
  sp_ath : Q;
  sp_dd : Q;
  sp_maxDD : Q
}.

(** The body of [navHistory.map(point => ...)] with [ath] and [maxDD]
    threaded through.  The drawdown is divided by [ath] without a test;
    [navHistory] holds positive values only, so [ath] is positive. *)
Fixpoint points_from (ath maxDD : Q) (navHistory : list point)
         (pnlMap : list (Z * Q)) : list seed_point :=
  match navHistory with
  | [] => []
  | point :: rest =>
      let ath := if Js.gt (value point) ath then value point else ath in
      let dd := (value point - ath) / ath in
      let maxDD := if Js.lt dd maxDD then dd else maxDD in
      {| sp_time := time point;
         sp_nav := value point;
         sp_pnl := Js.or_num (Js.Map_get pnlMap (time point)) 0;
         sp_ath := ath;
         sp_dd := dd;
         sp_maxDD := maxDD |}
      :: points_from ath maxDD rest pnlMap
  end.

(** The VALUES list of the INSERT: [apr] is [data.apr || 0] on every row. *)
Definition point_values (id : Z) (apr : Q) (p : seed_point) : Row.t :=
  {| Row.id := id;
     Row.collected_at := sp_time p;
     Row.nav := sp_nav p;
     Row.pnl := Some (sp_pnl p);
     Row.apr := Some apr;
     Row.vlm := None;
     Row.allow_deposits := true;
     Row.nav_ath := sp_ath p;
     Row.drawdown_pct := sp_dd p;
     Row.max_drawdown := sp_maxDD p;
     Row.composite_score := None;
     Row.dd_score := None;
     Row.tvl_score := None;
     Row.momentum_score := None;
     Row.vol_score := None;
     Row.apr_score := None;
     Row.funding_rate := None;
     Row.open_interest := None;
     Row.volume_24h := None;
     Row.funding_score := None;
     Row.oi_score := None |}.

(** [for (const p of points)]: one INSERT ... ON CONFLICT DO NOTHING per
    point, counting the inserted and the skipped ones. *)
Fixpoint insert_loop (sql : Db.store) (apr : Q) (points : list seed_point)
         (inserted skipped : Z) : Db.store * (Z * Z) :=
  match points with
  | [] => (sql, (inserted, skipped))
  | p :: rest =>
      let row := point_values (Db.next_id sql) apr p in
      if Db.hour_taken sql (Row.collected_at row)
      then insert_loop {| Db.rows := Db.rows sql;
                          Db.next_id := Db.next_id sql + 1 |}
                       apr rest inserted (skipped + 1)
      else insert_loop {| Db.rows := Db.rows sql ++ [row];
                          Db.next_id := Db.next_id sql + 1 |}
                       apr rest (inserted + 1) skipped
  end.

(** Step 3 of [main] on the fetched payload and the table as it is (the
    script does not empty it): [None] is [process.exit(1)] for a payload
    without 'allTime'; otherwise the table and the two counters. *)
Definition main (sql : Db.store) (data : vault_details)
  : option (Db.store * (Z * Z)) :=
  match Js.fromEntries_get (portfolio data) "allTime" with
  | None => None
  | Some allTime =>
      let navHistory := positive_points (accountValueHistory allTime) in
      let points := points_from 0 0 navHistory (tf_pnlHistory allTime) in
      Some (insert_loop sql (Js.or_num (vd_apr data) 0) points 0 0)
  end.

End SetupLegacy.

(** * Vocabulary of the properties and example data *)

(** The maximum and the minimum of a list, as the spec means them: a member
    of the list that bounds every member. *)
Definition is_max (m : Q) (l : list Q) : Prop :=
  In m l /\ forall y, In y l -> y <= m.

Definition is_min (m : Q) (l : list Q) : Prop :=
  (exists y, In y l /\ y == m) /\ forall y, In y l -> m <= y.

(** The two accumulators of the ATH passes, as folds. *)
Definition run_max (a : Q) (l : list Q) : Q :=
  fold_left (fun a v => if Js.gt v a then v else a) l a.

Definition run_min (m : Q) (l : list Q) : Q :=
  fold_left (fun m d => if Js.lt d m then d else m) l m.

(** The spec's example: NAV 100, 110, 90, 95 at four successive times. *)
Definition example_nav : list Hyperliquid.point :=
  [Hyperliquid.mkPoint 1 100; Hyperliquid.mkPoint 2 110;
     Hyperliquid.mkPoint 3 90; Hyperliquid.mkPoint 4 95].

(** A number as it prints with four decimals. *)
Definition round4 (x : Q) : Q :=
  inject_Z (Js.Math_round (x * 10000)) / 10000.



Fixpoint total (w : list Q) : Q :=
  match w with
  | [] => 0
  | a :: w' => a + total w'
  end.


Definition in_0_100 (z : Z) : Prop := (0 <= z <= 100)%Z.








(** A concrete [Math.sqrt] for the examples: the square root cut to six
    decimals. *)
Definition sqrt6 (q : Q) : Q :=
  inject_Z (Z.sqrt (Qfloor (q * 1000000000000))) / 1000000.

(** A stored row with the given time, NAV and open interest, and nothing
    remarkable in the other columns. *)
Definition row_at (id t : Z) (nav : Q) (oi : option Q) : Row.t :=
  {| Row.id := id; Row.collected_at := t; Row.nav := nav;
     Row.pnl := None; Row.apr := None; Row.vlm := None;
     Row.allow_deposits := true;
     Row.nav_ath := nav; Row.drawdown_pct := 0; Row.max_drawdown := 0;
     Row.composite_score := None; Row.dd_score := None; Row.tvl_score := None;
     Row.momentum_score := None; Row.vol_score := None; Row.apr_score := None;
     Row.funding_rate := None; Row.open_interest := oi; Row.volume_24h := None;
     Row.funding_score := None; Row.oi_score := None |}.

(** A day and an hour, in milliseconds. *)
Definition DAY : Z := 86400000.

Definition HOUR : Z := 3600000.

(** Two stored rows a day apart, NAV 100 then 110. *)
Definition clock_history : list Row.t :=
  [row_at 1 0 100 None; row_at 2 DAY 110 None].

(** The unique index idx_snapshots_hourly as a property of the table. *)
Definition hours_unique (sql : Db.store) : Prop :=
  NoDup (map (fun r => Db.hour_of (Row.collected_at r)) (Db.rows sql)).

(** The stored rows whose timestamp falls in the hour of [t]. *)
Definition rows_in_hour (sql : Db.store) (t : Z) : list Row.t :=
  filter (fun r => (Db.hour_of (Row.collected_at r) =? Db.hour_of t)%Z) (Db.rows sql).

(** The request passes the method test, the bearer test and getDb. *)
Definition accepted (env : Collect.env) (req : Collect.request) : Prop :=
  String.eqb (Collect.method req) "OPTIONS" = false /\
  (Collect.truthy_string (Collect.CRON_SECRET env)
   && negb (Collect.bearer_ok (Collect.CRON_SECRET env)
                              (Collect.authorization req))) = false /\
  Collect.truthy_string (Collect.DATABASE_URL env) = true.

(** A snapshot object with the given timestamp and NAV, scored 50
    everywhere, with market context. *)
Definition snapshot_at (t : Z) (nav : Q) : Snapshot.t :=
  {| Snapshot.collected_at := Some t; Snapshot.nav := nav;
     Snapshot.pnl := Some 0; Snapshot.apr := Some 0.1; Snapshot.vlm := Some 1000;
     Snapshot.allow_deposits := true;
     Snapshot.nav_ath := nav; Snapshot.drawdown_pct := 0;
     Snapshot.max_drawdown := 0;
     Snapshot.composite_score := Some 50%Z; Snapshot.dd_score := Some 50%Z;
     Snapshot.tvl_score := Some 50%Z; Snapshot.momentum_score := Some 50%Z;
     Snapshot.vol_score := Some 50%Z; Snapshot.apr_score := Some 50%Z;
     Snapshot.funding_rate := Some 0.0001; Snapshot.open_interest := Some 5000000;
     Snapshot.volume_24h := Some 7000000;
     Snapshot.funding_score := Some 60%Z; Snapshot.oi_score := Some 70%Z |}.

Definition empty_store : Db.store := {| Db.rows := []; Db.next_id := 1 |}.

(** [data] with its volume and its six scores replaced. *)
Definition with_vlm_scores (data : Snapshot.t) (vlm : option Q) (score : option Z)
  : Snapshot.t :=
  {| Snapshot.collected_at := Snapshot.collected_at data;
     Snapshot.nav := Snapshot.nav data;
     Snapshot.pnl := Snapshot.pnl data;
     Snapshot.apr := Snapshot.apr data;
     Snapshot.vlm := vlm;
     Snapshot.allow_deposits := Snapshot.allow_deposits data;
     Snapshot.nav_ath := Snapshot.nav_ath data;
     Snapshot.drawdown_pct := Snapshot.drawdown_pct data;
     Snapshot.max_drawdown := Snapshot.max_drawdown data;
     Snapshot.composite_score := score;
     Snapshot.dd_score := score;
     Snapshot.tvl_score := score;
     Snapshot.momentum_score := score;
     Snapshot.vol_score := score;
     Snapshot.apr_score := score;
     Snapshot.funding_rate := Snapshot.funding_rate data;
     Snapshot.open_interest := Snapshot.open_interest data;
     Snapshot.volume_24h := Snapshot.volume_24h data;
     Snapshot.funding_score := Snapshot.funding_score data;
     Snapshot.oi_score := Snapshot.oi_score data |}.

(** The analytics of a first cycle: no trailing scores, no APR, no funding
    rate, no drawdown. *)
Definition bare_analytics : Hyperliquid.analytics :=
  {| Hyperliquid.a_currentDrawdown := 0; Hyperliquid.a_tvlScore := None;
     Hyperliquid.a_momentumScore := None; Hyperliquid.a_volScore := None;
     Hyperliquid.a_apr := None; Hyperliquid.a_fundingRate := None;
     Hyperliquid.a_oiScore := None |}.

(** A store that spans nine days: one row on day 0 and three hourly rows on
    day 9. *)
Definition nine_day_store : Db.store :=
  {| Db.rows := [row_at 1 0 100 None;
               row_at 2 (9 * DAY) 101 None;
               row_at 3 (9 * DAY + HOUR) 102 None;
               row_at 4 (9 * DAY + 2 * HOUR) 103 None];
     Db.next_id := 5 |}.

(** The aggregates as the spec names them.  An average of a list is the
    number that, multiplied by the number of values, gives their total. *)
Definition is_average (a : Q) (vs : list Q) : Prop :=
  a * inject_Z (Z.of_nat (List.length vs)) == total vs.

(** The average of the values, NULL when there is none. *)
Definition avg_of (res : option Q) (vs : list Q) : Prop :=
  match vs with
  | [] => res = None
  | _ => exists a, res = Some a /\ is_average a vs
  end.

(** The average of the values rounded to a nearest integer, NULL when there
    is no value. *)
Definition rounded_avg_of (res : option Z) (vs : list Z) : Prop :=
  match vs with
  | [] => res = None
  | _ => exists z a,
         res = Some z /\ is_average a (map inject_Z vs) /\
         inject_Z z - (1 # 2) <= a /\ a <= inject_Z z + (1 # 2)
  end.

Definition max_of (res : option Q) (vs : list Q) : Prop :=
  exists m, res = Some m /\ is_max m vs.

Definition min_of (res : option Q) (vs : list Q) : Prop :=
  exists m, res = Some m /\ is_min m vs.


(** Three hourly points of one day, NAV 100, 102, 98, written by the gap-fill
    loop. *)
Definition three_hour_store : Db.store :=
  fst (Collect.gap_loop 0 [] 0 0
       [Hyperliquid.mkPoint 0 100; Hyperliquid.mkPoint HOUR 102;
        Hyperliquid.mkPoint (2 * HOUR) 98]
       empty_store 0).

(** Two snapshots of one day, an hour apart, every score 50 in the first and
    55 in the second. *)
Definition two_score_store : Db.store :=
  fst (Db.insertSnapshot 0
       (fst (Db.insertSnapshot 0 empty_store
               (with_vlm_scores (snapshot_at 0 100) (Some 1000) (Some 50%Z))))
       (with_vlm_scores (snapshot_at HOUR 100) (Some 1000) (Some 55%Z))).

(** The primary key: the ids of the table are distinct and below the next
    value of the sequence. *)
Definition ids_fresh (sql : Db.store) : Prop :=
  NoDup (map Row.id (Db.rows sql)) /\
  forall r, In r (Db.rows sql) -> (Row.id r < Db.next_id sql)%Z.

(** Rows in ascending order of [collected_at]. *)
Definition time_sorted (l : list Row.t) : Prop :=
  StronglySorted (fun a b => (Row.collected_at a <= Row.collected_at b)%Z) l.

(** No stored row carries an open interest. *)
Definition no_open_interest (l : list Row.t) : Prop :=
  forall r, In r l -> Row.open_interest r = None.

(** A row as the gap-fill pass writes it from one of the points: the point's
    time and NAV, no APR, no volume, deposits allowed, no score. *)
Definition gap_row (navHistory : list Hyperliquid.point) (r : Row.t) : Prop :=
  (exists p, In p navHistory /\
             Row.collected_at r = Hyperliquid.time p /\
             Row.nav r = Hyperliquid.value p) /\
  Row.apr r = None /\ Row.vlm r = None /\ Row.allow_deposits r = true /\
  Row.composite_score r = None /\ Row.dd_score r = None /\
  Row.tvl_score r = None /\ Row.momentum_score r = None /\
  Row.vol_score r = None /\ Row.apr_score r = None /\
  Row.funding_score r = None /\ Row.oi_score r = None /\
  Row.open_interest r = None.

(** The positive NAV points of the 'month' and 'week' timeframes. *)
Definition gap_points (raw : Hyperliquid.vault_details) : list Hyperliquid.point :=
  flat_map
    (fun tf =>
       match Js.fromEntries_get (Hyperliquid.portfolio raw) tf with
       | Some tfData =>
           Hyperliquid.positive_points (Hyperliquid.accountValueHistory tfData)
       | None => []
       end)
    ["month"; "week"]%string.

(** An environment with a database and no secret, a POST request, and a
    payload whose 'allTime' series is the spec's example and whose 'month'
    series has two points. *)
Definition example_env : Collect.env :=
  {| Collect.DATABASE_URL := Some "postgres://db"%string;
     Collect.CRON_SECRET := None |}.

Definition example_req : Collect.request :=
  {| Collect.method := "POST"%string; Collect.authorization := None |}.

Definition example_payload : Hyperliquid.vault_details :=
  {| Hyperliquid.portfolio :=
       [("allTime"%string,
         {| Hyperliquid.accountValueHistory :=
              [(0%Z, 100); (DAY, 110); ((2 * DAY)%Z, 90); ((3 * DAY)%Z, 95)];
            Hyperliquid.tf_pnlHistory := [(DAY, 10); ((3 * DAY)%Z, -5)] |});
        ("month"%string,
         {| Hyperliquid.accountValueHistory :=
              [((2 * DAY)%Z, 90); ((3 * DAY)%Z, 95)];
            Hyperliquid.tf_pnlHistory := [] |})];
     Hyperliquid.vd_apr := Some 0.2;
     Hyperliquid.vd_vlm := None;
     Hyperliquid.vd_allowDeposits := Some true;
     Hyperliquid.vd_maxDistributable := None |}.

(** The timestamps of the rows of a read, in the order returned. *)
Definition result_times (r : Db.result) : list Z :=
  match r with
  | Db.Raw l => map Row.collected_at l
  | Db.Daily l => map Db.d_collected_at l
  end.

(** The APR and the funding rate as computeSignalScores reads them (a
    missing one is 0), and a trailing score as it reads it (a missing one
    is 50). *)
Definition apr_read (a : Hyperliquid.analytics) : Q :=
  Js.or_num (Hyperliquid.a_apr a) 0.

Definition funding_read (a : Hyperliquid.analytics) : Q :=
  Js.or_num (Hyperliquid.a_fundingRate a) 0.

Definition score_read (s : option Z) : Z := Js.nullish s 50%Z.





(** The NAV points of a list of rows. *)
Definition nav_points (l : list Row.t) : list Hyperliquid.point :=
  map (fun r => Hyperliquid.mkPoint (Row.collected_at r) (Row.nav r)) l.

(** What the updates of step 5 do to one row, one [UPDATE] after the
    other: the loop of step 5 seen from a single row. *)
Fixpoint recompute_row (globalAth globalMaxDD : Q) (allRows : list Row.t)
         (r : Row.t) : Row.t :=
  match allRows with
  | [] => r
  | row :: rest =>
      let nav := Row.nav row in
      let globalAth := if Js.gt nav globalAth then nav else globalAth in
      let dd := if Js.gt globalAth 0 then (nav - globalAth) / globalAth else 0 in
      let globalMaxDD := if Js.lt dd globalMaxDD then dd else globalMaxDD in
      recompute_row globalAth globalMaxDD rest
        (if (Row.id r =? Row.id row)%Z
         then Setup.set_ath r globalAth dd globalMaxDD else r)
  end.

(** The three derived columns of every row of a time-ordered list are the
    running extrema over the rows up to it: the high is the maximum of the
    NAVs, the drawdown is the shortfall from that high, the lowest drawdown
    is the minimum of the drawdowns. *)
Definition running_extrema (l : list Row.t) : Prop :=
  forall k r,
    nth_error l k = Some r ->
    is_max (Row.nav_ath r) (map Row.nav (firstn (S k) l)) /\
    Row.drawdown_pct r == (Row.nav r - Row.nav_ath r) / Row.nav_ath r /\
    Row.drawdown_pct r <= 0 /\
    is_min (Row.max_drawdown r) (map Row.drawdown_pct (firstn (S k) l)).



(** The rows of the table within the thirty days up to a row. *)
Definition trailing_window (l : list Row.t) (r : Row.t) : list Row.t :=
  filter (fun s => (Row.collected_at r - Seed.THIRTY_DAYS_MS <=? Row.collected_at s)%Z
                   && (Row.collected_at s <=? Row.collected_at r)%Z) l.




(** A row of the current seeding script as the first version of the
    script stores it: a missing or zero PnL is 0, and the APR is the
    payload's. *)
Definition legacy_columns (apr : Q) (r : Row.t) : Row.t :=
  {| Row.id := Row.id r;
     Row.collected_at := Row.collected_at r;
     Row.nav := Row.nav r;
     Row.pnl := Some (Js.or_num (Row.pnl r) 0);
     Row.apr := Some apr;
     Row.vlm := Row.vlm r;
     Row.allow_deposits := Row.allow_deposits r;
     Row.nav_ath := Row.nav_ath r;
     Row.drawdown_pct := Row.drawdown_pct r;
     Row.max_drawdown := Row.max_drawdown r;
     Row.composite_score := Row.composite_score r;
     Row.dd_score := Row.dd_score r;
     Row.tvl_score := Row.tvl_score r;
     Row.momentum_score := Row.momentum_score r;
     Row.vol_score := Row.vol_score r;
     Row.apr_score := Row.apr_score r;
     Row.funding_rate := Row.funding_rate r;
     Row.open_interest := Row.open_interest r;
     Row.volume_24h := Row.volume_24h r;
     Row.funding_score := Row.funding_score r;
     Row.oi_score := Row.oi_score r |}.

(** A point of the current script as the first version builds it. *)
Definition legacy_point (o : Seed.seed_point) : SetupLegacy.seed_point :=
  {| SetupLegacy.sp_time := Seed.sp_time o;
     SetupLegacy.sp_nav := Seed.sp_nav o;
     SetupLegacy.sp_pnl := Js.or_num (Seed.sp_pnl o) 0;
     SetupLegacy.sp_ath := Seed.sp_ath o;
     SetupLegacy.sp_dd := Seed.sp_dd o;
     SetupLegacy.sp_maxDD := Seed.sp_maxDD o |}.

(** * Properties *)

(** ** Comparisons *)

Lemma gt_true (a b : Q) : Js.gt a b = true -> b < a.
Proof.
  unfold Js.gt. intros H. apply negb_true_iff in H.
  apply Qnot_le_lt. intros Hle. apply Qle_bool_iff in Hle. congruence.
Qed.

Lemma gt_false (a b : Q) : Js.gt a b = false -> a <= b.
Proof.
  unfold Js.gt. intros H. apply negb_false_iff in H.
  now apply Qle_bool_iff.
Qed.

Lemma lt_true (a b : Q) : Js.lt a b = true -> a < b.
Proof.
  unfold Js.lt. intros H. apply negb_true_iff in H.
  apply Qnot_le_lt. intros Hle. apply Qle_bool_iff in Hle. congruence.
Qed.

Lemma lt_false (a b : Q) : Js.lt a b = false -> b <= a.
Proof.
  unfold Js.lt. intros H. apply negb_false_iff in H.
  now apply Qle_bool_iff.
Qed.

Lemma gt_intro (a b : Q) : b < a -> Js.gt a b = true.
Proof.
  intros H. destruct (Js.gt a b) eqn:E; [reflexivity|].
  apply gt_false in E. exfalso. exact (Qlt_not_le _ _ H E).
Qed.

(** ** The running high and the running low *)

Lemma run_max_ge_init (l : list Q) : forall a, a <= run_max a l.
Proof.
  induction l as [|v l IH]; intros a; cbn [run_max fold_left].
  - apply Qle_refl.
  - fold (run_max (if Js.gt v a then v else a) l).
    eapply Qle_trans; [|apply IH].
    destruct (Js.gt v a) eqn:E.
    + apply Qlt_le_weak. now apply gt_true.
    + apply Qle_refl.
Qed.

Lemma run_max_upper (l : list Q) : forall a y, In y l -> y <= run_max a l.
Proof.
  induction l as [|v l IH]; intros a y Hin; [destruct Hin|].
  cbn [run_max fold_left]. fold (run_max (if Js.gt v a then v else a) l).
  destruct Hin as [<-|Hin]; [|now apply IH].
  eapply Qle_trans; [|apply run_max_ge_init].
  destruct (Js.gt v a) eqn:E.
  - apply Qle_refl.
  - now apply gt_false.
Qed.

Lemma run_max_mem (l : list Q) : forall a, run_max a l = a \/ In (run_max a l) l.
Proof.
  induction l as [|v l IH]; intros a; [now left|].
  cbn [run_max fold_left]. fold (run_max (if Js.gt v a then v else a) l).
  destruct (IH (if Js.gt v a then v else a)) as [H|H].
  - rewrite H. destruct (Js.gt v a); [right; now left | now left].
  - right. now right.
Qed.

Lemma run_min_le_init (l : list Q) : forall m, run_min m l <= m.
Proof.
  induction l as [|v l IH]; intros m; cbn [run_min fold_left].
  - apply Qle_refl.
  - fold (run_min (if Js.lt v m then v else m) l).
    eapply Qle_trans; [apply IH|].
    destruct (Js.lt v m) eqn:E.
    + apply Qlt_le_weak. now apply lt_true.
    + apply Qle_refl.
Qed.

Lemma run_min_lower (l : list Q) : forall m y, In y l -> run_min m l <= y.
Proof.
  induction l as [|v l IH]; intros m y Hin; [destruct Hin|].
  cbn [run_min fold_left]. fold (run_min (if Js.lt v m then v else m) l).
  destruct Hin as [<-|Hin]; [|now apply IH].
  eapply Qle_trans; [apply run_min_le_init|].
  destruct (Js.lt v m) eqn:E.
  - apply Qle_refl.
  - now apply lt_false.
Qed.

Lemma run_min_mem (l : list Q) : forall m, run_min m l = m \/ In (run_min m l) l.
Proof.
  induction l as [|v l IH]; intros m; [now left|].
  cbn [run_min fold_left]. fold (run_min (if Js.lt v m then v else m) l).
  destruct (IH (if Js.lt v m then v else m)) as [H|H].
  - rewrite H. destruct (Js.lt v m); [right; now left | now left].
  - right. now right.
Qed.

(** From a start value that is below the first element, the running high is
    the maximum of the list. *)
Lemma run_max_is_max (a v : Q) (l : list Q) :
  a < v -> is_max (run_max a (v :: l)) (v :: l).
Proof.
  intros Hlt. split.
  - destruct (run_max_mem (v :: l) a) as [H|H]; [|exact H].
    exfalso. pose proof (run_max_upper (v :: l) a v (or_introl eq_refl)) as Hv.
    rewrite H in Hv. exact (Qlt_not_le _ _ Hlt Hv).
  - intros y Hy. now apply run_max_upper.
Qed.

(** From a start value equal to some element, the running low is the minimum
    of the list. *)
Lemma run_min_is_min (m : Q) (l : list Q) :
  (exists y, In y l /\ y == m) -> is_min (run_min m l) l.
Proof.
  intros (y0 & Hin0 & Heq0). split.
  - destruct (run_min_mem l m) as [H|H].
    + exists y0. split; [exact Hin0|]. rewrite H. exact Heq0.
    + exists (run_min m l). split; [exact H | reflexivity].
  - intros y Hy. now apply run_min_lower.
Qed.

(** ** The ATH passes *)

Section AthPass.

Import Hyperliquid Seed.

Lemma computeWithATH_from_length (l : list point) :
  forall a m pm, List.length (computeWithATH_from a m l pm) = List.length l.
Proof.
  induction l as [|p l IH]; intros a m pm; cbn [computeWithATH_from List.length].
  - reflexivity.
  - now rewrite IH.
Qed.

(** Every output point in terms of the two folds over the prefix that ends
    at it. *)
Lemma computeWithATH_from_nth (l : list point) :
  forall a m pm i o,
    nth_error (computeWithATH_from a m l pm) i = Some o ->
    exists p,
      nth_error l i = Some p /\
      sp_nav o = value p /\
      sp_ath o = run_max a (map value (firstn (S i) l)) /\
      sp_dd o = (if Js.gt (sp_ath o) 0
                 then (value p - sp_ath o) / sp_ath o else 0) /\
      sp_maxDD o =
        run_min m (map sp_dd (firstn (S i) (computeWithATH_from a m l pm))).
Proof.
  induction l as [|p l IH]; intros a m pm i o H.
  - destruct i; discriminate H.
  - destruct i as [|i].
    + cbn [computeWithATH_from nth_error] in H. injection H as <-.
      exists p. cbn [nth_error sp_nav sp_ath sp_dd sp_maxDD].
      repeat split; destruct l; reflexivity.
    + cbn [computeWithATH_from nth_error] in H.
      destruct (IH _ _ _ _ _ H) as (q & Hq & Hnav & Hath & Hdd & Hmax).
      exists q. repeat split; assumption.
Qed.

(** Two consecutive output points: the high does not fall, the low does not
    rise. *)
Lemma computeWithATH_from_step (l : list point) :
  forall a m pm i o o',
    nth_error (computeWithATH_from a m l pm) i = Some o ->
    nth_error (computeWithATH_from a m l pm) (S i) = Some o' ->
    sp_ath o <= sp_ath o' /\ sp_maxDD o' <= sp_maxDD o.
Proof.
  induction l as [|p l IH]; intros a m pm i o o' H H'.
  - destruct i; discriminate H.
  - destruct i as [|i].
    + cbn [computeWithATH_from nth_error] in H, H'. injection H as <-.
      destruct l as [|p' l]; [discriminate H'|].
      cbn [computeWithATH_from nth_error] in H'. injection H' as <-.
      cbn [sp_ath sp_maxDD]. split.
      * destruct (Js.gt (value p') _) eqn:E;
          [apply Qlt_le_weak; now apply gt_true | apply Qle_refl].
      * destruct (Js.lt _ _) eqn:E in |- *;
          [apply Qlt_le_weak; now apply lt_true in E | apply Qle_refl].
    + cbn [computeWithATH_from nth_error] in H, H'. eapply IH; eassumption.
Qed.

(** On positive values the normalizer's loop computes the same drawdowns,
    the same final high and the same final low as the seed's pass. *)
Lemma drawdown_loop_computeWithATH (l : list point) :
  forall a m pm,
    0 < a \/ Forall (fun p => 0 < value p) l ->
    map value (snd (drawdown_loop a l)) =
      map sp_dd (computeWithATH_from a m l pm) /\
    fst (drawdown_loop a l) = run_max a (map value l).
Proof.
  induction l as [|p l IH]; intros a m pm Hpos.
  - split; reflexivity.
  - cbn [drawdown_loop computeWithATH_from map].
    set (a' := if Js.gt (value p) a then value p else a).
    assert (Ha' : 0 < a').
    { subst a'. destruct Hpos as [Ha|Hall].
      - destruct (Js.gt (value p) a) eqn:E; [|exact Ha].
        eapply Qlt_trans; [exact Ha | now apply gt_true].
      - inversion Hall; subst.
        destruct (Js.gt (value p) a) eqn:E; [assumption|].
        eapply Qlt_le_trans; [eassumption | now apply gt_false]. }
    destruct (IH a' (if Js.lt (if Js.gt a' 0 then (value p - a') / a' else 0) m
                     then (if Js.gt a' 0 then (value p - a') / a' else 0)
                     else m) pm (or_introl Ha')) as [IH1 IH2].
    destruct (drawdown_loop a' l) as [ath' dh] eqn:E.
    cbn [fst snd map value sp_dd] in *. split.
    + rewrite (gt_intro _ _ Ha') in IH1 |- *. f_equal. exact IH1.
    + exact IH2.
Qed.

End AthPass.

Section AthClaim.

Import Hyperliquid Seed.

Lemma nth_error_firstn_In {A : Type} (l : list A) :
  forall i x, nth_error l i = Some x -> In x (firstn (S i) l).
Proof.
  induction l as [|a l IH]; intros i x H.
  - destruct i; discriminate H.
  - destruct i as [|i]; cbn [nth_error] in H.
    + injection H as <-. now left.
    + right. now apply IH.
Qed.

Lemma maxDD_loop_run_min (dh : list point) :
  maxDD_loop dh = run_min 0 (map value dh).
Proof.
  unfold maxDD_loop, run_min. generalize 0.
  induction dh as [|d dh IH]; intros m; [reflexivity|].
  cbn [fold_left map]. apply IH.
Qed.

Lemma drawdown_at_high (v : Q) : 0 < v -> (v - v) / v == 0.
Proof.
  intros Hv. setoid_replace (v - v) with 0 by ring.
  unfold Qdiv. ring.
Qed.

(** The first drawdown of a pass over positive values is zero, so every
    prefix of the drawdowns has a zero in it. *)
Lemma first_drawdown_zero (p : point) (l : list point) pm i :
  0 < value p ->
  exists y,
    In y (map sp_dd (firstn (S i) (computeWithATH (p :: l) pm))) /\ y == 0.
Proof.
  intros Hp. unfold computeWithATH. cbn [computeWithATH_from firstn map sp_dd].
  rewrite (gt_intro _ _ Hp). rewrite (gt_intro _ _ Hp).
  eexists. split; [left; reflexivity|]. now apply drawdown_at_high.
Qed.

(** parseVaultData runs its two loops on the positive points of the
    'allTime' series. *)
Lemma parseVaultData_passes (data : vault_details) (parsed : parsed) :
  parseVaultData data = inr parsed ->
  Forall (fun p => 0 < value p) (navHistory parsed) /\
  drawdown_loop 0 (navHistory parsed) = (ath parsed, drawdownHistory parsed) /\
  maxDD parsed = maxDD_loop (drawdownHistory parsed).
Proof.
  unfold parseVaultData. intros H.
  destruct (Js.fromEntries_get (portfolio data) "allTime") as [allTime|];
    [|discriminate H].
  destruct (drawdown_loop 0 (positive_points (accountValueHistory allTime)))
    as [ath' dh] eqn:E.
  injection H as <-. cbn [navHistory ath drawdownHistory maxDD].
  split; [|split; [exact E | reflexivity]].
  apply Forall_forall. intros p Hp. unfold positive_points in Hp.
  apply filter_In in Hp. apply gt_true. exact (proj2 Hp).
Qed.

(** C1.  For every chronological sequence of positive NAV values, the
    seed's pass computeWithATH gives, at every index [i]: the NAV itself;
    as [ath] the maximum of [nav[0..i]]; as [dd] the quotient
    [(nav - ath) / ath], which is at most 0; as [maxDD] the minimum of
    [dd[0..i]].  From one point to the next [ath] does not decrease and
    [maxDD] does not increase.  The normalizer's loops (parseVaultData)
    compute on the same sequence the same drawdowns, the maximum of the
    whole sequence as [ath] and the minimum of all drawdowns as [maxDD].
    parseVaultData runs exactly these loops,
    on the positive points of the payload.
    On NAV [100,110,90,95] the highs are [100,110,110,110], the drawdowns
    are [0, 0, -2/11, -3/22], which print as [0, 0, -0.1818, -0.1364], and
    the last [maxDD] prints as -0.1818. *)
Theorem ath_pass_running_extrema
        (navHistory : list point) (pnlMap : option (list (Z * Q)))
        (Hpos : Forall (fun p => 0 < value p) navHistory) :
  let out := computeWithATH navHistory pnlMap in
  List.length out = List.length navHistory /\
  (forall i o,
      nth_error out i = Some o ->
      nth_error (map value navHistory) i = Some (sp_nav o) /\
      is_max (sp_ath o) (map value (firstn (S i) navHistory)) /\
      sp_dd o == (sp_nav o - sp_ath o) / sp_ath o /\
      sp_dd o <= 0 /\
      is_min (sp_maxDD o) (map sp_dd (firstn (S i) out))) /\
  (forall i o o',
      nth_error out i = Some o ->
      nth_error out (S i) = Some o' ->
      sp_ath o <= sp_ath o' /\ sp_maxDD o' <= sp_maxDD o) /\
  (let (ath, drawdownHistory) := drawdown_loop 0 navHistory in
   map value drawdownHistory = map sp_dd out /\
   (navHistory <> [] ->
    is_max ath (map value navHistory) /\
    is_min (maxDD_loop drawdownHistory) (map value drawdownHistory))) /\
  (forall data parsed,
      parseVaultData data = inr parsed ->
      Forall (fun p => 0 < value p) (Hyperliquid.navHistory parsed) /\
      drawdown_loop 0 (Hyperliquid.navHistory parsed) =
        (Hyperliquid.ath parsed, Hyperliquid.drawdownHistory parsed) /\
      Hyperliquid.maxDD parsed = maxDD_loop (Hyperliquid.drawdownHistory parsed)) /\
  (let ex := computeWithATH example_nav None in
   map sp_ath ex = [100; 110; 110; 110] /\
   Forall2 Qeq (map sp_dd ex) [0; 0; -2 # 11; -3 # 22] /\
   Forall2 Qeq (map (fun o => round4 (sp_dd o)) ex) [0; 0; -0.1818; -0.1364] /\
   Forall2 Qeq (map (fun o => round4 (sp_maxDD o)) ex) [0; 0; -0.1818; -0.1818]).
Proof.
  intros out. split; [apply computeWithATH_from_length|].
  split; [|split; [|split; [|split]]].
  - intros i o Ho.
    destruct (computeWithATH_from_nth _ _ _ _ _ _ Ho)
      as (p & Hp & Hnav & Hath & Hdd & Hmax).
    destruct navHistory as [|p0 l]; [destruct i; discriminate Hp|].
    inversion Hpos as [|? ? Hp0 Hl]; subst.
    assert (Hmaxi : is_max (sp_ath o) (map value (firstn (S i) (p0 :: l)))).
    { rewrite Hath. cbn [firstn map]. now apply run_max_is_max. }
    assert (Hle : value p <= sp_ath o).
    { apply (proj2 Hmaxi). apply in_map. now apply nth_error_firstn_In. }
    assert (Hppos : 0 < value p).
    { eapply (proj1 (Forall_forall _ _) Hpos). eapply nth_error_In, Hp. }
    assert (Hapos : 0 < sp_ath o) by (eapply Qlt_le_trans; eassumption).
    rewrite (gt_intro _ _ Hapos) in Hdd.
    split; [|split; [|split; [|split]]].
    + rewrite Hnav. now apply map_nth_error.
    + exact Hmaxi.
    + rewrite Hdd, Hnav. reflexivity.
    + rewrite Hdd. apply Qle_shift_div_r; [exact Hapos|].
      rewrite Qmult_0_l. lra.
    + rewrite Hmax. apply run_min_is_min.
      destruct (first_drawdown_zero p0 l pnlMap i Hp0) as (y & Hy & Hy0).
      exists y. split; [exact Hy | exact Hy0].
  - intros i o o'. apply computeWithATH_from_step.
  - destruct (drawdown_loop_computeWithATH navHistory 0 0 pnlMap (or_intror Hpos))
      as [Hdds Hfin].
    destruct (drawdown_loop 0 navHistory) as [ath' dh] eqn:E.
    cbn [fst snd] in Hdds, Hfin. split; [exact Hdds|].
    intros Hne. destruct navHistory as [|p0 l]; [congruence|].
    inversion Hpos as [|? ? Hp0 Hl]; subst. split.
    + cbn [map]. now apply run_max_is_max.
    + rewrite maxDD_loop_run_min. apply run_min_is_min. rewrite Hdds.
      destruct (first_drawdown_zero p0 l pnlMap (List.length l) Hp0)
        as (y & Hy & Hy0).
      exists y. split; [|exact Hy0].
      rewrite firstn_all2 in Hy; [exact Hy|].
      unfold computeWithATH. rewrite computeWithATH_from_length.
      cbn [List.length]. lia.
  - intros data parsed. apply parseVaultData_passes.
  - cbv zeta. split; [reflexivity|].
    split; [|split]; repeat constructor; vm_compute; reflexivity.
Qed.

Lemma ath_pass_running_extrema_witness :
  Forall (fun p => 0 < value p) example_nav /\
  forall i o,
    nth_error (computeWithATH example_nav None) i = Some o ->
    is_max (sp_ath o) (map value (firstn (S i) example_nav)).
Proof.
  assert (H : Forall (fun p => 0 < value p) example_nav)
    by (repeat constructor).
  split; [exact H|].
  intros i o Ho.
  exact (proj1 (proj2 (proj1 (proj2 (ath_pass_running_extrema example_nav None H)) i o Ho))).
Defined.

End AthClaim.

(** ** The composite score *)

Section Composite.

Import Hyperliquid.






Ltac table_cases f :=
  unfold in_0_100, f;
  repeat match goal with
         | |- context [if ?b then _ else _] => destruct b
         end; lia.







Lemma oiScore_of_range x : in_0_100 (oiScore_of x).
Proof. table_cases oiScore_of. Qed.

End Composite.

Section CompositeClaim.

Import Hyperliquid.



















End CompositeClaim.

(** ** The trailing signals *)

Section TrailingClaims.

Import Hyperliquid.

Variable Math_sqrt : Q -> Q.

(** C3, as the code has it.  With fewer than two history points
    computeTrailingSignals returns 50 for tvlScore, momentumScore and
    volScore and an object without the key [oiScore]; with two points or
    more the key is always there. *)
Theorem trailing_signals_short_history
        (now : Z) (snapshots : list Row.t) (currentNav : Q) :
  let r := computeTrailingSignals Math_sqrt now snapshots currentNav in
  ((List.length snapshots < 2)%nat ->
   r = {| t_tvlScore := 50; t_momentumScore := 50; t_volScore := 50;
          t_oiScore := None |}) /\
  ((2 <= List.length snapshots)%nat ->
   exists oi, t_oiScore r = Some oi /\ in_0_100 oi).
Proof.
  intros r. subst r. unfold computeTrailingSignals. split; intros Hlen.
  - apply Nat.ltb_lt in Hlen. rewrite Hlen. reflexivity.
  - destruct (List.length snapshots <? 2)%nat eqn:E;
      [apply Nat.ltb_lt in E; lia|].
    eexists. split; [reflexivity|].
    repeat match goal with
           | |- context [if ?b then _ else _] => destruct b
           end;
      first [apply oiScore_of_range | unfold in_0_100; lia].
Qed.

(** The clock matters to the calculator only through the test
    [collected_at >= now - 7 days] on the rows of the history. *)
Lemma computeTrailingSignals_window
      (now1 now2 : Z) (snapshots : list Row.t) (currentNav : Q) :
  (forall s, In s snapshots ->
             (now1 - SEVEN_DAYS_MS <=? Row.collected_at s)%Z =
             (now2 - SEVEN_DAYS_MS <=? Row.collected_at s)%Z) ->
  computeTrailingSignals Math_sqrt now1 snapshots currentNav =
  computeTrailingSignals Math_sqrt now2 snapshots currentNav.
Proof.
  intros Hwin. unfold computeTrailingSignals.
  assert (H7 : filter (fun s => (now1 - SEVEN_DAYS_MS <=? Row.collected_at s)%Z) snapshots =
               filter (fun s => (now2 - SEVEN_DAYS_MS <=? Row.collected_at s)%Z) snapshots).
  { apply filter_ext_in. exact Hwin. }
  assert (HOI : filter (fun s => (now1 - SEVEN_DAYS_MS <=? Row.collected_at s)%Z)
                       (filter has_oi snapshots) =
                filter (fun s => (now2 - SEVEN_DAYS_MS <=? Row.collected_at s)%Z)
                       (filter has_oi snapshots)).
  { apply filter_ext_in. intros s Hs. apply Hwin.
    apply filter_In in Hs. exact (proj1 Hs). }
  rewrite H7, HOI. reflexivity.
Qed.

End TrailingClaims.

Section TrailingExamples.

Import Hyperliquid.

Lemma trailing_signals_short_history_witness :
  (List.length [row_at 1 0 100 None] < 2)%nat /\
  computeTrailingSignals sqrt6 DAY [row_at 1 0 100 None] 100 =
  {| t_tvlScore := 50; t_momentumScore := 50; t_volScore := 50;
     t_oiScore := None |}.
Proof.
  assert (H : (List.length [row_at 1 0 100 None] < 2)%nat) by (cbn; lia).
  split; [exact H|].
  exact (proj1 (trailing_signals_short_history sqrt6 DAY [row_at 1 0 100 None] 100) H).
Defined.

(** C8, as amended.  The sub-scores are a function of the history, the
    current NAV and the clock reading of the call.  momentumScore and
    volScore do not depend on the clock; the whole result is the same for
    two clock readings that put the same rows of the history at or after
    [now - 7 days]. *)
Theorem trailing_signals_clock_window
        (Math_sqrt : Q -> Q) (now1 now2 : Z) (snapshots : list Row.t)
        (currentNav : Q) :
  let r1 := computeTrailingSignals Math_sqrt now1 snapshots currentNav in
  let r2 := computeTrailingSignals Math_sqrt now2 snapshots currentNav in
  t_momentumScore r1 = t_momentumScore r2 /\
  t_volScore r1 = t_volScore r2 /\
  ((forall s, In s snapshots ->
              (now1 - SEVEN_DAYS_MS <=? Row.collected_at s)%Z =
              (now2 - SEVEN_DAYS_MS <=? Row.collected_at s)%Z) ->
   r1 = r2).
Proof.
  intros r1 r2. subst r1 r2. split; [|split].
  - unfold computeTrailingSignals.
    destruct (List.length snapshots <? 2)%nat; reflexivity.
  - unfold computeTrailingSignals.
    destruct (List.length snapshots <? 2)%nat; reflexivity.
  - apply computeTrailingSignals_window.
Qed.

Lemma trailing_signals_clock_window_witness :
  (forall s, In s clock_history ->
             (2 * DAY - SEVEN_DAYS_MS <=? Row.collected_at s)%Z =
             (3 * DAY - SEVEN_DAYS_MS <=? Row.collected_at s)%Z) /\
  computeTrailingSignals sqrt6 (2 * DAY) clock_history 110 =
  computeTrailingSignals sqrt6 (3 * DAY) clock_history 110.
Proof.
  assert (H : forall s, In s clock_history ->
                        (2 * DAY - SEVEN_DAYS_MS <=? Row.collected_at s)%Z =
                        (3 * DAY - SEVEN_DAYS_MS <=? Row.collected_at s)%Z).
  { intros s [<-|[<-|[]]]; reflexivity. }
  split; [exact H|].
  exact (proj2 (proj2 (trailing_signals_clock_window sqrt6 (2 * DAY) (3 * DAY)
                                                     clock_history 110)) H).
Defined.

(** The same history and the same current NAV, read two days and a hundred
    days after the first row: tvlScore is 10 in one call and 55 in the
    other. *)
Lemma trailing_signals_differ_across_clock :
  computeTrailingSignals sqrt6 (2 * DAY) clock_history 110 =
    {| t_tvlScore := 10; t_momentumScore := 10; t_volScore := 50;
       t_oiScore := Some 50%Z |} /\
  computeTrailingSignals sqrt6 (100 * DAY) clock_history 110 =
    {| t_tvlScore := 55; t_momentumScore := 10; t_volScore := 50;
       t_oiScore := Some 50%Z |} /\
  computeTrailingSignals sqrt6 (2 * DAY) clock_history 110 <>
  computeTrailingSignals sqrt6 (100 * DAY) clock_history 110.
Proof.
  assert (H1 : computeTrailingSignals sqrt6 (2 * DAY) clock_history 110 =
               {| t_tvlScore := 10; t_momentumScore := 10; t_volScore := 50;
                  t_oiScore := Some 50%Z |}) by (vm_compute; reflexivity).
  assert (H2 : computeTrailingSignals sqrt6 (100 * DAY) clock_history 110 =
               {| t_tvlScore := 55; t_momentumScore := 10; t_volScore := 50;
                  t_oiScore := Some 50%Z |}) by (vm_compute; reflexivity).
  split; [exact H1|]. split; [exact H2|].
  rewrite H1, H2. discriminate.
Qed.

End TrailingExamples.

(** ** The store: one row per UTC hour *)

Section StoreLemmas.

Import Db.

Lemma hour_taken_spec (sql : store) (t : Z) :
  hour_taken sql t = true <->
  exists r, In r (rows sql) /\ hour_of (Row.collected_at r) = hour_of t.
Proof.
  unfold hour_taken. rewrite existsb_exists. split.
  - intros (r & Hin & Heq). exists r. split; [exact Hin|]. now apply Z.eqb_eq.
  - intros (r & Hin & Heq). exists r. split; [exact Hin|]. now apply Z.eqb_eq.
Qed.

Lemma hour_taken_same_hour (sql : store) (t t' : Z) :
  hour_of t = hour_of t' -> hour_taken sql t = hour_taken sql t'.
Proof.
  intros H. unfold hour_taken. now rewrite H.
Qed.

(** The shape of a write: nothing changes but the sequence, or one row is
    appended. *)
Lemma insertSnapshot_cases (now : Z) (sql : store) (data : Snapshot.t) :
  let t := Js.nullish (Snapshot.collected_at data) now in
  (hour_taken sql t = true /\
   insertSnapshot now sql data =
     ({| rows := rows sql; next_id := next_id sql + 1 |}, None)) \/
  (hour_taken sql t = false /\
   insertSnapshot now sql data =
     ({| rows := rows sql ++ [insert_values now (next_id sql) data];
         next_id := next_id sql + 1 |},
      Some (next_id sql, t))).
Proof.
  intros t. unfold insertSnapshot.
  change (Row.collected_at (insert_values now (next_id sql) data)) with t.
  destruct (hour_taken sql t); [left | right]; split; reflexivity.
Qed.

Lemma insertSnapshot_keeps_rows (now : Z) (sql : store) (data : Snapshot.t) r :
  In r (rows sql) -> In r (rows (fst (insertSnapshot now sql data))).
Proof.
  intros Hin.
  destruct (insertSnapshot_cases now sql data) as [[_ ->]|[_ ->]]; cbn [fst rows].
  - exact Hin.
  - apply in_or_app. now left.
Qed.

Lemma insertSnapshot_keeps_taken (now : Z) (sql : store) (data : Snapshot.t) t :
  hour_taken sql t = true ->
  hour_taken (fst (insertSnapshot now sql data)) t = true.
Proof.
  rewrite !hour_taken_spec. intros (r & Hin & Heq).
  exists r. split; [now apply insertSnapshot_keeps_rows | exact Heq].
Qed.

(** After a write the hour of the snapshot is populated, by this write or by
    an earlier one. *)
Lemma insertSnapshot_takes_hour (now : Z) (sql : store) (data : Snapshot.t) :
  hour_taken (fst (insertSnapshot now sql data))
             (Js.nullish (Snapshot.collected_at data) now) = true.
Proof.
  destruct (insertSnapshot_cases now sql data) as [[Ht ->]|[Ht ->]]; cbn [fst].
  - exact Ht.
  - apply hour_taken_spec. cbn [rows].
    exists (insert_values now (next_id sql) data). split.
    + apply in_or_app. right. now left.
    + reflexivity.
Qed.

Lemma insertSnapshot_keeps_unique (now : Z) (sql : store) (data : Snapshot.t) :
  hours_unique sql -> hours_unique (fst (insertSnapshot now sql data)).
Proof.
  intros Hu.
  destruct (insertSnapshot_cases now sql data) as [[Ht ->]|[Ht ->]]; cbn [fst].
  - exact Hu.
  - unfold hours_unique in *. cbn [rows]. rewrite map_app. cbn [map].
    apply NoDup_app; [exact Hu | repeat constructor; intros [] |].
    intros h Hin [<-|[]]. apply in_map_iff in Hin.
    destruct Hin as (r & Heq & Hin).
    assert (Htaken : hour_taken sql (Js.nullish (Snapshot.collected_at data) now) = true).
    { apply hour_taken_spec. exists r. split; [exact Hin | exact Heq]. }
    congruence.
Qed.

(** Under the unique index a populated hour holds exactly one row. *)
Lemma unique_hour_one_row (l : list Row.t) (t : Z) :
  NoDup (map (fun r => hour_of (Row.collected_at r)) l) ->
  (exists r, In r l /\ hour_of (Row.collected_at r) = hour_of t) ->
  List.length
    (filter (fun r => (hour_of (Row.collected_at r) =? hour_of t)%Z) l) = 1%nat.
Proof.
  induction l as [|x l IH]; intros Hnd (r & Hin & Heq).
  - destruct Hin.
  - cbn [map] in Hnd. inversion Hnd as [|? ? Hnotin Hnd']; subst.
    cbn [filter]. destruct (hour_of (Row.collected_at x) =? hour_of t)%Z eqn:E.
    + apply Z.eqb_eq in E. cbn [List.length]. f_equal.
      destruct (filter _ l) as [|y l'] eqn:F; [reflexivity|exfalso].
      assert (Hy : In y (filter (fun r => (hour_of (Row.collected_at r) =? hour_of t)%Z) l))
        by (rewrite F; now left).
      apply filter_In in Hy. destruct Hy as [Hyin Hyeq]. apply Z.eqb_eq in Hyeq.
      apply Hnotin. rewrite E, <- Hyeq.
      apply in_map with (f := fun r => hour_of (Row.collected_at r)). exact Hyin.
    + apply IH; [exact Hnd'|]. destruct Hin as [<-|Hin].
      * apply Z.eqb_neq in E. congruence.
      * exists r. split; assumption.
Qed.

End StoreLemmas.

(** ** The ingestion cycle *)

Section CycleLemmas.

Import Db Collect.

Variable P : store -> Prop.
Hypothesis P_insert :
  forall now sql data, P sql -> P (fst (insertSnapshot now sql data)).

(** What every write keeps, the gap-fill pass keeps. *)
Lemma gap_loop_keeps navHistory :
  forall now pnlMap ath maxDD sql gapFilled,
    P sql -> P (fst (gap_loop now pnlMap ath maxDD navHistory sql gapFilled)).
Proof.
  induction navHistory as [|point rest IH]; intros now pnlMap ath maxDD sql g Hs.
  - exact Hs.
  - cbn [gap_loop].
    match goal with
    | |- context [insertSnapshot now sql ?d] =>
        pose proof (P_insert now sql d Hs) as Hs';
        destruct (insertSnapshot now sql d) as [sql' ins]
    end.
    cbn [fst] in Hs'. apply IH. exact Hs'.
Qed.

Lemma gap_fill_keeps now raw sql : P sql -> P (fst (gap_fill now raw sql)).
Proof.
  intros Hs. unfold gap_fill. cbn [fold_left].
  destruct (Js.fromEntries_get _ "month") as [[nav1 pnl1]|].
  - pose proof (gap_loop_keeps nav1 now (map (fun p => (Hyperliquid.time p, Hyperliquid.value p)) pnl1)
                               0 0 sql 0%Z Hs) as H1.
    destruct (gap_loop _ _ _ _ nav1 sql 0%Z) as [sql1 g1]. cbn [fst] in H1.
    destruct (Js.fromEntries_get _ "week") as [[nav2 pnl2]|]; [|exact H1].
    apply gap_loop_keeps. exact H1.
  - destruct (Js.fromEntries_get _ "week") as [[nav2 pnl2]|]; [|exact Hs].
    apply gap_loop_keeps. exact Hs.
Qed.

End CycleLemmas.

Section CycleClaim.

Import Db Collect.

Variable Math_sqrt : Q -> Q.

(** One accepted cycle whose payload parses: the answer is 200 with
    [success: true]; [skipped] tells whether the hour of the clock was
    populated before; afterwards it is populated; the cycle removes no
    populated hour and keeps the unique index. *)
Lemma handler_cycle now env req raw parsed market sql :
  accepted env req ->
  Hyperliquid.parseVaultData raw = inr parsed ->
  exists sql' b,
    handler Math_sqrt now env req (inr raw) market sql = (sql', Json 200 b) /\
    success b = true /\
    skipped b = hour_taken sql now /\
    hour_taken sql' now = true /\
    (forall t, hour_taken sql t = true -> hour_taken sql' t = true) /\
    (hours_unique sql -> hours_unique sql').
Proof.
  intros (Hm & Ha & Hd) Hparse. unfold handler.
  rewrite Hm, Ha, Hd, Hparse. cbn [negb].
  set (snap := build_snapshot Math_sqrt now parsed _ _).
  pose proof (insertSnapshot_takes_hour now sql snap) as Htakes.
  pose proof (fun t => insertSnapshot_keeps_taken now sql snap t) as Hkeeps.
  pose proof (insertSnapshot_keeps_unique now sql snap) as Huniq.
  change (Js.nullish (Snapshot.collected_at snap) now) with now in Htakes.
  assert (Hskip : match snd (insertSnapshot now sql snap) with
                  | Some _ => false
                  | None => true
                  end = hour_taken sql now).
  { destruct (insertSnapshot_cases now sql snap) as [[Ht ->]|[Ht ->]];
      cbn [snd]; symmetry; exact Ht. }
  destruct (insertSnapshot now sql snap) as [sql1 inserted].
  cbn [fst snd] in *.
  destruct ((now / HOUR_MS) mod 24 =? 0)%Z.
  - pose proof (gap_fill_keeps (fun s => hour_taken s now = true)
                  (fun n s d => insertSnapshot_keeps_taken n s d now)
                  now raw sql1 Htakes) as G1.
    pose proof (fun t => gap_fill_keeps (fun s => hour_taken s t = true)
                  (fun n s d => insertSnapshot_keeps_taken n s d t)
                  now raw sql1) as G2.
    pose proof (gap_fill_keeps hours_unique insertSnapshot_keeps_unique
                  now raw sql1) as G3.
    destruct (gap_fill now raw sql1) as [sql2 gapFilled]. cbn [fst] in *.
    eexists. eexists. split; [reflexivity|]. cbn [success skipped].
    repeat split; auto.
  - eexists. eexists. split; [reflexivity|]. cbn [success skipped].
    repeat split; auto.
Qed.

End CycleClaim.

Section IdempotentWrite.

Import Db Collect.

(** C4.  Take a store that respects the unique index and two snapshots whose
    timestamps truncate to the same UTC hour, and write both.  The second
    write returns null and leaves the rows as the first write left them; the
    hour holds exactly one row; from the empty store the table holds exactly
    one row.  Two accepted ingestion cycles whose clocks fall in the same
    hour both answer 200 with [success: true], the second one with
    [skipped: true], and the hour holds exactly one row afterwards. *)
Theorem same_hour_second_write_skipped
        (Math_sqrt : Q -> Q) (now1 now2 : Z) (sql : store)
        (s1 s2 : Snapshot.t)
        (Hunique : hours_unique sql)
        (Hhour : hour_of (Js.nullish (Snapshot.collected_at s1) now1) =
                 hour_of (Js.nullish (Snapshot.collected_at s2) now2)) :
  let w1 := insertSnapshot now1 sql s1 in
  let w2 := insertSnapshot now2 (fst w1) s2 in
  snd w2 = None /\
  rows (fst w2) = rows (fst w1) /\
  List.length
    (rows_in_hour (fst w2) (Js.nullish (Snapshot.collected_at s1) now1)) = 1%nat /\
  (rows sql = [] -> List.length (rows (fst w2)) = 1%nat) /\
  (forall env req1 req2 raw1 raw2 p1 p2 market1 market2 t1 t2,
      accepted env req1 -> accepted env req2 ->
      Hyperliquid.parseVaultData raw1 = inr p1 ->
      Hyperliquid.parseVaultData raw2 = inr p2 ->
      hour_of t1 = hour_of t2 ->
      exists sql1 b1 sql2 b2,
        handler Math_sqrt t1 env req1 (inr raw1) market1 sql = (sql1, Json 200 b1) /\
        handler Math_sqrt t2 env req2 (inr raw2) market2 sql1 = (sql2, Json 200 b2) /\
        success b1 = true /\
        success b2 = true /\
        skipped b2 = true /\
        List.length (rows_in_hour sql2 t1) = 1%nat).
Proof.
  intros w1 w2.
  set (h1 := Js.nullish (Snapshot.collected_at s1) now1) in *.
  set (h2 := Js.nullish (Snapshot.collected_at s2) now2) in *.
  assert (Htaken : hour_taken (fst w1) h2 = true).
  { rewrite <- (hour_taken_same_hour (fst w1) h1 h2 Hhour).
    apply insertSnapshot_takes_hour. }
  assert (Hw2 : w2 = ({| rows := rows (fst w1); next_id := next_id (fst w1) + 1 |}, None)).
  { subst w2. destruct (insertSnapshot_cases now2 (fst w1) s2) as [[_ H]|[H _]].
    - exact H.
    - fold h2 in H. congruence. }
  assert (Hone : List.length (rows_in_hour (fst w2) h1) = 1%nat).
  { rewrite Hw2. cbn [fst]. unfold rows_in_hour. cbn [rows].
    apply unique_hour_one_row.
    - apply (insertSnapshot_keeps_unique now1 sql s1 Hunique).
    - apply hour_taken_spec. apply insertSnapshot_takes_hour. }
  split; [now rewrite Hw2|]. split; [now rewrite Hw2|]. split; [exact Hone|].
  split.
  - intros Hempty. rewrite Hw2. cbn [fst rows]. subst w1.
    destruct (insertSnapshot_cases now1 sql s1) as [[Ht _]|[_ ->]].
    + unfold hour_taken in Ht. rewrite Hempty in Ht. discriminate Ht.
    + cbn [fst rows]. rewrite Hempty. reflexivity.
  - intros env req1 req2 raw1 raw2 p1 p2 market1 market2 t1 t2
           Hacc1 Hacc2 Hp1 Hp2 Ht.
    destruct (handler_cycle Math_sqrt t1 env req1 raw1 p1 market1 sql Hacc1 Hp1)
      as (sql1 & b1 & Hrun1 & Hs1 & _ & Htk1 & _ & Hu1).
    destruct (handler_cycle Math_sqrt t2 env req2 raw2 p2 market2 sql1 Hacc2 Hp2)
      as (sql2 & b2 & Hrun2 & Hs2 & Hsk2 & Htk2 & Hkeep2 & Hu2).
    exists sql1, b1, sql2, b2.
    split; [exact Hrun1|]. split; [exact Hrun2|].
    split; [exact Hs1|]. split; [exact Hs2|]. split.
    + rewrite Hsk2. rewrite <- (hour_taken_same_hour sql1 t1 t2 Ht). exact Htk1.
    + apply unique_hour_one_row.
      * apply Hu2, Hu1, Hunique.
      * apply hour_taken_spec. apply Hkeep2. exact Htk1.
Qed.

Lemma same_hour_second_write_skipped_witness :
  hours_unique empty_store /\
  hour_of 1000 = hour_of 2000 /\
  snd (insertSnapshot 5000
         (fst (insertSnapshot 5000 empty_store (snapshot_at 1000 100)))
         (snapshot_at 2000 101)) = None.
Proof.
  assert (Hu : hours_unique empty_store) by constructor.
  assert (Hh : hour_of (Js.nullish (Snapshot.collected_at (snapshot_at 1000 100)) 5000%Z) =
               hour_of (Js.nullish (Snapshot.collected_at (snapshot_at 2000 101)) 5000%Z))
    by reflexivity.
  split; [exact Hu|]. split; [reflexivity|].
  exact (proj1 (same_hour_second_write_skipped sqrt6 5000 5000 empty_store
                  (snapshot_at 1000 100) (snapshot_at 2000 101) Hu Hh)).
Defined.

End IdempotentWrite.

(** ** What a write persists *)

Section PersistedRow.

Import Db Collect.

(** C5, as the code has it.  A write into a free hour appends one row that
    carries the snapshot's timestamp, NAV, PnL, APR, deposit flag, high and
    drawdowns, but NULL in funding_rate, open_interest, volume_24h,
    funding_score and oi_score, whatever the snapshot carries there; the
    snapshot that the ingestion handler builds always carries all five.  The
    snapshot [snapshot_at 1000 100] has funding rate 0.0001, open interest
    5000000, volume 7000000, funding score 60 and OI score 70, and its row
    has none of them. *)
Theorem insert_leaves_market_context_null
        (now : Z) (sql : store) (data : Snapshot.t)
        (Hfree : hour_taken sql (Js.nullish (Snapshot.collected_at data) now) = false) :
  (exists row,
      rows (fst (insertSnapshot now sql data)) = rows sql ++ [row] /\
      Row.collected_at row = Js.nullish (Snapshot.collected_at data) now /\
      Row.nav row = Snapshot.nav data /\
      Row.pnl row = Snapshot.pnl data /\
      Row.apr row = Snapshot.apr data /\
      Row.allow_deposits row = Snapshot.allow_deposits data /\
      Row.nav_ath row = Snapshot.nav_ath data /\
      Row.drawdown_pct row = Snapshot.drawdown_pct data /\
      Row.max_drawdown row = Snapshot.max_drawdown data /\
      Row.funding_rate row = None /\
      Row.open_interest row = None /\
      Row.volume_24h row = None /\
      Row.funding_score row = None /\
      Row.oi_score row = None) /\
  (forall Math_sqrt t parsed marketCtx trailing,
      let s := build_snapshot Math_sqrt t parsed marketCtx trailing in
      Snapshot.funding_rate s = Some (fundingRate marketCtx) /\
      Snapshot.open_interest s = Some (openInterest marketCtx) /\
      Snapshot.volume_24h s = Some (volume24h marketCtx) /\
      Snapshot.funding_score s <> None /\
      Snapshot.oi_score s <> None) /\
  (let row := insert_values 5000 1 (snapshot_at 1000 100) in
   rows (fst (insertSnapshot 5000 empty_store (snapshot_at 1000 100))) = [row] /\
   Snapshot.funding_rate (snapshot_at 1000 100) = Some 0.0001 /\
   Row.funding_rate row = None /\
   Row.open_interest row = None /\
   Row.volume_24h row = None /\
   Row.funding_score row = None /\
   Row.oi_score row = None).
Proof.
  split; [|split].
  - destruct (insertSnapshot_cases now sql data) as [[Ht _]|[_ ->]];
      [congruence|].
    exists (insert_values now (next_id sql) data). cbn [fst rows].
    repeat split.
  - intros Math_sqrt t parsed marketCtx trailing s. subst s.
    cbn [build_snapshot Snapshot.funding_rate Snapshot.open_interest
         Snapshot.volume_24h Snapshot.funding_score Snapshot.oi_score].
    repeat split; discriminate.
  - cbv zeta. repeat split.
Qed.

Lemma insert_leaves_market_context_null_witness :
  hour_taken empty_store (Js.nullish (Snapshot.collected_at (snapshot_at 1000 100)) 5000%Z) = false /\
  exists row,
    rows (fst (insertSnapshot 5000 empty_store (snapshot_at 1000 100))) =
      rows empty_store ++ [row] /\
    Row.funding_rate row = None.
Proof.
  assert (H : hour_taken empty_store
                (Js.nullish (Snapshot.collected_at (snapshot_at 1000 100)) 5000%Z) = false)
    by reflexivity.
  split; [exact H|].
  destruct (proj1 (insert_leaves_market_context_null 5000 empty_store
                     (snapshot_at 1000 100) H)) as (row & Hrows & Hrest).
  exists row. split; [exact Hrows|]. apply Hrest.
Defined.




End PersistedRow.

(** ** Sub-scores without data *)

Section NeutralDefaults.

Import Hyperliquid.

(** C7, as the code has it.  computeSignalScores takes 50 for a trailing
    score that is missing (tvl, momentum, vol, oi).  A missing APR and a
    missing funding rate are read as 0 and scored by the tables: aprScore is
    90 and fundingScore is 45, not 50.  The seed's score backfill does score
    a missing APR 50 and always scores funding 50. *)
Theorem missing_apr_and_funding_scores (a : analytics) :
  let s := computeSignalScores a in
  (a_tvlScore a = None -> tvlScore s = 50%Z) /\
  (a_momentumScore a = None -> momentumScore s = 50%Z) /\
  (a_volScore a = None -> volScore s = 50%Z) /\
  (a_oiScore a = None -> oiScore s = 50%Z) /\
  (a_apr a = None -> aprScore s = 90%Z) /\
  (a_fundingRate a = None -> fundingScore s = 45%Z) /\
  (forall Math_sqrt allSnaps row s',
      Seed.score_row Math_sqrt allSnaps row = Some s' ->
      fundingScore s' = 50%Z /\ (Row.apr row = None -> aprScore s' = 50%Z)).
Proof.
  intros s. subst s.
  cbn [computeSignalScores tvlScore momentumScore volScore oiScore aprScore
       fundingScore].
  repeat split.
  - intros ->. reflexivity.
  - intros ->. reflexivity.
  - intros ->. reflexivity.
  - intros ->. reflexivity.
  - intros ->. reflexivity.
  - intros ->. reflexivity.
  - unfold Seed.score_row in H. destruct (_ <? 2)%nat; [discriminate H|].
    injection H as <-. reflexivity.
  - intros Hapr. unfold Seed.score_row in H. destruct (_ <? 2)%nat; [discriminate H|].
    injection H as <-. cbn [aprScore]. rewrite Hapr. reflexivity.
Qed.

Lemma missing_apr_and_funding_scores_witness :
  a_apr bare_analytics = None /\
  a_fundingRate bare_analytics = None /\
  aprScore (computeSignalScores bare_analytics) = 90%Z /\
  fundingScore (computeSignalScores bare_analytics) = 45%Z.
Proof.
  pose proof (missing_apr_and_funding_scores bare_analytics) as H.
  cbv zeta in H. destruct H as (_ & _ & _ & _ & Hapr & Hfund & _).
  split; [reflexivity|]. split; [reflexivity|].
  split; [exact (Hapr eq_refl) | exact (Hfund eq_refl)].
Defined.

End NeutralDefaults.

(** ** Range reads *)

Section ReadLemmas.

Import Db.

Lemma insert_by_time_length r l :
  List.length (insert_by_time r l) = S (List.length l).
Proof.
  induction l as [|x l IH]; cbn [insert_by_time List.length]; [reflexivity|].
  destruct (_ <? _)%Z; cbn [List.length]; [reflexivity | now rewrite IH].
Qed.

Lemma order_by_time_length l : List.length (order_by_time l) = List.length l.
Proof.
  induction l as [|x l IH]; cbn [order_by_time fold_right List.length];
    [reflexivity|].
  fold (order_by_time l). now rewrite insert_by_time_length, IH.
Qed.

Lemma insert_by_time_In r l x : In x (insert_by_time r l) <-> x = r \/ In x l.
Proof.
  induction l as [|y l IH]; cbn [insert_by_time].
  - cbn [In]. intuition congruence.
  - destruct (_ <? _)%Z; cbn [In] in *; [intuition congruence|].
    rewrite IH. intuition congruence.
Qed.

Lemma order_by_time_In l x : In x (order_by_time l) <-> In x l.
Proof.
  induction l as [|y l IH]; cbn [order_by_time fold_right]; [reflexivity|].
  fold (order_by_time l). rewrite insert_by_time_In, IH. cbn [In].
  intuition congruence.
Qed.

Lemma filter_length_mono {A : Type} (f g : A -> bool) (l : list A) :
  (forall x, f x = true -> g x = true) ->
  (List.length (filter f l) <= List.length (filter g l))%nat.
Proof.
  intros Hfg. induction l as [|x l IH]; cbn [filter]; [lia|].
  destruct (f x) eqn:E.
  - rewrite (Hfg x E). cbn [List.length]. lia.
  - destruct (g x); cbn [List.length]; lia.
Qed.

(** The days of the groups: each day of a row, once. *)
Lemma days_of_In l k :
  In k (days_of l) <-> exists r, In r l /\ day_of (Row.collected_at r) = k.
Proof.
  unfold days_of. rewrite nodup_In, in_map_iff. split.
  - intros (r & Heq & Hin). exists r. split; [|exact Heq].
    now apply order_by_time_In.
  - intros (r & Hin & Heq). exists r. split; [exact Heq|].
    now apply order_by_time_In.
Qed.

Lemma days_of_NoDup l : NoDup (days_of l).
Proof. apply NoDup_nodup. Qed.

Lemma days_of_incl_length l l' :
  (forall r, In r l -> In r l') ->
  (List.length (days_of l) <= List.length (days_of l'))%nat.
Proof.
  intros Hincl. apply NoDup_incl_length; [apply days_of_NoDup|].
  intros k Hk. apply days_of_In in Hk. destruct Hk as (r & Hin & Heq).
  apply days_of_In. exists r. split; [now apply Hincl | exact Heq].
Qed.

(** The number of rows of a read with a resolution other than 'auto', in
    terms of the rows that pass the cutoff. *)
Lemma count_getSnapshots now sql range resolution :
  resolution <> "auto"%string ->
  count (getSnapshots now sql range resolution) =
  if String.eqb resolution "daily"
  then List.length (days_of (where_cutoff (cutoff_of now range) (rows sql)))
  else List.length (where_cutoff (cutoff_of now range) (rows sql)).
Proof.
  intros Hres. apply String.eqb_neq in Hres.
  unfold getSnapshots. rewrite Hres.
  destruct (String.eqb resolution "daily"); cbn [count].
  - unfold select_daily. now rewrite length_map.
  - apply order_by_time_length.
Qed.

(** A later cutoff keeps fewer rows, and fewer days. *)
Lemma cutoff_monotone (c1 c2 : Z) (l : list Row.t) (daily : bool) :
  (c1 <= c2)%Z ->
  ((if daily then List.length (days_of (where_cutoff (Some c2) l))
    else List.length (where_cutoff (Some c2) l))
   <= (if daily then List.length (days_of (where_cutoff (Some c1) l))
       else List.length (where_cutoff (Some c1) l)))%nat.
Proof.
  intros Hc. destruct daily; cbn [where_cutoff].
  - apply days_of_incl_length. intros r Hr. apply filter_In in Hr.
    apply filter_In. split; [exact (proj1 Hr)|].
    destruct Hr as [_ Hr]. apply Z.leb_le in Hr. apply Z.leb_le. lia.
  - apply filter_length_mono. intros r Hr.
    apply Z.leb_le in Hr. apply Z.leb_le. lia.
Qed.

Lemma cutoff_none_monotone (c : Z) (l : list Row.t) (daily : bool) :
  ((if daily then List.length (days_of (where_cutoff (Some c) l))
    else List.length (where_cutoff (Some c) l))
   <= (if daily then List.length (days_of (where_cutoff None l))
       else List.length (where_cutoff None l)))%nat.
Proof.
  destruct daily; cbn [where_cutoff].
  - apply days_of_incl_length. intros r Hr. apply filter_In in Hr. tauto.
  - apply List.filter_length_le.
Qed.

End ReadLemmas.

Section RangeClaim.

Import Db.
Local Open Scope string_scope.

(** C9, as amended.  For one clock reading, one store and one resolution
    other than 'auto' (hourly, daily), a longer range returns at least as
    many rows: 24h <= 7d <= 30d <= 90d <= 1y <= all, and so
    count(all) >= count(7d) >= count(24h).  No span of history is needed. *)
Theorem range_count_monotone
        (now : Z) (sql : store) (resolution : string)
        (Hres : resolution <> "auto"%string) :
  let n := fun range => count (getSnapshots now sql range resolution) in
  (n "24h" <= n "7d")%nat /\
  (n "7d" <= n "30d")%nat /\
  (n "30d" <= n "90d")%nat /\
  (n "90d" <= n "1y")%nat /\
  (n "1y" <= n "all")%nat /\
  (n "7d" <= n "all")%nat.
Proof.
  intros n. subst n. cbv beta.
  rewrite !(count_getSnapshots now sql _ resolution Hres).
  change (cutoff_of now "24h") with (Some (now - 24 * 60 * 60 * 1000)%Z).
  change (cutoff_of now "7d") with (Some (now - 7 * 24 * 60 * 60 * 1000)%Z).
  change (cutoff_of now "30d") with (Some (now - 30 * 24 * 60 * 60 * 1000)%Z).
  change (cutoff_of now "90d") with (Some (now - 90 * 24 * 60 * 60 * 1000)%Z).
  change (cutoff_of now "1y") with (Some (now - 365 * 24 * 60 * 60 * 1000)%Z).
  change (cutoff_of now "all") with (@None Z).
  repeat split;
    first [apply cutoff_none_monotone | apply cutoff_monotone; lia].
Qed.

Lemma range_count_monotone_witness :
  "hourly"%string <> "auto"%string /\
  (count (getSnapshots (9 * DAY + 3 * HOUR) nine_day_store "24h" "hourly")
   <= count (getSnapshots (9 * DAY + 3 * HOUR) nine_day_store "7d" "hourly"))%nat.
Proof.
  assert (H : "hourly"%string <> "auto"%string) by discriminate.
  split; [exact H|].
  exact (proj1 (range_count_monotone (9 * DAY + 3 * HOUR) nine_day_store "hourly" H)).
Defined.

(** With resolution 'auto' the range 'all' is read daily and the range '7d'
    hourly: on the nine-day store, three hours into day 9, 'all' returns two
    rows and '7d' returns three. *)
Lemma auto_resolution_all_below_7d :
  count (getSnapshots (9 * DAY + 3 * HOUR) nine_day_store "all" "auto") = 2%nat /\
  count (getSnapshots (9 * DAY + 3 * HOUR) nine_day_store "7d" "auto") = 3%nat /\
  ~ (count (getSnapshots (9 * DAY + 3 * HOUR) nine_day_store "all" "auto")
     >= count (getSnapshots (9 * DAY + 3 * HOUR) nine_day_store "7d" "auto"))%nat.
Proof.
  assert (H1 : count (getSnapshots (9 * DAY + 3 * HOUR) nine_day_store "all" "auto") = 2%nat)
    by (vm_compute; reflexivity).
  assert (H2 : count (getSnapshots (9 * DAY + 3 * HOUR) nine_day_store "7d" "auto") = 3%nat)
    by (vm_compute; reflexivity).
  split; [exact H1|]. split; [exact H2|]. rewrite H1, H2. lia.
Qed.

End RangeClaim.

(** ** Daily aggregation *)

Section AggregateLemmas.

Import Db.

Lemma fold_left_Qplus_total (l : list Q) :
  forall a, fold_left Qplus l a == a + total l.
Proof.
  induction l as [|v l IH]; intros a; cbn [fold_left total].
  - ring.
  - rewrite IH. ring.
Qed.

Lemma sum_total (l : list Q) : Js.sum l == total l.
Proof.
  unfold Js.sum. rewrite fold_left_Qplus_total. ring.
Qed.

Lemma count_nonzero {A : Type} (v : A) (vs : list A) :
  ~ inject_Z (Z.of_nat (List.length (v :: vs))) == 0.
Proof.
  intros H. unfold Qeq in H. cbn [Qnum Qden inject_Z List.length] in H. lia.
Qed.

Lemma AVG_spec (l : list (option Q)) : avg_of (AVG l) (non_null l).
Proof.
  unfold AVG, avg_of. destruct (non_null l) as [|v vs]; [reflexivity|].
  eexists. split; [reflexivity|]. unfold is_average.
  rewrite sum_total. field. apply count_nonzero.
Qed.

Lemma MAX_spec (l : list (option Q)) :
  non_null l <> [] -> max_of (MAX l) (non_null l).
Proof.
  unfold MAX, max_of. destruct (non_null l) as [|v vs]; [congruence|].
  intros _. eexists. split; [reflexivity|].
  change (fold_left (fun m x => if Js.gt x m then x else m) vs v)
    with (run_max v vs).
  split.
  - destruct (run_max_mem vs v) as [->|H]; [now left | now right].
  - intros y [<-|Hy]; [apply run_max_ge_init | now apply run_max_upper].
Qed.

Lemma MIN_spec (l : list (option Q)) :
  non_null l <> [] -> min_of (MIN l) (non_null l).
Proof.
  unfold MIN, min_of. destruct (non_null l) as [|v vs]; [congruence|].
  intros _. eexists. split; [reflexivity|].
  change (fold_left (fun m x => if Js.lt x m then x else m) vs v)
    with (run_min v vs).
  split.
  - exists (run_min v vs). split; [|reflexivity].
    destruct (run_min_mem vs v) as [->|H]; [now left | now right].
  - intros y [<-|Hy]; [apply run_min_le_init | now apply run_min_lower].
Qed.

Lemma to_integer_nearest (q : Q) :
  inject_Z (to_integer q) - (1 # 2) <= q /\ q <= inject_Z (to_integer q) + (1 # 2).
Proof.
  unfold to_integer. destruct (Qle_bool 0 q).
  - pose proof (Qfloor_le (q + (1 # 2))) as Hlo.
    pose proof (Qlt_floor (q + (1 # 2))) as Hhi.
    rewrite inject_Z_plus in Hhi. change (inject_Z 1) with 1 in Hhi.
    split; lra.
  - pose proof (Qle_ceiling (q - (1 # 2))) as Hlo.
    pose proof (Qceiling_lt (q - (1 # 2))) as Hhi.
    replace (Qceiling (q - (1 # 2)) - 1)%Z
      with (Qceiling (q - (1 # 2)) + -1)%Z in Hhi by lia.
    rewrite inject_Z_plus in Hhi.
    change (inject_Z (-1)) with (- (1)) in Hhi.
    split; lra.
Qed.

Lemma non_null_inject (l : list (option Z)) :
  non_null (map (option_map inject_Z) l) = map inject_Z (non_null l).
Proof.
  induction l as [|[z|] l IH]; cbn [map non_null flat_map option_map app];
    [reflexivity | | exact IH].
  f_equal. exact IH.
Qed.

Lemma AVG_integer_spec (l : list (option Z)) :
  rounded_avg_of (AVG_integer l) (non_null l).
Proof.
  unfold AVG_integer, rounded_avg_of.
  pose proof (AVG_spec (map (option_map inject_Z) l)) as H.
  rewrite non_null_inject in H. unfold avg_of in H.
  destruct (non_null l) as [|z zs]; cbn [map] in H.
  - rewrite H. reflexivity.
  - destruct H as (a & -> & Ha). cbn [option_map].
    exists (to_integer a), a. split; [reflexivity|]. split; [exact Ha|].
    apply to_integer_nearest.
Qed.

Lemma non_null_Some {A B : Type} (f : A -> B) (g : list A) :
  non_null (map (fun r => Some (f r)) g) = map f g.
Proof.
  induction g as [|r g IH]; cbn [map non_null flat_map app]; [reflexivity|].
  f_equal. exact IH.
Qed.

Lemma bool_and_Some {A : Type} (f : A -> bool) (g : list A) :
  g <> [] -> bool_and (map (fun r => Some (f r)) g) = Some (forallb f g).
Proof.
  intros Hg. unfold bool_and. rewrite non_null_Some.
  destruct g as [|r g]; [congruence|]. cbn [map]. f_equal.
  change (f r :: map f g) with (map f (r :: g)).
  generalize (r :: g). intros l. induction l as [|x l IH]; [reflexivity|].
  cbn [map forallb]. now rewrite IH.
Qed.

End AggregateLemmas.

Section DailyClaim.

Import Db.
Local Open Scope string_scope.

Lemma group_of_day_nonempty l k : In k (days_of l) -> group_of k l <> [].
Proof.
  intros Hk. apply days_of_In in Hk. destruct Hk as (r & Hin & Heq).
  assert (H : In r (group_of k l)).
  { unfold group_of. apply filter_In. split; [exact Hin|]. now apply Z.eqb_eq. }
  intros E. rewrite E in H. destruct H.
Qed.

Lemma map_nonempty {A B : Type} (f : A -> B) (l : list A) :
  l <> [] -> map f l <> [].
Proof. destruct l; [congruence | discriminate]. Qed.

Lemma avg_of_column (f : Row.t -> Q) (g : list Row.t) :
  avg_of (AVG (map (fun r => Some (f r)) g)) (map f g).
Proof.
  rewrite <- (non_null_Some f g). apply AVG_spec.
Qed.

(** C6, as amended.  A read with resolution 'daily' returns one row for each
    UTC day that has a stored row in range, and no other row.  In the row of
    a day, over the day's rows in range: nav and drawdown_pct are the
    averages; pnl, apr and vlm are the averages of the values that are not
    NULL (NULL when there is none); allow_deposits is the logical AND;
    nav_ath is the maximum and max_drawdown the minimum; each of the six
    scores composite, dd, tvl, momentum, vol, apr is the average of the
    scores that are not NULL, rounded to a nearest integer (NULL when there
    is none).  For the day with hourly NAVs 100, 102, 98 the daily nav is
    100, nav_ath is 102, the largest of the three, and max_drawdown is
    -4/102, the lowest of the three. *)
Theorem daily_read_aggregates (now : Z) (sql : store) (range : string) :
  let l := where_cutoff (cutoff_of now range) (rows sql) in
  exists days : list day_row,
    getSnapshots now sql range "daily" = Daily days /\
    NoDup (map d_collected_at days) /\
    (forall r, In r l ->
               exists d, In d days /\
                         d_collected_at d = (day_of (Row.collected_at r) * DAY_MS)%Z) /\
    (forall d, In d days ->
       exists k,
         d_collected_at d = (k * DAY_MS)%Z /\
         let g := group_of k l in
         g <> [] /\
         (forall r, In r g <-> In r l /\ day_of (Row.collected_at r) = k) /\
         avg_of (d_nav d) (map Row.nav g) /\
         avg_of (d_pnl d) (non_null (map Row.pnl g)) /\
         avg_of (d_apr d) (non_null (map Row.apr g)) /\
         avg_of (d_vlm d) (non_null (map Row.vlm g)) /\
         avg_of (d_drawdown_pct d) (map Row.drawdown_pct g) /\
         d_allow_deposits d = Some (forallb Row.allow_deposits g) /\
         max_of (d_nav_ath d) (map Row.nav_ath g) /\
         min_of (d_max_drawdown d) (map Row.max_drawdown g) /\
         rounded_avg_of (d_composite_score d) (non_null (map Row.composite_score g)) /\
         rounded_avg_of (d_dd_score d) (non_null (map Row.dd_score g)) /\
         rounded_avg_of (d_tvl_score d) (non_null (map Row.tvl_score g)) /\
         rounded_avg_of (d_momentum_score d) (non_null (map Row.momentum_score g)) /\
         rounded_avg_of (d_vol_score d) (non_null (map Row.vol_score g)) /\
         rounded_avg_of (d_apr_score d) (non_null (map Row.apr_score g))) /\
    (exists d,
        getSnapshots (3 * HOUR) three_hour_store "all" "daily" = Daily [d] /\
        map Row.nav (rows three_hour_store) = [100; 102; 98] /\
        option_map Qred (d_nav d) = Some 100 /\
        map Row.nav_ath (rows three_hour_store) = [100; 102; 102] /\
        d_nav_ath d = Some 102 /\
        map Row.max_drawdown (rows three_hour_store) = [0; 0; (98 - 102) / 102] /\
        d_max_drawdown d = Some ((98 - 102) / 102)).
Proof.
  intros l. exists (select_daily l). split; [reflexivity|].
  split; [|split; [|split]].
  - unfold select_daily. rewrite map_map. cbn [aggregate d_collected_at].
    pose proof (days_of_NoDup l) as Hnd.
    induction (days_of l) as [|k ks IH]; [constructor|].
    inversion Hnd as [|? ? Hk Hks]; subst. cbn [map]. constructor; [|now apply IH].
    intros Hin. apply in_map_iff in Hin. destruct Hin as (k' & Heq & Hk').
    unfold DAY_MS in Heq. assert (k' = k) by lia. subst k'. contradiction.
  - intros r Hr. exists (aggregate (day_of (Row.collected_at r))
                                   (group_of (day_of (Row.collected_at r)) l)).
    split; [|reflexivity].
    unfold select_daily. apply in_map_iff.
    exists (day_of (Row.collected_at r)). split; [reflexivity|].
    apply days_of_In. exists r. split; [exact Hr | reflexivity].
  - intros d Hd. unfold select_daily in Hd. apply in_map_iff in Hd.
    destruct Hd as (k & <- & Hk). exists k. split; [reflexivity|].
    intros g. pose proof (group_of_day_nonempty l k Hk) as Hg. fold g in Hg.
    cbn [aggregate d_nav d_pnl d_apr d_vlm d_drawdown_pct d_allow_deposits
         d_nav_ath d_max_drawdown d_composite_score d_dd_score d_tvl_score
         d_momentum_score d_vol_score d_apr_score].
    fold g.
    split; [exact Hg|]. split.
    { intros r. subst g. unfold group_of. rewrite filter_In, Z.eqb_eq. tauto. }
    split; [apply avg_of_column|].
    split; [apply AVG_spec|]. split; [apply AVG_spec|]. split; [apply AVG_spec|].
    split; [apply avg_of_column|].
    split; [now apply bool_and_Some|].
    split.
    { rewrite <- (non_null_Some Row.nav_ath g). apply MAX_spec.
      rewrite non_null_Some. now apply map_nonempty. }
    split.
    { rewrite <- (non_null_Some Row.max_drawdown g). apply MIN_spec.
      rewrite non_null_Some. now apply map_nonempty. }
    repeat split; apply AVG_integer_spec.
  - exists (aggregate 0 (rows three_hour_store)).
    repeat apply conj; vm_compute; reflexivity.
Qed.

(** Two rows of one day with dd_score 50 and 55: the daily row has dd_score
    53, and the average of 50 and 55 is 52.5. *)
Lemma daily_score_is_not_the_average :
  (exists d,
      getSnapshots (3 * HOUR) two_score_store "all" "daily" = Daily [d] /\
      map Row.dd_score (rows two_score_store) = [Some 50%Z; Some 55%Z] /\
      d_dd_score d = Some 53%Z) /\
  is_average 52.5 [50; 55] /\
  ~ is_average (inject_Z 53) [50; 55].
Proof.
  split; [|split].
  - exists (aggregate 0 (rows two_score_store)).
    repeat apply conj; vm_compute; reflexivity.
  - vm_compute. reflexivity.
  - vm_compute. discriminate.
Qed.

End DailyClaim.

(** * Further properties of the code *)

(** ** The store: keys, order, latest row *)

Section StoreOrder.

Import Db.

Lemma insert_by_time_sorted r l :
  time_sorted l -> time_sorted (insert_by_time r l).
Proof.
  unfold time_sorted. induction l as [|x l IH]; intros Hs; cbn [insert_by_time].
  - repeat constructor.
  - inversion Hs as [|? ? Hl Hx]; subst.
    destruct (Row.collected_at r <? Row.collected_at x)%Z eqn:E.
    + apply Z.ltb_lt in E. constructor; [exact Hs|].
      constructor; [lia|]. eapply Forall_impl; [|exact Hx].
      cbv beta. intros a Ha. lia.
    + apply Z.ltb_ge in E. constructor; [now apply IH|].
      apply Forall_forall. intros y Hy. apply insert_by_time_In in Hy.
      destruct Hy as [->|Hy]; [exact E|].
      exact (proj1 (Forall_forall _ _) Hx y Hy).
Qed.

Lemma order_by_time_sorted l : time_sorted (order_by_time l).
Proof.
  induction l as [|x l IH]; cbn [order_by_time fold_right].
  - constructor.
  - apply insert_by_time_sorted. exact IH.
Qed.

Lemma insert_by_time_perm r l : Permutation (r :: l) (insert_by_time r l).
Proof.
  induction l as [|x l IH]; cbn [insert_by_time]; [reflexivity|].
  destruct (_ <? _)%Z; [reflexivity|].
  rewrite perm_swap. now constructor.
Qed.

Lemma order_by_time_perm l : Permutation l (order_by_time l).
Proof.
  induction l as [|x l IH]; cbn [order_by_time fold_right]; [constructor|].
  fold (order_by_time l). rewrite <- insert_by_time_perm. now constructor.
Qed.

(** The last element of a sorted list bounds the list. *)
Lemma time_sorted_last l r :
  time_sorted l -> Js.last_opt l = Some r ->
  In r l /\ forall x, In x l -> (Row.collected_at x <= Row.collected_at r)%Z.
Proof.
  unfold Js.last_opt. induction l as [|a l IH]; intros Hs Hlast.
  - discriminate Hlast.
  - inversion Hs as [|? ? Hl Ha]; subst. cbn [List.length] in Hlast.
    destruct l as [|b l'].
    + cbn in Hlast. injection Hlast as <-. split; [now left|].
      intros x [<-|[]]. lia.
    + replace (S (List.length (b :: l')) - 1)%nat
        with (S (List.length (b :: l') - 1))%nat in Hlast
        by (cbn [List.length]; lia).
      cbn [nth_error] in Hlast. destruct (IH Hl Hlast) as [Hin Hmax].
      split; [now right|]. intros x [<-|Hx]; [|now apply Hmax].
      exact (proj1 (Forall_forall _ _) Ha r Hin).
Qed.

Lemma last_opt_None {A : Type} (l : list A) : Js.last_opt l = None <-> l = [].
Proof.
  unfold Js.last_opt. split; [|intros ->; reflexivity].
  intros H. apply nth_error_None in H. destruct l; [reflexivity|].
  cbn [List.length] in H. lia.
Qed.

End StoreOrder.

Section StoreExtras.

Import Db.

Lemma hour_of_monotone (a b : Z) : (a <= b)%Z -> (hour_of a <= hour_of b)%Z.
Proof.
  intros H. unfold hour_of, HOUR_MS. apply Z.div_le_mono; lia.
Qed.

Lemma day_of_monotone (a b : Z) : (a <= b)%Z -> (day_of a <= day_of b)%Z.
Proof.
  intros H. unfold day_of, DAY_MS. apply Z.div_le_mono; lia.
Qed.

(** X1.  getLatestSnapshot returns null exactly on the empty table;
    otherwise it returns a stored row whose timestamp no stored row
    exceeds. *)
Theorem latest_snapshot_is_latest (sql : store) :
  (getLatestSnapshot sql = None <-> rows sql = []) /\
  (forall r, getLatestSnapshot sql = Some r ->
             In r (rows sql) /\
             forall x, In x (rows sql) ->
                       (Row.collected_at x <= Row.collected_at r)%Z).
Proof.
  unfold getLatestSnapshot. split.
  - rewrite last_opt_None. split.
    + intros H. pose proof (order_by_time_length (rows sql)) as Hl.
      rewrite H in Hl. destruct (rows sql); [reflexivity | discriminate Hl].
    + intros ->. reflexivity.
  - intros r Hr.
    destruct (time_sorted_last _ _ (order_by_time_sorted (rows sql)) Hr)
      as [Hin Hmax].
    split; [now apply order_by_time_In|].
    intros x Hx. apply Hmax. now apply order_by_time_In.
Qed.

(** X2.  Write then read: when every stored row lies in an earlier hour
    than the snapshot, insertSnapshot stores it under the next id and
    returns that id with the timestamp, and getLatestSnapshot then returns
    exactly the stored row. *)
Theorem insert_then_latest (now : Z) (sql : store) (data : Snapshot.t)
        (Hlater : forall x, In x (rows sql) ->
                            (hour_of (Row.collected_at x)
                             < hour_of (Js.nullish (Snapshot.collected_at data) now))%Z) :
  let t := Js.nullish (Snapshot.collected_at data) now in
  let w := insertSnapshot now sql data in
  snd w = Some (next_id sql, t) /\
  getLatestSnapshot (fst w) = Some (insert_values now (next_id sql) data).
Proof.
  intros t w. subst w.
  assert (Hfree : hour_taken sql t = false).
  { destruct (hour_taken sql t) eqn:E; [|reflexivity].
    apply hour_taken_spec in E. destruct E as (x & Hx & Heq).
    specialize (Hlater x Hx). fold t in Hlater. lia. }
  destruct (insertSnapshot_cases now sql data) as [[Ht _]|[_ Hw]];
    [fold t in Ht; congruence|].
  rewrite Hw. cbn [fst snd]. split; [reflexivity|].
  set (row := insert_values now (next_id sql) data).
  set (sql' := {| rows := rows sql ++ [row]; next_id := next_id sql + 1 |}).
  unfold getLatestSnapshot.
  destruct (Js.last_opt (order_by_time (rows sql'))) as [r|] eqn:E.
  - destruct (time_sorted_last _ _ (order_by_time_sorted (rows sql')) E)
      as [Hin Hmax].
    apply (proj1 (order_by_time_In _ _)) in Hin. cbn [rows sql'] in Hin.
    apply in_app_or in Hin.
    destruct Hin as [Hin|[<-|[]]]; [exfalso|reflexivity].
    assert (Hrow : (Row.collected_at row <= Row.collected_at r)%Z).
    { apply Hmax. apply order_by_time_In. cbn [rows sql'].
      apply in_or_app. right. now left. }
    specialize (Hlater r Hin). fold t in Hlater.
    change (Row.collected_at row) with t in Hrow.
    apply hour_of_monotone in Hrow. lia.
  - exfalso. apply last_opt_None in E.
    pose proof (order_by_time_length (rows sql')) as Hl. rewrite E in Hl.
    cbn [rows sql'] in Hl. rewrite length_app in Hl. cbn [List.length] in Hl. lia.
Qed.

End StoreExtras.

Section ReadExtras.

Import Db.
Local Open Scope string_scope.

Lemma insert_then_latest_witness :
  (forall x, In x (rows nine_day_store) ->
             (hour_of (Row.collected_at x)
              < hour_of (Js.nullish
                           (Snapshot.collected_at (snapshot_at (10 * DAY) 100))
                           5000%Z))%Z) /\
  snd (insertSnapshot 5000 nine_day_store (snapshot_at (10 * DAY) 100)) =
    Some (5%Z, (10 * DAY)%Z) /\
  getLatestSnapshot
    (fst (insertSnapshot 5000 nine_day_store (snapshot_at (10 * DAY) 100))) =
  Some (insert_values 5000 5 (snapshot_at (10 * DAY) 100)).
Proof.
  assert (H : forall x, In x (rows nine_day_store) ->
                        (hour_of (Row.collected_at x)
                         < hour_of (Js.nullish
                                      (Snapshot.collected_at
                                         (snapshot_at (10 * DAY) 100))
                                      5000%Z))%Z).
  { intros x Hx. cbn [rows nine_day_store In] in Hx.
    destruct Hx as [<-|[<-|[<-|[<-|[]]]]]; vm_compute; reflexivity. }
  split; [exact H|].
  exact (insert_then_latest 5000 nine_day_store (snapshot_at (10 * DAY) 100) H).
Defined.

(** X3.  A read that is not aggregated (a resolution other than 'daily',
    and 'auto' only with the ranges 24h and 7d) returns the stored rows at
    or after the cutoff of the range, each once, in ascending order of
    [collected_at]. *)
Theorem raw_read_sorted_in_range
        (now : Z) (sql : store) (range resolution : string)
        (Hnot_daily : resolution <> "daily")
        (Hauto : resolution = "auto" -> range = "24h" \/ range = "7d") :
  exists l,
    getSnapshots now sql range resolution = Raw l /\
    time_sorted l /\
    Permutation (where_cutoff (cutoff_of now range) (rows sql)) l /\
    (forall r, In r l <->
               In r (rows sql) /\
               match cutoff_of now range with
               | Some c => (c <= Row.collected_at r)%Z
               | None => True
               end).
Proof.
  exists (order_by_time (where_cutoff (cutoff_of now range) (rows sql))).
  split; [|split; [apply order_by_time_sorted|split; [apply order_by_time_perm|]]].
  - unfold getSnapshots. destruct (String.eqb resolution "auto") eqn:E.
    + apply String.eqb_eq in E. destruct (Hauto E) as [-> | ->]; reflexivity.
    + apply String.eqb_neq in Hnot_daily. rewrite Hnot_daily. reflexivity.
  - intros r. rewrite order_by_time_In. unfold where_cutoff.
    destruct (cutoff_of now range) as [c|]; [|tauto].
    rewrite filter_In, Z.leb_le. tauto.
Qed.

Lemma raw_read_sorted_in_range_witness :
  "hourly" <> "daily" /\
  ("hourly" = "auto" -> "7d" = "24h" \/ "7d" = "7d") /\
  exists l,
    getSnapshots (9 * DAY + 3 * HOUR) nine_day_store "7d" "hourly" = Raw l /\
    time_sorted l.
Proof.
  assert (H1 : "hourly" <> "daily") by discriminate.
  assert (H2 : "hourly" = "auto" -> "7d" = "24h" \/ "7d" = "7d") by (intros _; now right).
  split; [exact H1|]. split; [exact H2|].
  destruct (raw_read_sorted_in_range (9 * DAY + 3 * HOUR) nine_day_store
                                     "7d" "hourly" H1 H2) as (l & Hl & Hs & _).
  exists l. split; [exact Hl | exact Hs].
Defined.

Lemma nodup_sorted_strict (l : list Z) :
  StronglySorted Z.le l -> StronglySorted Z.lt (nodup Z.eq_dec l).
Proof.
  induction l as [|x l IH]; intros Hs; cbn [nodup]; [constructor|].
  inversion Hs as [|? ? Hl Hx]; subst.
  destruct (in_dec Z.eq_dec x l) as [Hin|Hnin]; [now apply IH|].
  constructor; [now apply IH|].
  apply Forall_forall. intros y Hy. apply nodup_In in Hy.
  pose proof (proj1 (Forall_forall _ _) Hx y Hy) as Hle.
  assert (x <> y) by (intros ->; contradiction). lia.
Qed.

Lemma days_of_ascending (l : list Row.t) : StronglySorted Z.lt (days_of l).
Proof.
  unfold days_of. apply nodup_sorted_strict.
  pose proof (order_by_time_sorted l) as Hs. unfold time_sorted in Hs.
  induction Hs as [|a l' Hl IH Ha]; cbn [map]; constructor; [exact IH|].
  apply Forall_forall. intros d Hd. apply in_map_iff in Hd.
  destruct Hd as (r & <- & Hr). apply day_of_monotone.
  exact (proj1 (Forall_forall _ _) Ha r Hr).
Qed.

(** X4.  A daily read returns its rows in strictly ascending order of day:
    the timestamps are the starts of distinct UTC days, each later than the
    one before. *)
Theorem daily_read_days_ascending (now : Z) (sql : store) (range : string) :
  exists days,
    getSnapshots now sql range "daily" = Daily days /\
    StronglySorted Z.lt (map d_collected_at days) /\
    (forall d, In d days -> (d_collected_at d mod DAY_MS = 0)%Z).
Proof.
  eexists. split; [reflexivity|]. unfold select_daily. rewrite map_map.
  cbn [aggregate d_collected_at]. split.
  - pose proof (days_of_ascending (where_cutoff (cutoff_of now range) (rows sql)))
      as Hs.
    induction Hs as [|k ks Hks IH Hk]; cbn [map]; constructor; [exact IH|].
    apply Forall_forall. intros t Ht. apply in_map_iff in Ht.
    destruct Ht as (k' & <- & Hk').
    pose proof (proj1 (Forall_forall _ _) Hk k' Hk') as Hlt.
    unfold DAY_MS. lia.
  - intros d Hd. apply in_map_iff in Hd. destruct Hd as (k & <- & _).
    cbn [aggregate d_collected_at]. apply Z.mod_mul. unfold DAY_MS. lia.
Qed.

(** X5.  insertSnapshot keeps the primary key: on a table whose ids are
    distinct and below the sequence, they stay so after a write, the
    sequence moves on by one whether or not a row is written, and an
    inserted row gets the id the sequence had, which no earlier row has. *)
Theorem insert_keeps_ids_fresh (now : Z) (sql : store) (data : Snapshot.t)
        (Hfresh : ids_fresh sql) :
  let w := insertSnapshot now sql data in
  ids_fresh (fst w) /\
  next_id (fst w) = (next_id sql + 1)%Z /\
  (forall id t, snd w = Some (id, t) ->
                id = next_id sql /\
                (forall r, In r (rows sql) -> Row.id r <> id) /\
                exists r, In r (rows (fst w)) /\ Row.id r = id /\
                          Row.collected_at r = t).
Proof.
  intros w. subst w. destruct Hfresh as [Hnd Hlt].
  destruct (insertSnapshot_cases now sql data) as [[_ ->]|[_ ->]]; cbn [fst snd].
  - split; [|split; [reflexivity | intros id t H; discriminate H]].
    split; [exact Hnd|]. cbn [rows next_id]. intros r Hr.
    specialize (Hlt r Hr). lia.
  - split; [|split; [reflexivity|]].
    + split; cbn [rows next_id].
      * rewrite map_app. cbn [map insert_values Row.id].
        apply NoDup_app; [exact Hnd | repeat constructor; intros [] |].
        intros i Hi [<-|[]]. apply in_map_iff in Hi.
        destruct Hi as (r & Heq & Hr). specialize (Hlt r Hr). lia.
      * intros r Hr. apply in_app_or in Hr. destruct Hr as [Hr|[<-|[]]].
        -- specialize (Hlt r Hr). lia.
        -- cbn [insert_values Row.id]. lia.
    + intros id t H. injection H as <- <-. split; [reflexivity|]. split.
      * intros r Hr. specialize (Hlt r Hr). lia.
      * exists (insert_values now (next_id sql) data). cbn [rows].
        split; [apply in_or_app; right; now left|]. split; reflexivity.
Qed.

Lemma insert_keeps_ids_fresh_witness :
  ids_fresh nine_day_store /\
  (snd (insertSnapshot 5000 nine_day_store (snapshot_at (10 * DAY) 100)) =
     Some (5%Z, (10 * DAY)%Z) /\
   ids_fresh
     (fst (insertSnapshot 5000 nine_day_store (snapshot_at (10 * DAY) 100)))) /\
  (snd (insertSnapshot 5000 nine_day_store (snapshot_at (9 * DAY + 1000) 100)) =
     None /\
   ids_fresh
     (fst (insertSnapshot 5000 nine_day_store
             (snapshot_at (9 * DAY + 1000) 100))) /\
   next_id
     (fst (insertSnapshot 5000 nine_day_store
             (snapshot_at (9 * DAY + 1000) 100))) = 6%Z).
Proof.
  assert (H : ids_fresh nine_day_store).
  { split.
    - cbn. repeat constructor; cbn; intuition discriminate.
    - intros r Hr. cbn [rows nine_day_store In] in Hr.
      destruct Hr as [<-|[<-|[<-|[<-|[]]]]]; vm_compute; reflexivity. }
  split; [exact H|]. split.
  - split; [vm_compute; reflexivity|].
    exact (proj1 (insert_keeps_ids_fresh 5000 nine_day_store
                    (snapshot_at (10 * DAY) 100) H)).
  - split; [vm_compute; reflexivity|].
    destruct (insert_keeps_ids_fresh 5000 nine_day_store
                (snapshot_at (9 * DAY + 1000) 100) H) as (H1 & H2 & _).
    split; [exact H1 | exact H2].
Defined.

End ReadExtras.

(** ** The ingestion cycle: what it refuses, what it adds *)

Section CycleExtras.

Import Db Collect.

Lemma gap_row_weaken l l' r :
  (forall p, In p l -> In p l') -> gap_row l r -> gap_row l' r.
Proof.
  intros Hincl ((p & Hp & Ht & Hv) & Hrest).
  split; [|exact Hrest]. exists p. split; [now apply Hincl|]. now split.
Qed.

(** The gap-fill loop only appends, counts what it appends, and appends
    rows of the gap-fill shape. *)
Lemma gap_loop_appends navHistory :
  forall now pnlMap ath maxDD sql gapFilled,
  exists added,
    rows (fst (gap_loop now pnlMap ath maxDD navHistory sql gapFilled)) =
      rows sql ++ added /\
    snd (gap_loop now pnlMap ath maxDD navHistory sql gapFilled) =
      (gapFilled + Z.of_nat (List.length added))%Z /\
    Forall (gap_row navHistory) added.
Proof.
  induction navHistory as [|point rest IH]; intros now pnlMap ath maxDD sql g.
  - exists []. cbn [gap_loop fst snd List.length]. rewrite app_nil_r.
    split; [reflexivity|]. split; [cbn; lia | constructor].
  - cbn [gap_loop].
    match goal with
    | |- context [insertSnapshot now sql ?d] =>
        set (snap := d);
        destruct (insertSnapshot_cases now sql snap) as [[_ Hw]|[_ Hw]]
    end; rewrite Hw.
    + match goal with
      | |- context [gap_loop now pnlMap ?a ?m rest ?s ?g'] =>
          destruct (IH now pnlMap a m s g') as (added & Hrows & Hcount & Hshape)
      end.
      exists added. split; [exact Hrows|]. split; [exact Hcount|].
      eapply Forall_impl; [|exact Hshape]. intros r.
      apply gap_row_weaken. intros p Hp. now right.
    + match goal with
      | |- context [gap_loop now pnlMap ?a ?m rest ?s ?g'] =>
          destruct (IH now pnlMap a m s g') as (added & Hrows & Hcount & Hshape)
      end.
      exists (insert_values now (next_id sql) snap :: added).
      split; [rewrite Hrows; cbn [rows]; now rewrite <- app_assoc|].
      split; [rewrite Hcount; cbn [List.length]; lia|].
      constructor.
      * split; [exists point; split; [now left | split; reflexivity]|].
        repeat split.
      * eapply Forall_impl; [|exact Hshape]. intros r.
        apply gap_row_weaken. intros p Hp. now right.
Qed.

(** Looking a name up in the object built by parseAllTimeframes. *)
Lemma fromEntries_flat_map {A B : Type} (f : string -> option A) (g : A -> B)
      (names : list string) (tf : string) :
  NoDup names ->
  Js.fromEntries_get
    (flat_map (fun n => match f n with
                        | None => []
                        | Some v => [(n, g v)]
                        end) names) tf =
  if in_dec string_dec tf names then option_map g (f tf) else None.
Proof.
  induction names as [|n names IH]; intros Hnd; [reflexivity|].
  inversion Hnd as [|? ? Hn Hnd']; subst. cbn [flat_map].
  assert (Hcons : forall (e : list (string * B)) rest,
             (e = [] \/ exists v, e = [(n, v)]) ->
             Js.fromEntries_get (e ++ rest) tf =
             match Js.fromEntries_get rest tf with
             | Some v' => Some v'
             | None => match e with
                       | (k, v) :: _ => if String.eqb k tf then Some v else None
                       | [] => None
                       end
             end).
  { intros e rest [->|(v & ->)]; cbn [app Js.fromEntries_get];
      [destruct (Js.fromEntries_get rest tf) |]; reflexivity. }
  rewrite Hcons by (destruct (f n); [right; eexists; reflexivity | now left]).
  rewrite (IH Hnd').
  destruct (in_dec string_dec tf names) as [Hin|Hnin].
  - destruct (in_dec string_dec tf (n :: names)) as [_|Hc];
      [|exfalso; apply Hc; now right].
    destruct (option_map g (f tf)) eqn:E; [reflexivity|].
    assert (Hne : String.eqb n tf = false).
    { apply String.eqb_neq. intros ->. contradiction. }
    destruct (f n); [now rewrite Hne | reflexivity].
  - destruct (string_dec n tf) as [->|Hne].
    + destruct (in_dec string_dec tf (tf :: names)) as [_|Hc];
        [|exfalso; apply Hc; now left].
      destruct (f tf); [now rewrite String.eqb_refl | reflexivity].
    + destruct (in_dec string_dec tf (n :: names)) as [[Hc|Hc]|_];
        [contradiction | contradiction |].
      apply String.eqb_neq in Hne. destruct (f n); [now rewrite Hne | reflexivity].
Qed.

Lemma parseAllTimeframes_get raw tf :
  Js.fromEntries_get (Hyperliquid.parseAllTimeframes raw) tf =
  if in_dec string_dec tf Hyperliquid.timeframe_names
  then option_map
         (fun tfData =>
            (Hyperliquid.positive_points (Hyperliquid.accountValueHistory tfData),
             map Hyperliquid.to_point (Hyperliquid.tf_pnlHistory tfData)))
         (Js.fromEntries_get (Hyperliquid.portfolio raw) tf)
  else None.
Proof.
  unfold Hyperliquid.parseAllTimeframes.
  apply (fromEntries_flat_map
           (fun n => Js.fromEntries_get (Hyperliquid.portfolio raw) n)
           (fun tfData =>
              (Hyperliquid.positive_points (Hyperliquid.accountValueHistory tfData),
               map Hyperliquid.to_point (Hyperliquid.tf_pnlHistory tfData)))).
  unfold Hyperliquid.timeframe_names.
  repeat constructor; cbn [In]; intuition discriminate.
Qed.

Lemma gap_fill_appends now raw sql :
  exists added,
    rows (fst (gap_fill now raw sql)) = rows sql ++ added /\
    snd (gap_fill now raw sql) = Z.of_nat (List.length added) /\
    Forall (gap_row (gap_points raw)) added.
Proof.
  unfold gap_fill, gap_points. cbn [fold_left flat_map].
  rewrite !parseAllTimeframes_get. rewrite app_nil_r.
  destruct (in_dec string_dec "month"%string Hyperliquid.timeframe_names) as [_|Hc];
    [|exfalso; apply Hc; cbn; tauto].
  destruct (in_dec string_dec "week"%string Hyperliquid.timeframe_names) as [_|Hc];
    [|exfalso; apply Hc; cbn; tauto].
  destruct (Js.fromEntries_get (Hyperliquid.portfolio raw) "month"%string) as [tfm|];
    destruct (Js.fromEntries_get (Hyperliquid.portfolio raw) "week"%string) as [tfw|];
    cbn [option_map].
  - match goal with
    | |- context [gap_loop now ?pm 0 0 ?nav sql 0%Z] =>
        destruct (gap_loop_appends nav now pm 0 0 sql 0%Z)
          as (a1 & Hr1 & Hc1 & Hs1);
        destruct (gap_loop now pm 0 0 nav sql 0%Z) as [sql1 g1]
    end.
    cbn [fst snd] in Hr1, Hc1.
    match goal with
    | |- context [gap_loop now ?pm 0 0 ?nav sql1 g1] =>
        destruct (gap_loop_appends nav now pm 0 0 sql1 g1)
          as (a2 & Hr2 & Hc2 & Hs2)
    end.
    exists (a1 ++ a2). rewrite Hr2, Hr1, Hc2, Hc1, length_app, app_assoc.
    split; [reflexivity|]. split; [lia|].
    apply Forall_app. split.
    + eapply Forall_impl; [|exact Hs1]. intros r. apply gap_row_weaken.
      intros p Hp. apply in_or_app. now left.
    + eapply Forall_impl; [|exact Hs2]. intros r. apply gap_row_weaken.
      intros p Hp. apply in_or_app. now right.
  - match goal with
    | |- context [gap_loop now ?pm 0 0 ?nav sql 0%Z] =>
        destruct (gap_loop_appends nav now pm 0 0 sql 0%Z)
          as (a1 & Hr1 & Hc1 & Hs1);
        destruct (gap_loop now pm 0 0 nav sql 0%Z) as [sql1 g1]
    end.
    cbn [fst snd] in Hr1, Hc1 |- *.
    exists a1. split; [exact Hr1|]. split; [rewrite Hc1; lia|].
    rewrite app_nil_r. exact Hs1.
  - match goal with
    | |- context [gap_loop now ?pm 0 0 ?nav sql 0%Z] =>
        destruct (gap_loop_appends nav now pm 0 0 sql 0%Z)
          as (a1 & Hr1 & Hc1 & Hs1);
        destruct (gap_loop now pm 0 0 nav sql 0%Z) as [sql1 g1]
    end.
    cbn [fst snd] in Hr1, Hc1 |- *.
    exists a1. split; [exact Hr1|]. split; [rewrite Hc1; lia|]. exact Hs1.
  - exists []. cbn [fst snd List.length app]. rewrite app_nil_r.
    split; [reflexivity|]. split; [reflexivity | constructor].
Qed.


Lemma gap_points_positive raw p :
  In p (gap_points raw) -> 0 < Hyperliquid.value p.
Proof.
  unfold gap_points. cbn [flat_map]. rewrite app_nil_r. intros Hp.
  apply in_app_or in Hp.
  destruct Hp as [Hp|Hp];
    match type of Hp with
    | In _ (match ?o with _ => _ end) => destruct o; [|destruct Hp]
    end;
    unfold Hyperliquid.positive_points in Hp; apply filter_In in Hp;
    apply gt_true; exact (proj2 Hp).
Qed.

(** X6.  The gap-fill pass only appends: the rows that were stored stay as
    they are and in place, [gapFilled] is the number of rows appended, and
    every appended row comes from a point of the 'month' or 'week' series,
    has a positive NAV, no APR, no volume, no score, no open interest and
    [allow_deposits] true; the unique hour index is kept. *)
Theorem gap_fill_only_appends (now : Z) (raw : Hyperliquid.vault_details)
        (sql : store) :
  exists added,
    rows (fst (gap_fill now raw sql)) = rows sql ++ added /\
    snd (gap_fill now raw sql) = Z.of_nat (List.length added) /\
    Forall (gap_row (gap_points raw)) added /\
    Forall (fun r => 0 < Row.nav r) added /\
    (hours_unique sql -> hours_unique (fst (gap_fill now raw sql))).
Proof.
  destruct (gap_fill_appends now raw sql) as (added & Hrows & Hcount & Hshape).
  exists added. split; [exact Hrows|]. split; [exact Hcount|].
  split; [exact Hshape|]. split.
  - eapply Forall_impl; [|exact Hshape].
    intros r ((p & Hp & _ & Hv) & _). rewrite Hv.
    now apply (gap_points_positive raw).
  - apply (gap_fill_keeps hours_unique insertSnapshot_keeps_unique).
Qed.

(** X7.  The books of one accepted ingestion cycle whose payload parses.
    The answer is 200; the stored rows stay as they are and in place; the
    table grows by one row unless the cycle is skipped, plus [gapFilled]
    rows; [gapFilled] is 0 unless the UTC hour of the clock is 0; when the
    cycle is not skipped the first new row is the live one, stamped with
    the clock and carrying the parsed current NAV, and the answer names its
    id. *)
Theorem collect_cycle_accounting
        (Math_sqrt : Q -> Q) (now : Z) (env : env) (req : request)
        (raw : Hyperliquid.vault_details) (parsed : Hyperliquid.parsed)
        (market : option market_ctx) (sql : store)
        (Haccepted : accepted env req)
        (Hparse : Hyperliquid.parseVaultData raw = inr parsed) :
  exists sql' b added,
    handler Math_sqrt now env req (inr raw) market sql = (sql', Json 200 b) /\
    rows sql' = rows sql ++ added /\
    Z.of_nat (List.length added) =
      ((if skipped b then 0 else 1) + gapFilled b)%Z /\
    (((now / HOUR_MS) mod 24)%Z <> 0%Z -> gapFilled b = 0%Z) /\
    (skipped b = false ->
     exists row rest,
       added = row :: rest /\
       Row.collected_at row = now /\
       Row.nav row = Hyperliquid.currentNav parsed /\
       snapshot b = inl (Row.id row, now)).
Proof.
  destruct Haccepted as (Hm & Ha & Hd). unfold handler.
  rewrite Hm, Ha, Hd, Hparse. cbn [negb].
  set (snap := build_snapshot Math_sqrt now parsed _ _).
  assert (Hgap : forall s,
             exists added g,
               (if ((now / HOUR_MS) mod 24 =? 0)%Z then gap_fill now raw s
                else (s, 0%Z)) = ({| rows := rows s ++ added;
                                     next_id := next_id
                                       (fst (if ((now / HOUR_MS) mod 24 =? 0)%Z
                                             then gap_fill now raw s
                                             else (s, 0%Z))) |}, g) /\
               g = Z.of_nat (List.length added) /\
               (((now / HOUR_MS) mod 24)%Z <> 0%Z -> g = 0%Z)).
  { intros s. destruct ((now / HOUR_MS) mod 24 =? 0)%Z eqn:E.
    - destruct (gap_fill_appends now raw s) as (added & Hr & Hc & _).
      exists added, (snd (gap_fill now raw s)).
      split; [|split; [exact Hc|]].
      + destruct (gap_fill now raw s) as [[rs nid] g]. cbn [fst snd rows] in *.
        now rewrite Hr.
      + intros Hne. apply Z.eqb_eq in E. contradiction.
    - exists [], 0%Z. rewrite app_nil_r. split; [|split; [reflexivity|reflexivity]].
      destruct s; reflexivity. }
  destruct (insertSnapshot_cases now sql snap) as [[_ Hw]|[_ Hw]]; rewrite Hw.
  - destruct (Hgap {| rows := rows sql; next_id := next_id sql + 1 |})
      as (added & g & Heq & Hg & Hzero).
    rewrite Heq. eexists. eexists. exists added.
    split; [reflexivity|]. cbn [rows skipped gapFilled snapshot].
    split; [reflexivity|]. split; [lia|]. split; [exact Hzero|].
    intros H. discriminate H.
  - destruct (Hgap {| rows := rows sql ++ [insert_values now (next_id sql) snap];
                      next_id := next_id sql + 1 |})
      as (added & g & Heq & Hg & Hzero).
    rewrite Heq. eexists. eexists.
    exists (insert_values now (next_id sql) snap :: added).
    split; [reflexivity|]. cbn [rows skipped gapFilled snapshot].
    split; [now rewrite <- app_assoc|].
    split; [cbn [List.length]; lia|]. split; [exact Hzero|].
    intros _. exists (insert_values now (next_id sql) snap), added.
    repeat split.
Qed.

(** X8.  What the ingestion handler refuses.  A request that does not end
    in the 200 answer of a completed cycle leaves the table as it was.  An
    OPTIONS request is answered 200 with no work; with a configured secret
    a missing or different bearer header is answered 401; without a
    configured secret no request is answered 401; a failed vault fetch is
    answered 500 with its message; a payload without the 'allTime' series
    is answered 500 'No allTime portfolio data'. *)
Theorem collect_refusals
        (Math_sqrt : Q -> Q) (now : Z) (env : env) (req : request)
        (vault : string + Hyperliquid.vault_details)
        (market : option market_ctx) (sql : store) :
  let out := handler Math_sqrt now env req vault market sql in
  ((forall b, snd out <> Json 200 b) -> fst out = sql) /\
  (method req = "OPTIONS"%string -> out = (sql, Ended 200)) /\
  (method req <> "OPTIONS"%string ->
   forall secret,
     CRON_SECRET env = Some secret -> secret <> ""%string ->
     authorization req <> Some ("Bearer " ++ secret)%string ->
     out = (sql, Failed 401 "Unauthorized")) /\
  (CRON_SECRET env = None -> forall msg, snd out <> Failed 401 msg) /\
  (accepted env req ->
   forall msg, vault = inl msg -> out = (sql, Failed 500 msg)) /\
  (accepted env req ->
   forall raw,
     vault = inr raw ->
     Js.fromEntries_get (Hyperliquid.portfolio raw) "allTime" = None ->
     out = (sql, Failed 500 "No allTime portfolio data")).
Proof.
  intros out. subst out. unfold handler.
  split; [|split; [|split; [|split; [|split]]]].
  - destruct (String.eqb (method req) "OPTIONS"); [reflexivity|].
    destruct (truthy_string (CRON_SECRET env) && _); [reflexivity|].
    destruct (negb (truthy_string (DATABASE_URL env))); [reflexivity|].
    destruct vault as [msg|raw]; [reflexivity|].
    destruct (Hyperliquid.parseVaultData raw) as [msg|parsed]; [reflexivity|].
    destruct (insertSnapshot now sql _) as [sql1 inserted].
    destruct (if ((now / HOUR_MS) mod 24 =? 0)%Z then _ else _) as [sql2 g].
    cbn [fst snd]. intros H. exfalso. eapply H. reflexivity.
  - intros ->. reflexivity.
  - intros Hm secret Hs Hne Hauth. apply String.eqb_neq in Hm. rewrite Hm, Hs.
    cbn [truthy_string bearer_ok]. apply String.eqb_neq in Hne. rewrite Hne.
    cbn [negb andb].
    destruct (authorization req) as [h|]; [|reflexivity].
    destruct (String.eqb h ("Bearer " ++ secret)) eqn:E; [|reflexivity].
    apply String.eqb_eq in E. subst h. contradiction.
  - intros Hs msg. rewrite Hs. cbn [truthy_string andb].
    destruct (String.eqb (method req) "OPTIONS"); [discriminate|].
    destruct (negb (truthy_string (DATABASE_URL env))); [discriminate|].
    destruct vault as [m|raw]; [discriminate|].
    destruct (Hyperliquid.parseVaultData raw) as [m|parsed]; [discriminate|].
    destruct (insertSnapshot now sql _) as [sql1 inserted].
    destruct (if ((now / HOUR_MS) mod 24 =? 0)%Z then _ else _) as [sql2 g].
    discriminate.
  - intros (Hm & Ha & Hd) msg ->. rewrite Hm, Ha, Hd. reflexivity.
  - intros (Hm & Ha & Hd) raw -> Hnone. rewrite Hm, Ha, Hd. cbn [negb].
    unfold Hyperliquid.parseVaultData. rewrite Hnone. reflexivity.
Qed.

Lemma collect_cycle_accounting_witness :
  accepted example_env example_req /\
  exists sql' b added,
    handler sqrt6 (3 * DAY + HOUR) example_env example_req
            (inr example_payload) None empty_store = (sql', Json 200 b) /\
    rows sql' = rows empty_store ++ added.
Proof.
  assert (Ha : accepted example_env example_req) by (repeat split).
  split; [exact Ha|].
  destruct (Hyperliquid.parseVaultData example_payload) as [msg|parsed] eqn:E;
    [vm_compute in E; discriminate E|].
  destruct (collect_cycle_accounting sqrt6 (3 * DAY + HOUR) example_env
              example_req example_payload parsed None empty_store Ha E)
    as (sql' & b & added & Hrun & Hrows & _).
  exists sql', b, added. split; [exact Hrun | exact Hrows].
Defined.

End CycleExtras.

(** ** Open interest never reaches the calculator *)

Section OpenInterest.

Import Db Collect.

Lemma filter_has_oi_empty (l : list Row.t) :
  no_open_interest l -> filter Hyperliquid.has_oi l = [].
Proof.
  intros H. induction l as [|r l IH]; [reflexivity|].
  cbn [filter]. unfold Hyperliquid.has_oi at 1.
  rewrite (H r (or_introl eq_refl)). apply IH.
  intros x Hx. apply H. now right.
Qed.

Lemma trailing_oi_neutral Math_sqrt now l currentNav :
  no_open_interest l ->
  Js.nullish
    (Hyperliquid.t_oiScore
       (Hyperliquid.computeTrailingSignals Math_sqrt now l currentNav)) 50%Z = 50%Z.
Proof.
  intros H. unfold Hyperliquid.computeTrailingSignals.
  destruct (List.length l <? 2)%nat; [reflexivity|].
  cbn [Hyperliquid.t_oiScore Js.nullish].
  rewrite (filter_has_oi_empty l H). reflexivity.
Qed.

Lemma trailing_window_rows now sql r :
  In r (rows_of (getSnapshots now sql "30d" "hourly")) -> In r (rows sql).
Proof.
  cbn [getSnapshots rows_of]. unfold getSnapshots. cbn.
  intros H. apply (proj1 (order_by_time_In _ _)) in H.
  apply filter_In in H. exact (proj1 H).
Qed.

Lemma insertSnapshot_keeps_no_oi now sql data :
  no_open_interest (rows sql) ->
  no_open_interest (rows (fst (insertSnapshot now sql data))).
Proof.
  intros H.
  destruct (insertSnapshot_cases now sql data) as [[_ ->]|[_ ->]];
    cbn [fst rows]; [exact H|].
  intros r Hr. apply in_app_or in Hr.
  destruct Hr as [Hr|[<-|[]]]; [now apply H | reflexivity].
Qed.

(** X9.  No write path stores an open interest, so on a table that has none
    an accepted cycle leaves a table that has none, and the open-interest
    signal of the cycle is the default: the snapshot it builds is scored
    [oi_score = 50] whatever the market context says. *)
Theorem collect_oi_score_always_neutral
        (Math_sqrt : Q -> Q) (now : Z) (env : env) (req : request)
        (vault : string + Hyperliquid.vault_details)
        (market : option market_ctx) (sql : store)
        (Hno : no_open_interest (rows sql)) :
  no_open_interest
    (rows (fst (handler Math_sqrt now env req vault market sql))) /\
  (forall parsed marketCtx,
      Snapshot.oi_score
        (build_snapshot Math_sqrt now parsed marketCtx
           (rows_of (getSnapshots now sql "30d" "hourly"))) = Some 50%Z).
Proof.
  split.
  - unfold handler.
    destruct (String.eqb (method req) "OPTIONS"); [exact Hno|].
    destruct (truthy_string (CRON_SECRET env) && _); [exact Hno|].
    destruct (negb (truthy_string (DATABASE_URL env))); [exact Hno|].
    destruct vault as [msg|raw]; [exact Hno|].
    destruct (Hyperliquid.parseVaultData raw) as [msg|parsed]; [exact Hno|].
    match goal with
    | |- context [insertSnapshot now sql ?d] =>
        pose proof (insertSnapshot_keeps_no_oi now sql d Hno) as H1;
        destruct (insertSnapshot now sql d) as [sql1 inserted]
    end.
    cbn [fst] in H1.
    destruct ((now / HOUR_MS) mod 24 =? 0)%Z; [|exact H1].
    pose proof (gap_fill_keeps (fun s => no_open_interest (rows s))
                  insertSnapshot_keeps_no_oi now raw sql1 H1) as H2.
    destruct (gap_fill now raw sql1) as [sql2 g]. exact H2.
  - intros parsed marketCtx.
    cbn [build_snapshot Snapshot.oi_score Hyperliquid.computeSignalScores
         Hyperliquid.oiScore Hyperliquid.a_oiScore].
    f_equal. apply trailing_oi_neutral.
    intros r Hr. apply Hno. now apply (trailing_window_rows now sql).
Qed.

Lemma collect_oi_score_always_neutral_witness :
  no_open_interest (rows nine_day_store) /\
  no_open_interest
    (rows (fst (handler sqrt6 (9 * DAY + 3 * HOUR) example_env example_req
                        (inr example_payload) None nine_day_store))).
Proof.
  assert (H : no_open_interest (rows nine_day_store)).
  { intros r Hr. cbn in Hr.
    destruct Hr as [<-|[<-|[<-|[<-|[]]]]]; reflexivity. }
  split; [exact H|].
  exact (proj1 (collect_oi_score_always_neutral sqrt6 (9 * DAY + 3 * HOUR)
                  example_env example_req (inr example_payload) None
                  nine_day_store H)).
Defined.

(** X10.  The two ingestion handlers agree where they overlap.  On a table
    without open interest, outside UTC hour 0 (no gap-fill), when the
    market context could not be fetched, the handler with market context
    leaves exactly the table that the earlier handler leaves, and both
    report the same [skipped]. *)
Theorem collect_handlers_agree
        (Math_sqrt : Q -> Q) (now : Z) (env : env) (req : request)
        (vault : string + Hyperliquid.vault_details) (sql : store)
        (Hno : no_open_interest (rows sql))
        (Hhour : ((now / HOUR_MS) mod 24)%Z <> 0%Z) :
  let new := handler Math_sqrt now env req vault None sql in
  let old := CronCollect.handler Math_sqrt now env req vault sql in
  fst new = fst old /\
  (forall b, snd new = Json 200 b ->
             exists b', snd old = CronCollect.Json 200 b' /\
                        skipped b = CronCollect.skipped b' /\
                        success b = CronCollect.success b').
Proof.
  intros new old. subst new old. unfold handler, CronCollect.handler.
  destruct (String.eqb (method req) "OPTIONS");
    [split; [reflexivity | intros b H; discriminate H]|].
  destruct (truthy_string (CRON_SECRET env) && _);
    [split; [reflexivity | intros b H; discriminate H]|].
  destruct (negb (truthy_string (DATABASE_URL env)));
    [split; [reflexivity | intros b H; discriminate H]|].
  destruct vault as [msg|raw];
    [split; [reflexivity | intros b H; discriminate H]|].
  destruct (Hyperliquid.parseVaultData raw) as [msg|parsed];
    [split; [reflexivity | intros b H; discriminate H]|].
  apply Z.eqb_neq in Hhour. rewrite Hhour.
  set (trailing := rows_of (getSnapshots now sql "30d" "hourly")).
  set (s_new := build_snapshot Math_sqrt now parsed _ trailing).
  set (s_old := CronCollect.build_snapshot Math_sqrt now parsed trailing).
  assert (Hvals : forall id, insert_values now id s_new = insert_values now id s_old).
  { intros id. subst s_new s_old.
    unfold insert_values, build_snapshot, CronCollect.build_snapshot.
    cbn [Snapshot.collected_at Snapshot.nav Snapshot.pnl Snapshot.apr
         Snapshot.vlm Snapshot.allow_deposits Snapshot.nav_ath
         Snapshot.drawdown_pct Snapshot.max_drawdown Snapshot.composite_score
         Snapshot.dd_score Snapshot.tvl_score Snapshot.momentum_score
         Snapshot.vol_score Snapshot.apr_score].
    unfold Hyperliquid.computeSignalScores.
    cbn [Hyperliquid.a_currentDrawdown Hyperliquid.a_tvlScore
         Hyperliquid.a_momentumScore Hyperliquid.a_volScore Hyperliquid.a_apr
         Hyperliquid.a_fundingRate Hyperliquid.a_oiScore
         Hyperliquid.composite Hyperliquid.ddScore Hyperliquid.tvlScore
         Hyperliquid.momentumScore Hyperliquid.volScore Hyperliquid.aprScore
         Js.nullish fundingRate].
    rewrite trailing_oi_neutral
      by (intros r Hr; apply Hno; now apply (trailing_window_rows now sql)).
    reflexivity. }
  assert (Hw : insertSnapshot now sql s_new =
               (fst (insertSnapshot now sql s_old),
                snd (insertSnapshot now sql s_old))).
  { unfold insertSnapshot. rewrite Hvals.
    destruct (hour_taken sql _); reflexivity. }
  rewrite Hw. destruct (insertSnapshot now sql s_old) as [sql1 inserted].
  cbn [fst snd]. split; [reflexivity|].
  intros b H. injection H as <-. eexists. split; [reflexivity|].
  cbn [skipped success CronCollect.skipped CronCollect.success].
  split; reflexivity.
Qed.

Lemma collect_handlers_agree_witness :
  no_open_interest (rows nine_day_store) /\
  ((((9 * DAY + 3 * HOUR) / HOUR_MS) mod 24)%Z <> 0%Z) /\
  fst (handler sqrt6 (9 * DAY + 3 * HOUR) example_env example_req
               (inr example_payload) None nine_day_store) =
  fst (CronCollect.handler sqrt6 (9 * DAY + 3 * HOUR) example_env example_req
                           (inr example_payload) nine_day_store).
Proof.
  assert (H : no_open_interest (rows nine_day_store)).
  { intros r Hr. cbn in Hr.
    destruct Hr as [<-|[<-|[<-|[<-|[]]]]]; reflexivity. }
  assert (Hh : (((9 * DAY + 3 * HOUR) / HOUR_MS) mod 24)%Z <> 0%Z)
    by (vm_compute; discriminate).
  split; [exact H|]. split; [exact Hh|].
  exact (proj1 (collect_handlers_agree sqrt6 (9 * DAY + 3 * HOUR) example_env
                  example_req (inr example_payload) nine_day_store H Hh)).
Defined.

End OpenInterest.

(** ** The read endpoints *)

Section ReadEndpoints.

Import Db.

Lemma sorted_first_last (l : list Z) (a b : Z) :
  StronglySorted Z.le l ->
  nth_error l 0 = Some a -> Js.last_opt l = Some b ->
  forall t, In t l -> (a <= t <= b)%Z.
Proof.
  unfold Js.last_opt. revert a.
  induction l as [|x l IH]; intros a Hs Ha Hb t Ht.
  - destruct Ht.
  - inversion Hs as [|? ? Hl Hx]; subst. cbn [nth_error] in Ha.
    injection Ha as ->. cbn [List.length] in Hb.
    destruct l as [|y l'].
    + cbn in Hb. injection Hb as <-. destruct Ht as [<-|[]]. lia.
    + replace (S (List.length (y :: l')) - 1)%nat
        with (S (List.length (y :: l') - 1))%nat in Hb
        by (cbn [List.length]; lia).
      cbn [nth_error] in Hb.
      assert (Hyb : forall t', In t' (y :: l') -> (y <= t' <= b)%Z)
        by (apply IH; [exact Hl | reflexivity | exact Hb]).
      assert (Hay : (a <= y)%Z)
        by (exact (proj1 (Forall_forall _ _) Hx y (or_introl eq_refl))).
      destruct Ht as [<-|Ht].
      * specialize (Hyb y (or_introl eq_refl)). lia.
      * specialize (Hyb t Ht). lia.
Qed.

Lemma last_opt_map {A B : Type} (f : A -> B) (l : list A) :
  Js.last_opt (map f l) = option_map f (Js.last_opt l).
Proof.
  unfold Js.last_opt. rewrite length_map. apply nth_error_map.
Qed.

Lemma result_times_sorted now sql range resolution :
  StronglySorted Z.le (result_times (getSnapshots now sql range resolution)).
Proof.
  unfold getSnapshots.
  match goal with
  | |- context [if String.eqb ?r "daily" then _ else _] =>
      destruct (String.eqb r "daily")
  end; cbn [result_times].
  - unfold select_daily. rewrite map_map. cbn [aggregate d_collected_at].
    pose proof (days_of_ascending (where_cutoff (cutoff_of now range) (rows sql)))
      as Hs.
    induction Hs as [|k ks Hks IH Hk]; cbn [map]; constructor; [exact IH|].
    apply Forall_forall. intros t Ht. apply in_map_iff in Ht.
    destruct Ht as (k' & <- & Hk').
    pose proof (proj1 (Forall_forall _ _) Hk k' Hk'). unfold DAY_MS. lia.
  - pose proof (order_by_time_sorted (where_cutoff (cutoff_of now range) (rows sql)))
      as Hs.
    unfold time_sorted in Hs.
    induction Hs as [|r rs Hrs IH Hr]; cbn [map]; constructor; [exact IH|].
    apply Forall_forall. intros t Ht. apply in_map_iff in Ht.
    destruct Ht as (r' & <- & Hr').
    exact (proj1 (Forall_forall _ _) Hr r' Hr').
Qed.

Lemma first_last_times (r : result) :
  SnapshotsApi.first_collected_at r = nth_error (result_times r) 0 /\
  SnapshotsApi.last_collected_at r = Js.last_opt (result_times r).
Proof.
  destruct r as [l|l]; cbn [SnapshotsApi.first_collected_at
                            SnapshotsApi.last_collected_at result_times];
    rewrite last_opt_map, nth_error_map; split; reflexivity.
Qed.

(** X11.  The range endpoint, for a request other than OPTIONS with a
    configured database.  A range outside the six known ones is answered
    400 with the list of valid ranges, whatever the resolution; a missing
    or empty range means 'all'.  A known range is answered 200: [count] is
    the number of rows returned; [meta.resolution] is 'daily' exactly when
    the rows are daily aggregates; [oldest] is null exactly when no row is
    returned; every returned timestamp lies between [oldest] and
    [newest]. *)
Theorem snapshots_endpoint
        (now : Z) (env : Collect.env) (req : SnapshotsApi.request) (sql : store)
        (Hmethod : SnapshotsApi.method req <> "OPTIONS"%string)
        (Hdb : Collect.truthy_string (Collect.DATABASE_URL env) = true) :
  let range := SnapshotsApi.or_string (SnapshotsApi.query_range req) "all" in
  let out := SnapshotsApi.handler now env req sql in
  (~ In range SnapshotsApi.validRanges ->
   out = SnapshotsApi.Failed 400
           "Invalid range. Use: 24h, 7d, 30d, 90d, 1y, all") /\
  (SnapshotsApi.query_range req = None \/
   SnapshotsApi.query_range req = Some ""%string -> range = "all"%string) /\
  (In range SnapshotsApi.validRanges ->
   exists snapshots m,
     out = SnapshotsApi.Json 200 snapshots m /\
     SnapshotsApi.range m = range /\
     SnapshotsApi.count m = List.length (result_times snapshots) /\
     (SnapshotsApi.resolution m = "daily"%string <->
      exists l, snapshots = Daily l) /\
     (SnapshotsApi.oldest m = None <-> result_times snapshots = []) /\
     (forall a b t,
         SnapshotsApi.oldest m = Some a -> SnapshotsApi.newest m = Some b ->
         In t (result_times snapshots) -> (a <= t <= b)%Z)).
Proof.
  intros range out. subst out. unfold SnapshotsApi.handler.
  apply String.eqb_neq in Hmethod. rewrite Hmethod, Hdb. cbn [negb].
  fold range.
  assert (Hvalid : existsb (String.eqb range) SnapshotsApi.validRanges = true
                   <-> In range SnapshotsApi.validRanges).
  { rewrite existsb_exists. split.
    - intros (x & Hx & Heq). apply String.eqb_eq in Heq. now subst x.
    - intros H. exists range. split; [exact H | apply String.eqb_refl]. }
  split; [|split].
  - intros Hnot.
    destruct (existsb (String.eqb range) SnapshotsApi.validRanges) eqn:E.
    + exfalso. apply Hnot. now apply Hvalid.
    + reflexivity.
  - intros [H|H]; subst range; rewrite H; reflexivity.
  - intros Hin. rewrite (proj2 Hvalid Hin). cbn [negb].
    set (resolution := SnapshotsApi.or_string (SnapshotsApi.query_resolution req) "auto").
    set (snaps := getSnapshots now sql range resolution).
    eexists. eexists. split; [reflexivity|].
    cbn [SnapshotsApi.range SnapshotsApi.count SnapshotsApi.resolution
         SnapshotsApi.oldest SnapshotsApi.newest].
    destruct (first_last_times snaps) as [Hfirst Hlast].
    split; [reflexivity|]. split; [|split; [|split]].
    + destruct snaps; cbn [count result_times]; now rewrite length_map.
    + subst snaps. unfold getSnapshots.
      destruct (String.eqb resolution "auto") eqn:Ea.
      * destruct (String.eqb range "24h" || String.eqb range "7d");
          cbn [String.eqb Ascii.eqb Bool.eqb]; split.
        -- intros H. discriminate H.
        -- intros (l & H). discriminate H.
        -- intros _. eexists. reflexivity.
        -- reflexivity.
      * destruct (String.eqb resolution "daily") eqn:Ed; split.
        -- intros _. eexists. reflexivity.
        -- intros _. now apply String.eqb_eq.
        -- intros H. apply String.eqb_neq in Ed. contradiction.
        -- intros (l & H). discriminate H.
    + rewrite Hfirst. destruct (result_times snaps); cbn [nth_error];
        split; intros H; [reflexivity | reflexivity | discriminate H | discriminate H].
    + intros a b t Ha Hb Ht. rewrite Hfirst in Ha. rewrite Hlast in Hb.
      eapply sorted_first_last; try eassumption.
      apply result_times_sorted.
Qed.

Lemma snapshots_endpoint_witness :
  "GET"%string <> "OPTIONS"%string /\
  Collect.truthy_string (Collect.DATABASE_URL example_env) = true /\
  SnapshotsApi.handler (9 * DAY + 3 * HOUR) example_env
    {| SnapshotsApi.method := "GET"; SnapshotsApi.query_range := Some "1w"%string;
       SnapshotsApi.query_resolution := None |} nine_day_store =
  SnapshotsApi.Failed 400 "Invalid range. Use: 24h, 7d, 30d, 90d, 1y, all".
Proof.
  assert (Hm : "GET"%string <> "OPTIONS"%string) by discriminate.
  assert (Hd : Collect.truthy_string (Collect.DATABASE_URL example_env) = true)
    by reflexivity.
  split; [exact Hm|]. split; [exact Hd|].
  apply (proj1 (snapshots_endpoint (9 * DAY + 3 * HOUR) example_env
                  {| SnapshotsApi.method := "GET";
                     SnapshotsApi.query_range := Some "1w"%string;
                     SnapshotsApi.query_resolution := None |}
                  nine_day_store Hm Hd)).
  cbn. intuition discriminate.
Defined.

(** X12.  Collect, then ask for the latest.  After an accepted ingestion
    cycle whose payload parses, the latest endpoint, given a payload that
    parses, answers 200 with [history_available: true] and a stored
    snapshot that is not older than the hour of the cycle; its live readout
    carries the current NAV, high and drawdown parsed from the payload. *)
Theorem latest_after_collect
        (Math_sqrt : Q -> Q) (now : Z) (env : Collect.env)
        (req : Collect.request)
        (raw raw' : Hyperliquid.vault_details)
        (parsed parsed' : Hyperliquid.parsed)
        (market : option Collect.market_ctx) (sql : store) (method : string)
        (Haccepted : accepted env req)
        (Hparse : Hyperliquid.parseVaultData raw = inr parsed)
        (Hparse' : Hyperliquid.parseVaultData raw' = inr parsed')
        (Hmethod : method <> "OPTIONS"%string) :
  let sql' := fst (Collect.handler Math_sqrt now env req (inr raw) market sql) in
  exists r live,
    LatestApi.handler env method (inr raw') sql' =
      LatestApi.Json 200 (Some r) live true /\
    In r (rows sql') /\
    (hour_of now <= hour_of (Row.collected_at r))%Z /\
    LatestApi.nav live = Hyperliquid.currentNav parsed' /\
    LatestApi.ath live = Hyperliquid.ath parsed' /\
    LatestApi.drawdown live = Hyperliquid.currentDrawdown parsed'.
Proof.
  intros sql'. subst sql'.
  destruct (handler_cycle Math_sqrt now env req raw parsed market sql
                          Haccepted Hparse)
    as (sql1 & b & Hrun & _ & _ & Htaken & _).
  rewrite Hrun. cbn [fst].
  destruct Haccepted as (_ & _ & Hd).
  unfold LatestApi.handler. apply String.eqb_neq in Hmethod.
  rewrite Hmethod, Hd, Hparse'. cbn [negb].
  apply hour_taken_spec in Htaken. destruct Htaken as (x & Hx & Hxh).
  unfold getLatestSnapshot.
  destruct (Js.last_opt (order_by_time (rows sql1))) as [r|] eqn:E.
  - destruct (time_sorted_last _ _ (order_by_time_sorted (rows sql1)) E)
      as [Hin Hmax].
    exists r. eexists. split; [reflexivity|].
    split; [now apply order_by_time_In|]. split.
    + rewrite <- Hxh. apply hour_of_monotone. apply Hmax.
      now apply order_by_time_In.
    + repeat split.
  - exfalso. apply last_opt_None in E.
    apply (proj2 (order_by_time_In _ _)) in Hx. rewrite E in Hx. destruct Hx.
Qed.

Lemma latest_after_collect_witness :
  accepted example_env example_req /\
  "GET"%string <> "OPTIONS"%string /\
  exists r live,
    LatestApi.handler example_env "GET" (inr example_payload)
      (fst (Collect.handler sqrt6 (3 * DAY + HOUR) example_env example_req
              (inr example_payload) None empty_store)) =
    LatestApi.Json 200 (Some r) live true.
Proof.
  assert (Ha : accepted example_env example_req) by (repeat split).
  assert (Hm : "GET"%string <> "OPTIONS"%string) by discriminate.
  split; [exact Ha|]. split; [exact Hm|].
  destruct (Hyperliquid.parseVaultData example_payload) as [msg|parsed] eqn:E;
    [vm_compute in E; discriminate E|].
  destruct (latest_after_collect sqrt6 (3 * DAY + HOUR) example_env example_req
              example_payload example_payload parsed parsed None empty_store
              "GET" Ha E E Hm) as (r & live & Hrun & _).
  exists r, live. exact Hrun.
Defined.

End ReadEndpoints.

(** ** The normalizer *)

Section NormalizerExtras.

Import Hyperliquid.

Lemma last_opt_cons {A : Type} (x y : A) (l : list A) :
  Js.last_opt (x :: y :: l) = Js.last_opt (y :: l).
Proof.
  unfold Js.last_opt. cbn [List.length].
  replace (S (S (List.length l)) - 1)%nat with (S (List.length l)) by lia.
  replace (S (List.length l) - 1)%nat with (List.length l) by lia.
  reflexivity.
Qed.

Lemma drawdown_loop_length (l : list point) :
  forall a, List.length (snd (drawdown_loop a l)) = List.length l.
Proof.
  induction l as [|p l IH]; intros a; cbn [drawdown_loop]; [reflexivity|].
  specialize (IH (if Js.gt (value p) a then value p else a)).
  destruct (drawdown_loop _ l) as [a' dh]. cbn [snd List.length] in *.
  now rewrite IH.
Qed.

(** The last drawdown pushed by the loop is taken against the final high. *)
Lemma drawdown_loop_last (l : list point) :
  forall a p,
    Js.last_opt l = Some p ->
    option_map value (Js.last_opt (snd (drawdown_loop a l))) =
    Some ((value p - fst (drawdown_loop a l)) / fst (drawdown_loop a l)).
Proof.
  induction l as [|x l IH]; intros a p Hp; [discriminate Hp|].
  destruct l as [|y l'].
  - cbn in Hp. injection Hp as <-. reflexivity.
  - rewrite last_opt_cons in Hp.
    specialize (IH (if Js.gt (value x) a then value x else a) p Hp).
    cbn [drawdown_loop] in IH |- *.
    set (a1 := if Js.gt (value x) a then value x else a) in *.
    set (a2 := if Js.gt (value y) a1 then value y else a1) in *.
    destruct (drawdown_loop a2 l') as [af dh]. cbn [fst snd] in IH |- *.
    rewrite last_opt_cons. exact IH.
Qed.

(** X13.  The current state that parseVaultData reports.  Without an
    'allTime' timeframe it throws.  With one, the NAV history is the
    positive points of that timeframe, in order, and the drawdown history
    has one point per NAV point.  Without a positive point everything is 0.
    Otherwise [currentNav] is the value of the last positive point of the
    payload, [ath] is the highest of the positive values, so
    [0 < currentNav <= ath]; [currentDrawdown] is
    [(currentNav - ath) / ath]; and [maxDD <= currentDrawdown <= 0]. *)
Theorem parseVaultData_current_state (data : vault_details) :
  (Js.fromEntries_get (portfolio data) "allTime" = None ->
   parseVaultData data = inl "No allTime portfolio data"%string) /\
  (forall allTime,
      Js.fromEntries_get (portfolio data) "allTime" = Some allTime ->
      let nav := positive_points (accountValueHistory allTime) in
      exists parsed,
        parseVaultData data = inr parsed /\
        navHistory parsed = nav /\
        List.length (drawdownHistory parsed) = List.length nav /\
        (nav = [] ->
         currentNav parsed = 0 /\ ath parsed = 0 /\
         currentDrawdown parsed = 0 /\ maxDD parsed = 0) /\
        (forall p,
            Js.last_opt nav = Some p ->
            currentNav parsed = value p /\
            0 < currentNav parsed /\
            is_max (ath parsed) (map value nav) /\
            currentNav parsed <= ath parsed /\
            currentDrawdown parsed =
              (currentNav parsed - ath parsed) / ath parsed /\
            currentDrawdown parsed <= 0 /\
            maxDD parsed <= currentDrawdown parsed)).
Proof.
  split.
  - intros H. unfold parseVaultData. now rewrite H.
  - intros allTime Hget nav. unfold parseVaultData. rewrite Hget. cbv zeta.
    fold nav.
    assert (Hpos : Forall (fun p => 0 < value p) nav).
    { apply Forall_forall. intros p Hp. unfold nav, positive_points in Hp.
      apply filter_In in Hp. apply gt_true. exact (proj2 Hp). }
    destruct (drawdown_loop 0 nav) as [ath' dh] eqn:E.
    eexists. split; [reflexivity|].
    cbn [navHistory drawdownHistory currentNav ath currentDrawdown maxDD].
    split; [reflexivity|]. split; [|split].
    + pose proof (drawdown_loop_length nav 0) as Hl. now rewrite E in Hl.
    + intros Hnil. rewrite Hnil in E. cbn in E. injection E as <- <-.
      rewrite Hnil. repeat split.
    + intros p Hp.
      assert (Hin : In p nav) by (eapply nth_error_In; exact Hp).
      assert (Hppos : 0 < value p)
        by (exact (proj1 (Forall_forall _ _) Hpos p Hin)).
      assert (Hcur : Js.or_num (option_map value (Js.last_opt nav)) 0 = value p).
      { rewrite Hp. cbn [option_map Js.or_num]. unfold Js.truthy.
        destruct (Qeq_bool (value p) 0) eqn:Eq; [|reflexivity].
        apply Qeq_bool_iff in Eq. rewrite Eq in Hppos.
        exfalso. exact (Qlt_irrefl 0 Hppos). }
      rewrite Hcur.
      destruct (drawdown_loop_computeWithATH nav 0 0 None (or_intror Hpos))
        as [_ Hath].
      rewrite E in Hath. cbn [fst] in Hath.
      assert (Hismax : is_max ath' (map value nav)).
      { rewrite Hath. destruct nav as [|p0 l]; [destruct Hin|].
        cbn [map]. apply run_max_is_max.
        exact (proj1 (Forall_forall _ _) Hpos p0 (or_introl eq_refl)). }
      assert (Hle : value p <= ath')
        by (apply (proj2 Hismax); now apply in_map).
      assert (Hapos : 0 < ath') by (eapply Qlt_le_trans; eassumption).
      rewrite (gt_intro _ _ Hapos).
      assert (Hdd : (value p - ath') / ath' <= 0).
      { apply Qle_shift_div_r; [exact Hapos|]. rewrite Qmult_0_l. lra. }
      split; [reflexivity|]. split; [exact Hppos|]. split; [exact Hismax|].
      split; [exact Hle|]. split; [reflexivity|]. split; [exact Hdd|].
      pose proof (drawdown_loop_last nav 0 p Hp) as Hlast.
      rewrite E in Hlast. cbn [fst snd] in Hlast.
      rewrite maxDD_loop_run_min. apply run_min_lower.
      destruct (Js.last_opt dh) as [d|] eqn:Ed; [|discriminate Hlast].
      cbn [option_map] in Hlast. injection Hlast as <-.
      apply in_map. eapply nth_error_In. exact Ed.
Qed.

Lemma parseVaultData_current_state_witness :
  exists allTime parsed,
    Js.fromEntries_get (portfolio example_payload) "allTime" = Some allTime /\
    parseVaultData example_payload = inr parsed /\
    List.length (navHistory parsed) = 4%nat /\
    currentNav parsed = 95 /\
    is_max (ath parsed) [100; 110; 90; 95] /\
    currentDrawdown parsed = (currentNav parsed - ath parsed) / ath parsed /\
    maxDD parsed <= currentDrawdown parsed.
Proof.
  destruct (Js.fromEntries_get (portfolio example_payload) "allTime")
    as [allTime|] eqn:Hget; [|vm_compute in Hget; discriminate Hget].
  destruct (proj2 (parseVaultData_current_state example_payload) allTime Hget)
    as (parsed & Hparse & Hnav & _ & _ & Hlast).
  assert (Hall : allTime =
                 {| accountValueHistory :=
                      [(0%Z, 100); (DAY, 110); ((2 * DAY)%Z, 90); ((3 * DAY)%Z, 95)];
                    tf_pnlHistory := [(DAY, 10); ((3 * DAY)%Z, -5)] |}).
  { vm_compute in Hget. injection Hget as <-. reflexivity. }
  subst allTime.
  destruct (Hlast (mkPoint (3 * DAY) 95) eq_refl)
    as (H1 & _ & H3 & _ & H5 & _ & H7).
  eexists. exists parsed. split; [exact Hget|]. split; [exact Hparse|].
  split; [rewrite Hnav; reflexivity|]. split; [exact H1|].
  split; [exact H3|]. split; [exact H5 | exact H7].
Defined.

End NormalizerExtras.

Section TimeframesExtras.

Import Hyperliquid.

(** X14.  Reading a timeframe out of parseAllTimeframes.  For one of the
    five known names the entry is there exactly when the payload has that
    timeframe (its last entry of that name), with the positive NAV points,
    in order, and every PnL point; a name outside the five is never there,
    even when the payload has it; a NAV history read from it has only
    positive values. *)
Theorem parseAllTimeframes_lookup (raw : vault_details) (tf : string) :
  (In tf timeframe_names ->
   Js.fromEntries_get (parseAllTimeframes raw) tf =
   option_map
     (fun tfData => (positive_points (accountValueHistory tfData),
                     map to_point (tf_pnlHistory tfData)))
     (Js.fromEntries_get (portfolio raw) tf)) /\
  (~ In tf timeframe_names ->
   Js.fromEntries_get (parseAllTimeframes raw) tf = None) /\
  (forall navHistory pnlHistory,
      Js.fromEntries_get (parseAllTimeframes raw) tf =
        Some (navHistory, pnlHistory) ->
      Forall (fun p => 0 < value p) navHistory /\
      exists tfData,
        Js.fromEntries_get (portfolio raw) tf = Some tfData /\
        List.length pnlHistory = List.length (tf_pnlHistory tfData) /\
        (List.length navHistory <= List.length (accountValueHistory tfData))%nat).
Proof.
  rewrite parseAllTimeframes_get.
  destruct (in_dec string_dec tf timeframe_names) as [Hin|Hnin].
  - split; [reflexivity|]. split; [intros H; contradiction|].
    intros navHistory pnlHistory H.
    destruct (Js.fromEntries_get (portfolio raw) tf) as [tfData|];
      [|discriminate H].
    cbn [option_map] in H. injection H as <- <-. split.
    + apply Forall_forall. intros p Hp. unfold positive_points in Hp.
      apply filter_In in Hp. apply gt_true. exact (proj2 Hp).
    + exists tfData. split; [reflexivity|]. split; [apply length_map|].
      unfold positive_points.
      rewrite <- (length_map to_point (accountValueHistory tfData)).
      apply List.filter_length_le.
  - split; [intros H; contradiction|]. split; [reflexivity|].
    intros navHistory pnlHistory H. discriminate H.
Qed.

End TimeframesExtras.

(** ** The score tables *)

Section ScoreExtras.

Import Hyperliquid.

Lemma gt_false_intro (a b : Q) : a <= b -> Js.gt a b = false.
Proof.
  intros H. destruct (Js.gt a b) eqn:E; [|reflexivity].
  apply gt_true in E. exfalso. exact (Qlt_not_le _ _ E H).
Qed.

Ltac to_orders :=
  repeat match goal with
         | H : Js.lt _ _ = true |- _ => apply lt_true in H
         | H : Js.lt _ _ = false |- _ => apply lt_false in H
         | H : Js.gt _ _ = true |- _ => apply gt_true in H
         | H : Js.gt _ _ = false |- _ => apply gt_false in H
         end.

Ltac split_cascade :=
  repeat match goal with
         | |- context [if Js.lt ?a ?b then _ else _] =>
             let E := fresh "E" in destruct (Js.lt a b) eqn:E
         | |- context [if Js.gt ?a ?b then _ else _] =>
             let E := fresh "E" in destruct (Js.gt a b) eqn:E
         end.

Ltac table_monotone :=
  split_cascade; to_orders; first [lia | exfalso; lra].

Lemma ddScore_of_monotone (x y : Q) :
  x <= y -> (ddScore_of x <= ddScore_of y)%Z.
Proof. intros H. unfold ddScore_of. table_monotone. Qed.

Lemma aprScore_of_antitone (x y : Q) :
  x <= y -> (aprScore_of y <= aprScore_of x)%Z.
Proof. intros H. unfold aprScore_of. table_monotone. Qed.

Lemma fundingScore_of_monotone (x y : Q) :
  x <= y -> (fundingScore_of x <= fundingScore_of y)%Z.
Proof. intros H. unfold fundingScore_of. table_monotone. Qed.

Lemma tvlScore_of_antitone (x y : Q) :
  x <= y -> (tvlScore_of y <= tvlScore_of x)%Z.
Proof. intros H. unfold tvlScore_of. table_monotone. Qed.

Lemma composite_of_monotone (d t m v a f o d' t' m' v' a' f' o' : Z) :
  (d <= d')%Z -> (t <= t')%Z -> (m <= m')%Z -> (v <= v')%Z ->
  (a <= a')%Z -> (f <= f')%Z -> (o <= o')%Z ->
  (composite_of d t m v a f o <= composite_of d' t' m' v' a' f' o')%Z.
Proof.
  intros H1 H2 H3 H4 H5 H6 H7. unfold composite_of, Js.Math_round.
  apply Qfloor_resp_le. unfold weighted.
  rewrite Zle_Qle in H1, H2, H3, H4, H5, H6, H7. lra.
Qed.

(** X15.  The scores grow with risk.  If the second analytics has a
    drawdown at least as deep (in absolute value), an APR at most as high, a
    funding rate at least as high and trailing scores at least as high as
    the first, then none of its eight scores is lower: ddScore, aprScore,
    fundingScore and the composite are monotone.  In particular the sign of
    the drawdown does not matter. *)
Theorem riskier_analytics_score_higher (a1 a2 : analytics)
        (Hdd : Qabs (a_currentDrawdown a1) <= Qabs (a_currentDrawdown a2))
        (Hapr : apr_read a2 <= apr_read a1)
        (Hfunding : funding_read a1 <= funding_read a2)
        (Htvl : (score_read (a_tvlScore a1) <= score_read (a_tvlScore a2))%Z)
        (Hmom : (score_read (a_momentumScore a1)
                 <= score_read (a_momentumScore a2))%Z)
        (Hvol : (score_read (a_volScore a1) <= score_read (a_volScore a2))%Z)
        (Hoi : (score_read (a_oiScore a1) <= score_read (a_oiScore a2))%Z) :
  let s1 := computeSignalScores a1 in
  let s2 := computeSignalScores a2 in
  (ddScore s1 <= ddScore s2)%Z /\
  (aprScore s1 <= aprScore s2)%Z /\
  (fundingScore s1 <= fundingScore s2)%Z /\
  (composite s1 <= composite s2)%Z.
Proof.
  intros s1 s2. subst s1 s2.
  cbn [computeSignalScores ddScore aprScore fundingScore composite].
  assert (H1 : (ddScore_of (Js.Math_abs (a_currentDrawdown a1) * 100)
                <= ddScore_of (Js.Math_abs (a_currentDrawdown a2) * 100))%Z).
  { apply ddScore_of_monotone. unfold Js.Math_abs. lra. }
  assert (H2 : (aprScore_of (Js.or_num (a_apr a1) 0 * 100)
                <= aprScore_of (Js.or_num (a_apr a2) 0 * 100))%Z).
  { apply aprScore_of_antitone. unfold apr_read in Hapr. lra. }
  assert (H3 : (fundingScore_of (Js.or_num (a_fundingRate a1) 0 * 10000)
                <= fundingScore_of (Js.or_num (a_fundingRate a2) 0 * 10000))%Z).
  { apply fundingScore_of_monotone. unfold funding_read in Hfunding. lra. }
  split; [exact H1|]. split; [exact H2|]. split; [exact H3|].
  apply composite_of_monotone; assumption.
Qed.

Lemma riskier_analytics_score_higher_witness :
  (ddScore (computeSignalScores bare_analytics)
   <= ddScore (computeSignalScores
                 {| a_currentDrawdown := -0.04; a_tvlScore := None;
                    a_momentumScore := None; a_volScore := None;
                    a_apr := None; a_fundingRate := None;
                    a_oiScore := None |}))%Z.
Proof.
  refine (proj1 (riskier_analytics_score_higher bare_analytics
                   {| a_currentDrawdown := -0.04; a_tvlScore := None;
                      a_momentumScore := None; a_volScore := None;
                      a_apr := None; a_fundingRate := None;
                      a_oiScore := None |} _ _ _ _ _ _ _));
    vm_compute; discriminate.
Defined.

End ScoreExtras.

Section TvlThresholds.

Import Hyperliquid.

(** The percent change [((c - n) / n) * 100] against a threshold [k]. *)
Lemma pct_change_gt (c n k : Q) :
  0 < n -> k * n < (c - n) * 100 -> Js.gt (((c - n) / n) * 100) k = true.
Proof.
  intros Hn H. apply gt_intro.
  assert (E : ((c - n) / n) * 100 == ((c - n) * 100) / n)
    by (field; intros Hz; rewrite Hz in Hn; exact (Qlt_irrefl 0 Hn)).
  rewrite E. apply Qlt_shift_div_l; assumption.
Qed.

Lemma pct_change_not_gt (c n k : Q) :
  0 < n -> (c - n) * 100 <= k * n -> Js.gt (((c - n) / n) * 100) k = false.
Proof.
  intros Hn H. apply gt_false_intro.
  assert (E : ((c - n) / n) * 100 == ((c - n) * 100) / n)
    by (field; intros Hz; rewrite Hz in Hn; exact (Qlt_irrefl 0 Hn)).
  rewrite E. apply Qle_shift_div_r; assumption.
Qed.

(** A NAV compared with itself scores 55. *)
Lemma tvl_self_change (c : Q) :
  tvlScore_of (if Js.gt c 0 then ((c - c) / c) * 100 else 0) = 55%Z.
Proof.
  destruct (Js.gt c 0) eqn:Ec; [|reflexivity].
  apply gt_true in Ec. unfold tvlScore_of.
  rewrite (pct_change_not_gt c c 3 Ec) by lra.
  rewrite (pct_change_not_gt c c 1 Ec) by lra.
  rewrite (pct_change_not_gt c c 0 Ec) by lra.
  rewrite (pct_change_gt c c (-1) Ec) by lra.
  reflexivity.
Qed.

Lemma pct_change_monotone (c1 c2 n : Q) :
  0 < n -> c1 <= c2 -> ((c1 - n) / n) * 100 <= ((c2 - n) / n) * 100.
Proof.
  intros Hn H. apply Qmult_le_compat_r; [|lra].
  unfold Qdiv. apply Qmult_le_compat_r; [lra|].
  apply Qinv_le_0_compat. lra.
Qed.

(** X16.  The TVL signal by direction.  With at least two history rows the
    score compares the current NAV with the NAV [n] of the first row inside
    the 7-day window.  With no row inside the window the current NAV is
    compared with itself and the score is 55; with [n] not positive the
    change is taken as 0 and the score is 55 as well.  With [n > 0]: a
    current NAV equal to [n] scores 55; a higher one scores 10, 25 or 40; a
    lower one scores 55, 70, 85 or 95; twice [n] or more scores 10 and half
    of [n] or less scores 95.  In every case the score does not rise when
    the current NAV does. *)
Theorem tvl_score_by_direction
        (Math_sqrt : Q -> Q) (now : Z) (snapshots : list Row.t)
        (currentNav : Q)
        (Hlen : (2 <= List.length snapshots)%nat) :
  let window :=
    filter (fun s => (now - SEVEN_DAYS_MS <=? Row.collected_at s)%Z) snapshots in
  let score_at c :=
    t_tvlScore (computeTrailingSignals Math_sqrt now snapshots c) in
  (window = [] -> score_at currentNav = 55%Z) /\
  (forall s0 rest,
      window = s0 :: rest ->
      (Row.nav s0 <= 0 -> score_at currentNav = 55%Z) /\
      (0 < Row.nav s0 ->
       (currentNav == Row.nav s0 -> score_at currentNav = 55%Z) /\
       (Row.nav s0 < currentNav -> In (score_at currentNav) [10; 25; 40]%Z) /\
       (currentNav < Row.nav s0 ->
        In (score_at currentNav) [55; 70; 85; 95]%Z) /\
       (2 * Row.nav s0 <= currentNav -> score_at currentNav = 10%Z) /\
       (2 * currentNav <= Row.nav s0 -> score_at currentNav = 95%Z))) /\
  (forall higher, currentNav <= higher ->
                  (score_at higher <= score_at currentNav)%Z).
Proof.
  intros window score_at. subst score_at. cbv beta.
  assert (E : (List.length snapshots <? 2)%nat = false)
    by (apply Nat.ltb_ge; exact Hlen).
  unfold computeTrailingSignals. rewrite E. cbn [t_tvlScore]. fold window.
  split; [|split].
  - intros ->. apply tvl_self_change.
  - intros s0 rest ->. split.
    + intros Hn. rewrite (gt_false_intro _ _ Hn). reflexivity.
    + intros Hn. rewrite (gt_intro _ _ Hn). unfold tvlScore_of.
      set (n := Row.nav s0) in *.
      split; [|split; [|split; [|split]]]; intros Hc.
      * rewrite (pct_change_not_gt currentNav n 3 Hn) by lra.
        rewrite (pct_change_not_gt currentNav n 1 Hn) by lra.
        rewrite (pct_change_not_gt currentNav n 0 Hn) by lra.
        rewrite (pct_change_gt currentNav n (-1) Hn) by lra. reflexivity.
      * rewrite (pct_change_gt currentNav n 0 Hn) by lra.
        destruct (Js.gt _ 3); [now left|].
        destruct (Js.gt _ 1); [right; now left|]. right; right; now left.
      * rewrite (pct_change_not_gt currentNav n 3 Hn) by lra.
        rewrite (pct_change_not_gt currentNav n 1 Hn) by lra.
        rewrite (pct_change_not_gt currentNav n 0 Hn) by lra.
        destruct (Js.gt _ (-1)); [now left|].
        destruct (Js.gt _ (-3)); [right; now left|].
        destruct (Js.gt _ (-5)); [right; right; now left|].
        right; right; right; now left.
      * rewrite (pct_change_gt currentNav n 3 Hn) by lra. reflexivity.
      * rewrite (pct_change_not_gt currentNav n 3 Hn) by lra.
        rewrite (pct_change_not_gt currentNav n 1 Hn) by lra.
        rewrite (pct_change_not_gt currentNav n 0 Hn) by lra.
        rewrite (pct_change_not_gt currentNav n (-1) Hn) by lra.
        rewrite (pct_change_not_gt currentNav n (-3) Hn) by lra.
        rewrite (pct_change_not_gt currentNav n (-5) Hn) by lra.
        reflexivity.
  - intros higher Hle. destruct window as [|s0 rest].
    + rewrite !tvl_self_change. lia.
    + destruct (Js.gt (Row.nav s0) 0) eqn:En; [|lia].
      apply gt_true in En. apply tvlScore_of_antitone.
      now apply pct_change_monotone.
Qed.

Lemma tvl_score_by_direction_witness :
  (2 <= List.length clock_history)%nat /\
  In (t_tvlScore (computeTrailingSignals sqrt6 (2 * DAY) clock_history 110))
     [10; 25; 40]%Z /\
  (t_tvlScore (computeTrailingSignals sqrt6 (2 * DAY) clock_history 220)
   <= t_tvlScore (computeTrailingSignals sqrt6 (2 * DAY) clock_history 110))%Z.
Proof.
  assert (H : (2 <= List.length clock_history)%nat) by (cbn; lia).
  split; [exact H|].
  destruct (tvl_score_by_direction sqrt6 (2 * DAY) clock_history 110 H)
    as (_ & Hrow & Hmono).
  split.
  - destruct (Hrow (row_at 1 0 100 None) [row_at 2 DAY 110 None] eq_refl)
      as (_ & Hpos).
    apply Hpos; reflexivity.
  - apply Hmono. discriminate.
Defined.

End TvlThresholds.

(** ** The provider readers *)

Section ProviderExtras.

Import Provider.







End ProviderExtras.

Section LlamaExtras.

Import Provider.

(** X18.  What fetchDeFiLlamaTVL returns.  On an answer that is not ok it
    throws with the status.  Otherwise it reads [data.tvl] when that array
    is present, even empty, and the Hyperliquid chain array only when
    [data.tvl] is missing; the points are exactly the entries of that array
    with a positive liquidity, in order, with the date turned from seconds
    into milliseconds. *)
Theorem defillama_points (resp : http_response llama_data) :
  (ok resp = false -> fetchDeFiLlamaTVL resp = inl (status resp)) /\
  (ok resp = true ->
   let source :=
     match tvl (json resp), chainTvls_Hyperliquid_tvl (json resp) with
     | Some l, _ => l
     | None, Some l => l
     | None, None => []
     end in
   exists points,
     fetchDeFiLlamaTVL resp = inr points /\
     Forall (fun p => 0 < Hyperliquid.value p) points /\
     map (fun p => (Hyperliquid.time p, Hyperliquid.value p)) points =
     map (fun e => ((date e * 1000)%Z, totalLiquidityUSD e))
         (filter (fun e => Js.gt (totalLiquidityUSD e) 0) source)).
Proof.
  split; [intros H; unfold fetchDeFiLlamaTVL; now rewrite H|].
  intros Hok source. unfold fetchDeFiLlamaTVL. rewrite Hok. cbn [negb].
  eexists. split; [reflexivity|].
  assert (Hsrc : match tvl (json resp) with
                 | Some l => l
                 | None => Js.nullish (chainTvls_Hyperliquid_tvl (json resp)) []
                 end = source).
  { subst source. destruct (tvl (json resp)); [reflexivity|].
    destruct (chainTvls_Hyperliquid_tvl (json resp)); reflexivity. }
  rewrite Hsrc. clear Hsrc. split.
  - apply Forall_forall. intros p Hp. apply filter_In in Hp.
    apply gt_true. exact (proj2 Hp).
  - induction source as [|e l IH]; [reflexivity|].
    cbn [map filter Hyperliquid.value].
    destruct (Js.gt (totalLiquidityUSD e) 0); cbn [map]; [f_equal|]; exact IH.
Qed.

End LlamaExtras.

(** ** The seeding run *)

Section SeedInsert.

Import Db Setup.

(** insertPoints from any counters: it only appends, and the two counters
    account for every point. *)
Lemma insertPoints_from (points : list Seed.seed_point) :
  forall sql inserted skipped,
  exists added,
    rows (fst (insertPoints sql points inserted skipped)) = rows sql ++ added /\
    next_id (fst (insertPoints sql points inserted skipped)) =
      (next_id sql + Z.of_nat (List.length points))%Z /\
    fst (snd (insertPoints sql points inserted skipped)) =
      (inserted + Z.of_nat (List.length added))%Z /\
    snd (snd (insertPoints sql points inserted skipped)) =
      (skipped + Z.of_nat (List.length points) - Z.of_nat (List.length added))%Z /\
    (List.length added <= List.length points)%nat /\
    Forall (fun r => exists p, In p points /\ r = point_values (Row.id r) p) added /\
    (hours_unique sql ->
     hours_unique (fst (insertPoints sql points inserted skipped))) /\
    (ids_fresh sql -> ids_fresh (fst (insertPoints sql points inserted skipped))) /\
    (forall p, In p points ->
               hour_taken (fst (insertPoints sql points inserted skipped))
                          (Seed.sp_time p) = true).
Proof.
  induction points as [|p rest IH]; intros sql inserted skipped.
  - exists []. cbn [insertPoints fst snd List.length]. rewrite app_nil_r.
    split; [reflexivity|]. split; [cbn; lia|]. split; [cbn; lia|].
    split; [cbn; lia|]. split; [lia|]. split; [constructor|].
    split; [tauto|]. split; [tauto|]. intros q [].
  - cbn [insertPoints].
    change (Row.collected_at (point_values (next_id sql) p)) with (Seed.sp_time p).
    destruct (hour_taken sql (Seed.sp_time p)) eqn:E.
    + destruct (IH {| rows := rows sql; next_id := next_id sql + 1 |}
                   inserted (skipped + 1)%Z)
        as (added & H1 & H2 & H3 & H4 & Hle & H5 & H6 & H7 & H8).
      exists added. cbn [rows next_id] in *.
      split; [exact H1|]. split; [rewrite H2; cbn [List.length]; lia|].
      split; [exact H3|]. split; [rewrite H4; cbn [List.length]; lia|].
      split; [cbn [List.length]; lia|].
      split; [|split; [|split]].
      * eapply Forall_impl; [|exact H5]. intros r (q & Hq & Hr).
        exists q. split; [now right | exact Hr].
      * intros Hu. apply H6. exact Hu.
      * intros [Hnd Hlt]. apply H7. split; [exact Hnd|].
        cbn [rows next_id]. intros r Hr. specialize (Hlt r Hr). lia.
      * intros q [<-|Hq]; [|now apply H8].
        apply hour_taken_spec. apply hour_taken_spec in E.
        destruct E as (r & Hr & Hh). exists r. split; [|exact Hh].
        rewrite H1. apply in_or_app. now left.
    + destruct (IH {| rows := rows sql ++ [point_values (next_id sql) p];
                      next_id := next_id sql + 1 |}
                   (inserted + 1)%Z skipped)
        as (added & H1 & H2 & H3 & H4 & Hle & H5 & H6 & H7 & H8).
      exists (point_values (next_id sql) p :: added). cbn [rows next_id] in *.
      split; [rewrite H1; now rewrite <- app_assoc|].
      split; [rewrite H2; cbn [List.length]; lia|].
      split; [rewrite H3; cbn [List.length]; lia|].
      split; [rewrite H4; cbn [List.length]; lia|].
      split; [cbn [List.length]; lia|].
      split; [|split; [|split]].
      * constructor; [exists p; split; [now left | reflexivity]|].
        eapply Forall_impl; [|exact H5]. intros r (q & Hq & Hr).
        exists q. split; [now right | exact Hr].
      * intros Hu. apply H6. unfold hours_unique in *. cbn [rows].
        rewrite map_app. cbn [map].
        apply NoDup_app; [exact Hu | repeat constructor; intros [] |].
        intros h Hin [<-|[]]. apply in_map_iff in Hin.
        destruct Hin as (r & Heq & Hin).
        assert (hour_taken sql (Seed.sp_time p) = true)
          by (apply hour_taken_spec; exists r; split; assumption).
        congruence.
      * intros [Hnd Hlt]. apply H7. split; cbn [rows next_id].
        -- rewrite map_app. cbn [map point_values Row.id].
           apply NoDup_app; [exact Hnd | repeat constructor; intros [] |].
           intros i Hi [<-|[]]. apply in_map_iff in Hi.
           destruct Hi as (r & Heq & Hr). specialize (Hlt r Hr). lia.
        -- intros r Hr. apply in_app_or in Hr. destruct Hr as [Hr|[<-|[]]].
           ++ specialize (Hlt r Hr). lia.
           ++ cbn [point_values Row.id]. lia.
      * intros q [<-|Hq]; [|now apply H8].
        apply hour_taken_spec. exists (point_values (next_id sql) p).
        split; [|reflexivity]. rewrite H1. apply in_or_app. left.
        apply in_or_app. right. now left.
Qed.

(** X19.  The books of insertPoints.  It only appends; the number of rows
    appended is [inserted]; [inserted + skipped] is the number of points;
    the sequence moves on by one per point; every appended row is one of
    the points with [vlm] NULL, deposits allowed and no score; afterwards
    the hour of every point is populated; the unique hour index and the
    primary key are kept. *)
Theorem insertPoints_accounting (sql : store) (points : list Seed.seed_point) :
  let out := insertPoints sql points 0 0 in
  let inserted := fst (snd out) in
  let skipped := snd (snd out) in
  (inserted + skipped = Z.of_nat (List.length points))%Z /\
  (0 <= skipped)%Z /\
  next_id (fst out) = (next_id sql + Z.of_nat (List.length points))%Z /\
  (exists added,
      rows (fst out) = rows sql ++ added /\
      Z.of_nat (List.length added) = inserted /\
      Forall (fun r => exists p, In p points /\ r = point_values (Row.id r) p)
             added) /\
  (forall p, In p points -> hour_taken (fst out) (Seed.sp_time p) = true) /\
  (hours_unique sql -> hours_unique (fst out)) /\
  (ids_fresh sql -> ids_fresh (fst out)).
Proof.
  intros out inserted skipped. subst out inserted skipped.
  destruct (insertPoints_from points sql 0 0)
    as (added & H1 & H2 & H3 & H4 & Hle & H5 & H6 & H7 & H8).
  split; [rewrite H3, H4; lia|]. split; [rewrite H4; lia|].
  split; [exact H2|]. split.
  - exists added. split; [exact H1|]. split; [rewrite H3; lia | exact H5].
  - split; [exact H8|]. split; [exact H6 | exact H7].
Qed.

End SeedInsert.

Section SeedRecompute.

Import Db Setup.

Lemma recompute_loop_map (allRows : list Row.t) :
  forall a m rows,
    recompute_loop a m allRows rows = map (recompute_row a m allRows) rows.
Proof.
  induction allRows as [|row rest IH]; intros a m rows;
    cbn [recompute_loop recompute_row].
  - now rewrite map_id.
  - rewrite IH. unfold update_ath. rewrite map_map. reflexivity.
Qed.

Lemma recompute_row_keeps (allRows : list Row.t) :
  forall a m r,
    Row.id (recompute_row a m allRows r) = Row.id r /\
    Row.collected_at (recompute_row a m allRows r) = Row.collected_at r /\
    Row.nav (recompute_row a m allRows r) = Row.nav r.
Proof.
  induction allRows as [|row rest IH]; intros a m r; cbn [recompute_row].
  - repeat split.
  - match goal with
    | |- context [recompute_row ?a' ?m' rest ?r'] =>
        destruct (IH a' m' r') as (H1 & H2 & H3)
    end.
    rewrite H1, H2, H3. destruct (Row.id r =? Row.id row)%Z; repeat split.
Qed.

Lemma recompute_row_other (allRows : list Row.t) :
  forall a m r,
    (forall x, In x allRows -> Row.id x <> Row.id r) ->
    recompute_row a m allRows r = r.
Proof.
  induction allRows as [|row rest IH]; intros a m r Hne; cbn [recompute_row].
  - reflexivity.
  - assert (E : (Row.id r =? Row.id row)%Z = false).
    { apply Z.eqb_neq. intros H. apply (Hne row (or_introl eq_refl)). now symmetry. }
    rewrite E. apply IH. intros x Hx. apply Hne. now right.
Qed.

(** With distinct ids, the row at position [k] of [allRows] ends up with the
    values that the seed's pass computes at position [k]. *)
Lemma recompute_row_at (allRows : list Row.t) :
  forall a m k r o,
    NoDup (map Row.id allRows) ->
    nth_error allRows k = Some r ->
    nth_error (Seed.computeWithATH_from a m (nav_points allRows) None) k = Some o ->
    recompute_row a m allRows r =
    set_ath r (Seed.sp_ath o) (Seed.sp_dd o) (Seed.sp_maxDD o).
Proof.
  induction allRows as [|row rest IH]; intros a m k r o Hnd Hr Ho.
  - destruct k; discriminate Hr.
  - cbn [map] in Hnd. inversion Hnd as [|? ? Hnotin Hnd']; subst.
    destruct k as [|k]; cbn [nth_error nav_points map Seed.computeWithATH_from] in Hr, Ho.
    + injection Hr as ->. injection Ho as <-.
      cbn [recompute_row Hyperliquid.value Seed.sp_ath Seed.sp_dd Seed.sp_maxDD].
      rewrite Z.eqb_refl. apply recompute_row_other.
      intros x Hx Heq. apply Hnotin. cbn [set_ath Row.id] in Heq.
      rewrite <- Heq. now apply in_map.
    + cbn [recompute_row].
      assert (E : (Row.id r =? Row.id row)%Z = false).
      { apply Z.eqb_neq. intros H. apply Hnotin. rewrite <- H.
        apply in_map. eapply nth_error_In. exact Hr. }
      rewrite E. eapply IH; eassumption.
Qed.

Lemma insert_by_time_map (f : Row.t -> Row.t) r l :
  (forall x, Row.collected_at (f x) = Row.collected_at x) ->
  insert_by_time (f r) (map f l) = map f (insert_by_time r l).
Proof.
  intros Hf. induction l as [|x l IH]; cbn [insert_by_time map]; [reflexivity|].
  rewrite !Hf. destruct (_ <? _)%Z; cbn [map]; [reflexivity|]. now rewrite IH.
Qed.

Lemma order_by_time_map (f : Row.t -> Row.t) l :
  (forall x, Row.collected_at (f x) = Row.collected_at x) ->
  order_by_time (map f l) = map f (order_by_time l).
Proof.
  intros Hf. induction l as [|x l IH]; cbn [order_by_time fold_right map];
    [reflexivity|].
  fold (order_by_time (map f l)) (order_by_time l).
  rewrite IH. now apply insert_by_time_map.
Qed.

Lemma map_eq_nth {A B C : Type} (f : A -> C) (g : B -> C) (l : list A) :
  forall l' : list B,
    List.length l = List.length l' ->
    (forall k a b, nth_error l k = Some a -> nth_error l' k = Some b -> f a = g b) ->
    map f l = map g l'.
Proof.
  induction l as [|a l IH]; intros [|b l'] Hlen H; try discriminate Hlen.
  - reflexivity.
  - cbn [map]. f_equal.
    + exact (H 0%nat a b eq_refl eq_refl).
    + apply IH; [cbn [List.length] in Hlen; lia|].
      intros k x y Hx Hy. exact (H (S k) x y Hx Hy).
Qed.

Lemma nav_points_values (l : list Row.t) :
  map Hyperliquid.value (nav_points l) = map Row.nav l.
Proof. unfold nav_points. rewrite map_map. reflexivity. Qed.

(** The sorted table after step 5, row by row. *)
Lemma recompute_ath_rows (sql : store) :
  NoDup (map Row.id (rows sql)) ->
  let before := order_by_time (rows sql) in
  let after := order_by_time (rows (recompute_ath sql)) in
  let pass := Seed.computeWithATH (nav_points before) None in
  after = map (recompute_row 0 0 before) before /\
  List.length after = List.length before /\
  List.length pass = List.length before /\
  (forall k r,
      nth_error after k = Some r ->
      exists r0 o,
        nth_error before k = Some r0 /\ nth_error pass k = Some o /\
        r = set_ath r0 (Seed.sp_ath o) (Seed.sp_dd o) (Seed.sp_maxDD o)).
Proof.
  intros Hids before after pass.
  assert (Hafter : after = map (recompute_row 0 0 before) before).
  { subst after. unfold recompute_ath. cbn [rows].
    rewrite recompute_loop_map. apply order_by_time_map.
    intros x. apply recompute_row_keeps. }
  assert (Hpass : List.length pass = List.length before).
  { subst pass. unfold Seed.computeWithATH.
    rewrite computeWithATH_from_length. unfold nav_points. apply length_map. }
  assert (Hnd : NoDup (map Row.id before)).
  { eapply Permutation_NoDup; [|exact Hids].
    apply Permutation_map. apply order_by_time_perm. }
  split; [exact Hafter|]. split; [rewrite Hafter; apply length_map|].
  split; [exact Hpass|].
  intros k r Hr. rewrite Hafter, nth_error_map in Hr.
  destruct (nth_error before k) as [r0|] eqn:E0; [|discriminate Hr].
  cbn [option_map] in Hr. injection Hr as <-.
  destruct (nth_error pass k) as [o|] eqn:Eo.
  - exists r0, o. split; [reflexivity|]. split; [reflexivity|].
    eapply recompute_row_at; eassumption.
  - exfalso. apply nth_error_None in Eo.
    assert (k < List.length before)%nat
      by (apply nth_error_Some; rewrite E0; discriminate).
    lia.
Qed.

(** After step 5 the time-ordered table carries the running extrema, when
    every NAV is positive. *)
Lemma recompute_ath_extrema (sql : store) :
  NoDup (map Row.id (rows sql)) ->
  Forall (fun r => 0 < Row.nav r) (rows sql) ->
  running_extrema (order_by_time (rows (recompute_ath sql))).
Proof.
  intros Hids Hpos.
  set (before := order_by_time (rows sql)).
  set (after := order_by_time (rows (recompute_ath sql))).
  set (pass := Seed.computeWithATH (nav_points before) None).
  destruct (recompute_ath_rows sql Hids) as (Hafter & Hlen & Hpass & Hrows).
  fold before after pass in Hafter, Hlen, Hpass, Hrows.
  assert (Hnav : map Row.nav after = map Row.nav before).
  { rewrite Hafter, map_map. apply map_ext. intros x. apply recompute_row_keeps. }
  intros k r Hr.
  destruct (Hrows k r Hr) as (r0 & o & Hr0 & Ho & ->).
  cbn [set_ath Row.nav_ath Row.drawdown_pct Row.max_drawdown Row.nav].
  assert (Hposb : Forall (fun p => 0 < Hyperliquid.value p) (nav_points before)).
  { apply Forall_forall. intros p Hp. unfold nav_points in Hp.
    apply in_map_iff in Hp. destruct Hp as (x & <- & Hx).
    cbn [Hyperliquid.value].
    apply (proj1 (Forall_forall _ _) Hpos). now apply order_by_time_In. }
  destruct (computeWithATH_from_nth _ _ _ _ _ _ Ho)
    as (p & Hp & Hpnav & Hath & Hdd & Hmin).
  assert (Hpv : Hyperliquid.value p = Row.nav r0).
  { unfold nav_points in Hp. rewrite nth_error_map, Hr0 in Hp.
    cbn [option_map] in Hp. injection Hp as <-. reflexivity. }
  assert (Hprefix : map Row.nav (firstn (S k) after) =
                    map Hyperliquid.value (firstn (S k) (nav_points before))).
  { rewrite <- !firstn_map, Hnav, nav_points_values. reflexivity. }
  assert (Hdds : map Row.drawdown_pct (firstn (S k) after) =
                 map Seed.sp_dd (firstn (S k) pass)).
  { rewrite <- !firstn_map. f_equal.
    apply map_eq_nth; [lia|]. intros i a b Ha Hb.
    destruct (Hrows i a Ha) as (a0 & o' & _ & Ho' & ->).
    rewrite Ho' in Hb. injection Hb as <-. reflexivity. }
  destruct (nav_points before) as [|p0 l] eqn:Epts;
    [destruct k; discriminate Hp|].
  inversion Hposb as [|? ? Hp0 Hl]; subst.
  assert (Hmax : is_max (Seed.sp_ath o) (map Hyperliquid.value (firstn (S k) (p0 :: l)))).
  { rewrite Hath. cbn [firstn map]. now apply run_max_is_max. }
  assert (Hle : Hyperliquid.value p <= Seed.sp_ath o).
  { apply (proj2 Hmax). apply in_map. now apply nth_error_firstn_In. }
  assert (Hppos : 0 < Hyperliquid.value p).
  { eapply (proj1 (Forall_forall _ _) Hposb). eapply nth_error_In, Hp. }
  assert (Hapos : 0 < Seed.sp_ath o) by (eapply Qlt_le_trans; eassumption).
  rewrite (gt_intro _ _ Hapos) in Hdd.
  split; [rewrite Hprefix; exact Hmax|].
  split; [rewrite Hdd, Hpv; reflexivity|].
  split.
  - rewrite Hdd. apply Qle_shift_div_r; [exact Hapos|]. rewrite Qmult_0_l. lra.
  - rewrite Hdds, Hmin. apply run_min_is_min.
    destruct (first_drawdown_zero p0 l None k Hp0) as (y & Hy & Hy0).
    exists y. split; [exact Hy | exact Hy0].
Qed.

(** X20.  Step 5 of the seeding run, on a table with distinct ids.  It
    changes no id, timestamp or NAV and leaves the sequence alone.  In time
    order, the row at each position gets the high, drawdown and lowest
    drawdown that computeWithATH computes at that position over the NAVs of
    the whole table, whatever was stored before.  So, when every NAV is
    positive, [nav_ath] is the maximum of the NAVs up to the row,
    [drawdown_pct] is [(nav - nav_ath) / nav_ath <= 0] and [max_drawdown]
    is the minimum of the drawdowns up to the row.  Running the step a
    second time changes nothing. *)
Theorem recompute_ath_running_extrema (sql : store)
        (Hids : NoDup (map Row.id (rows sql))) :
  let before := order_by_time (rows sql) in
  let after := order_by_time (rows (recompute_ath sql)) in
  let pass := Seed.computeWithATH (nav_points before) None in
  next_id (recompute_ath sql) = next_id sql /\
  map Row.id after = map Row.id before /\
  map Row.collected_at after = map Row.collected_at before /\
  map Row.nav after = map Row.nav before /\
  (forall k r,
      nth_error after k = Some r ->
      exists r0 o,
        nth_error before k = Some r0 /\ nth_error pass k = Some o /\
        r = set_ath r0 (Seed.sp_ath o) (Seed.sp_dd o) (Seed.sp_maxDD o)) /\
  (Forall (fun r => 0 < Row.nav r) (rows sql) ->
   forall k r,
     nth_error after k = Some r ->
     is_max (Row.nav_ath r) (map Row.nav (firstn (S k) after)) /\
     Row.drawdown_pct r == (Row.nav r - Row.nav_ath r) / Row.nav_ath r /\
     Row.drawdown_pct r <= 0 /\
     is_min (Row.max_drawdown r) (map Row.drawdown_pct (firstn (S k) after))) /\
  recompute_ath (recompute_ath sql) = recompute_ath sql.
Proof.
  intros before after pass.
  destruct (recompute_ath_rows sql Hids) as (Hafter & Hlen & Hpass & Hrows).
  fold before after pass in Hafter, Hlen, Hpass, Hrows.
  assert (Hkeep : forall x,
             Row.id (recompute_row 0 0 before x) = Row.id x /\
             Row.collected_at (recompute_row 0 0 before x) = Row.collected_at x /\
             Row.nav (recompute_row 0 0 before x) = Row.nav x)
    by (intros x; apply recompute_row_keeps).
  assert (Hid : map Row.id after = map Row.id before).
  { rewrite Hafter, map_map. apply map_ext. intros x. apply Hkeep. }
  assert (Htime : map Row.collected_at after = map Row.collected_at before).
  { rewrite Hafter, map_map. apply map_ext. intros x. apply Hkeep. }
  assert (Hnav : map Row.nav after = map Row.nav before).
  { rewrite Hafter, map_map. apply map_ext. intros x. apply Hkeep. }
  split; [reflexivity|]. split; [exact Hid|]. split; [exact Htime|].
  split; [exact Hnav|]. split; [exact Hrows|]. split.
  - intros Hpos. exact (recompute_ath_extrema sql Hids Hpos).
  - unfold recompute_ath. cbn [rows next_id]. rewrite !recompute_loop_map.
    fold before. f_equal.
    rewrite (order_by_time_map (recompute_row 0 0 before))
      by (intros y; apply Hkeep).
    fold before. rewrite <- Hafter.
    rewrite map_map. apply map_ext_in. intros x Hx.
    assert (Hxb : In x before) by (now apply order_by_time_In).
    apply In_nth_error in Hxb. destruct Hxb as (k & Hk).
    assert (Hnd : NoDup (map Row.id before)).
    { eapply Permutation_NoDup; [|exact Hids].
      apply Permutation_map. apply order_by_time_perm. }
    destruct (nth_error pass k) as [o|] eqn:Eo.
    2:{ exfalso. apply nth_error_None in Eo.
        assert (k < List.length before)%nat
          by (apply nth_error_Some; rewrite Hk; discriminate).
        lia. }
    rewrite (recompute_row_at before 0 0 k x o Hnd Hk Eo).
    assert (Hpts : nav_points after = nav_points before).
    { unfold nav_points. rewrite Hafter, map_map. apply map_ext.
      intros y. destruct (Hkeep y) as (_ & -> & ->). reflexivity. }
    assert (Hk' : nth_error after k =
                  Some (set_ath x (Seed.sp_ath o) (Seed.sp_dd o) (Seed.sp_maxDD o))).
    { rewrite Hafter, nth_error_map, Hk. cbn [option_map].
      now rewrite (recompute_row_at before 0 0 k x o Hnd Hk Eo). }
    assert (Eo' : nth_error (Seed.computeWithATH_from 0 0 (nav_points after) None) k
                  = Some o) by (rewrite Hpts; exact Eo).
    rewrite (recompute_row_at after 0 0 k _ o
               ltac:(rewrite Hid; exact Hnd) Hk' Eo').
    reflexivity.
Qed.

Lemma recompute_ath_running_extrema_witness :
  NoDup (map Row.id (rows nine_day_store)) /\
  recompute_ath (recompute_ath nine_day_store) = recompute_ath nine_day_store.
Proof.
  assert (H : NoDup (map Row.id (rows nine_day_store))).
  { cbn. repeat constructor; cbn; intuition discriminate. }
  split; [exact H|].
  apply (recompute_ath_running_extrema nine_day_store H).
Defined.

End SeedRecompute.

Section SeedBackfill.

Import Db Setup.

Variable Math_sqrt : Q -> Q.











End SeedBackfill.

Section SeedBackfillExample.

Import Db Setup.


End SeedBackfillExample.

Section SeedMain.

Import Db Setup.

Variable Math_sqrt : Q -> Q.

(** The points computeWithATH returns are the points it was given, in
    order, with no APR. *)
Lemma computeWithATH_from_points (l : list Hyperliquid.point) :
  forall a m pm,
    map (fun o => Hyperliquid.mkPoint (Seed.sp_time o) (Seed.sp_nav o))
        (Seed.computeWithATH_from a m l pm) = l /\
    Forall (fun o => Seed.sp_apr o = None /\
                     Seed.sp_pnl o = match pm with
                                     | Some mp => Js.Map_get mp (Seed.sp_time o)
                                     | None => None
                                     end)
           (Seed.computeWithATH_from a m l pm).
Proof.
  induction l as [|p l IH]; intros a m pm; cbn [Seed.computeWithATH_from map].
  - split; constructor.
  - destruct (IH (if Js.gt (Hyperliquid.value p) a then Hyperliquid.value p else a)
                 (if Js.lt
                       (if Js.gt (if Js.gt (Hyperliquid.value p) a
                                  then Hyperliquid.value p else a) 0
                        then (Hyperliquid.value p -
                              (if Js.gt (Hyperliquid.value p) a
                               then Hyperliquid.value p else a)) /
                             (if Js.gt (Hyperliquid.value p) a
                              then Hyperliquid.value p else a)
                        else 0) m
                  then (if Js.gt (if Js.gt (Hyperliquid.value p) a
                                  then Hyperliquid.value p else a) 0
                        then (Hyperliquid.value p -
                              (if Js.gt (Hyperliquid.value p) a
                               then Hyperliquid.value p else a)) /
                             (if Js.gt (Hyperliquid.value p) a
                              then Hyperliquid.value p else a)
                        else 0)
                  else m) pm) as [H1 H2].
    split.
    + cbn [Seed.sp_time Seed.sp_nav]. rewrite H1. now destruct p.
    + constructor; [|exact H2]. cbn [Seed.sp_apr Seed.sp_pnl Seed.sp_time].
      split; reflexivity.
Qed.








End SeedMain.

Section LegacySeed.

Import Db.

(** On positive values the first version's pass builds the points of
    computeWithATH, with a missing PnL turned into 0. *)
Lemma points_from_computeWithATH (pm : list (Z * Q)) (l : list Hyperliquid.point) :
  forall a m,
    0 < a \/ Forall (fun p => 0 < Hyperliquid.value p) l ->
    SetupLegacy.points_from a m l pm =
    map legacy_point (Seed.computeWithATH_from a m l (Some pm)).
Proof.
  induction l as [|p l IH]; intros a m Hpos.
  - reflexivity.
  - cbn [SetupLegacy.points_from Seed.computeWithATH_from map].
    set (a' := if Js.gt (Hyperliquid.value p) a then Hyperliquid.value p else a).
    assert (Ha' : 0 < a').
    { subst a'. destruct Hpos as [Ha|Hall].
      - destruct (Js.gt (Hyperliquid.value p) a) eqn:E; [|exact Ha].
        eapply Qlt_trans; [exact Ha | now apply gt_true].
      - inversion Hall; subst.
        destruct (Js.gt (Hyperliquid.value p) a) eqn:E; [assumption|].
        eapply Qlt_le_trans; [eassumption | now apply gt_false]. }
    rewrite (gt_intro _ _ Ha'). unfold legacy_point at 1.
    cbn [Seed.sp_time Seed.sp_nav Seed.sp_pnl Seed.sp_ath Seed.sp_dd Seed.sp_maxDD].
    f_equal. apply IH. now left.
Qed.

Lemma hour_taken_legacy (apr : Q) (base added : list Row.t) (sqlL sql2 : store) (t : Z) :
  rows sql2 = base ++ added ->
  rows sqlL = base ++ map (legacy_columns apr) added ->
  hour_taken sqlL t = hour_taken sql2 t.
Proof.
  intros H2 HL. unfold hour_taken. rewrite H2, HL, !existsb_app. f_equal.
  clear H2 HL.
  induction added as [|x l IH];
    cbn [map existsb legacy_columns Row.collected_at]; [reflexivity|].
  now rewrite IH.
Qed.

(** The two insert loops side by side on related tables. *)
Lemma insert_loop_insertPoints (apr : Q) (base : list Row.t)
      (points : list Seed.seed_point) :
  forall sqlL sql2 added inserted skipped,
    rows sql2 = base ++ added ->
    rows sqlL = base ++ map (legacy_columns apr) added ->
    next_id sqlL = next_id sql2 ->
    Forall (fun o => Seed.sp_apr o = None) points ->
    let outL := SetupLegacy.insert_loop sqlL apr (map legacy_point points)
                                        inserted skipped in
    let out2 := Setup.insertPoints sql2 points inserted skipped in
    snd outL = snd out2 /\
    next_id (fst outL) = next_id (fst out2) /\
    exists added',
      rows (fst out2) = base ++ added' /\
      rows (fst outL) = base ++ map (legacy_columns apr) added'.
Proof.
  induction points as [|o rest IH];
    intros sqlL sql2 added inserted skipped H2 HL Hn Hapr;
    cbn [map SetupLegacy.insert_loop Setup.insertPoints].
  - cbn [fst snd]. split; [reflexivity|]. split; [exact Hn|].
    exists added. split; assumption.
  - inversion Hapr as [|? ? Ho Hrest]; subst.
    change (Row.collected_at
              (SetupLegacy.point_values (next_id sqlL) apr (legacy_point o)))
      with (Seed.sp_time o).
    change (Row.collected_at (Setup.point_values (next_id sql2) o))
      with (Seed.sp_time o).
    rewrite (hour_taken_legacy apr base added sqlL sql2 _ H2 HL).
    destruct (hour_taken sql2 (Seed.sp_time o)).
    + apply (IH _ _ added); cbn [rows next_id]; try assumption.
      now rewrite Hn.
    + apply (IH _ _ (added ++ [Setup.point_values (next_id sql2) o]));
        cbn [rows next_id]; try assumption.
      * rewrite H2. now rewrite app_assoc.
      * rewrite HL, map_app, <- app_assoc. cbn [map]. do 3 f_equal.
        unfold SetupLegacy.point_values, legacy_columns, Setup.point_values,
          legacy_point.
        cbn. rewrite Hn. reflexivity.
      * now rewrite Hn.
Qed.

(** X23.  The first version of the seeding script against the current one.
    Without an 'allTime' timeframe it exits.  With one, it inserts from the
    positive 'allTime' points exactly the rows that insertPoints of the
    current script inserts for them, with the same counters and the same
    high, drawdown and lowest drawdown (its unguarded division is never by
    zero), except that it stores 0 for a missing or zero PnL and the
    payload's APR, 0 when missing, where the current script stores NULL
    for both. *)
Theorem legacy_seed_agrees (sql : store) (data : Hyperliquid.vault_details) :
  (Js.fromEntries_get (Hyperliquid.portfolio data) "allTime" = None ->
   SetupLegacy.main sql data = None) /\
  (forall allTime,
      Js.fromEntries_get (Hyperliquid.portfolio data) "allTime" = Some allTime ->
      let out2 := Setup.insertPoints sql (Setup.timeframe_points allTime) 0 0 in
      exists outL added,
        SetupLegacy.main sql data = Some outL /\
        snd outL = snd out2 /\
        next_id (fst outL) = next_id (fst out2) /\
        rows (fst out2) = rows sql ++ added /\
        rows (fst outL) =
          rows sql ++ map (legacy_columns (Js.or_num (Hyperliquid.vd_apr data) 0)) added /\
        Forall (fun r => Row.apr r = None /\ 0 < Row.nav_ath r) added).
Proof.
  split.
  - intros H. unfold SetupLegacy.main. now rewrite H.
  - intros allTime H out2. unfold SetupLegacy.main. rewrite H. cbv zeta.
    set (navHistory := Hyperliquid.positive_points
                         (Hyperliquid.accountValueHistory allTime)).
    assert (Hpos : Forall (fun p => 0 < Hyperliquid.value p) navHistory).
    { apply Forall_forall. intros p Hp. unfold navHistory in Hp.
      unfold Hyperliquid.positive_points in Hp. apply filter_In in Hp.
      apply gt_true. exact (proj2 Hp). }
    rewrite (points_from_computeWithATH _ navHistory 0 0 (or_intror Hpos)).
    assert (Hpts : Forall (fun o => Seed.sp_apr o = None /\ 0 < Seed.sp_ath o)
                          (Setup.timeframe_points allTime)).
    { unfold Setup.timeframe_points, Seed.computeWithATH. fold navHistory.
      apply Forall_forall. intros o Ho. apply In_nth_error in Ho.
      destruct Ho as (k & Hk).
      destruct (computeWithATH_from_nth _ _ _ _ _ _ Hk)
        as (p & Hp & Hnav & Hath & _).
      split.
      - destruct (computeWithATH_from_points navHistory 0 0
                    (Some (Hyperliquid.tf_pnlHistory allTime))) as [_ Hall].
        apply (proj1 (Forall_forall _ _) Hall o). eapply nth_error_In, Hk.
      - rewrite Hath.
        destruct navHistory as [|q l]; [destruct k; discriminate Hp|].
        inversion Hpos as [|? ? Hq Hl]; subst.
        pose proof (run_max_is_max 0 (Hyperliquid.value q)
                      (map Hyperliquid.value (firstn k l)) Hq) as Hmax.
        cbn [firstn map].
        eapply Qlt_le_trans; [exact Hq|]. apply (proj2 Hmax). now left. }
    destruct (insert_loop_insertPoints (Js.or_num (Hyperliquid.vd_apr data) 0)
                (rows sql) (Setup.timeframe_points allTime) sql sql [] 0%Z 0%Z)
      as (Hsnd & Hnext & added & Hr2 & HrL).
    + now rewrite app_nil_r.
    + cbn [map]. now rewrite app_nil_r.
    + reflexivity.
    + eapply Forall_impl; [|exact Hpts]. intros o Ho. exact (proj1 Ho).
    + unfold Setup.timeframe_points, Seed.computeWithATH in Hsnd, Hnext, Hr2, HrL.
      fold navHistory in Hsnd, Hnext, Hr2, HrL.
      eexists. exists added. split; [reflexivity|].
      split; [exact Hsnd|]. split; [exact Hnext|].
      split; [exact Hr2|]. split; [exact HrL|].
      destruct (insertPoints_from (Setup.timeframe_points allTime) sql 0 0)
        as (added0 & Hrows0 & _ & _ & _ & _ & Hall0 & _).
      unfold Setup.timeframe_points, Seed.computeWithATH in Hrows0.
      fold navHistory in Hrows0. subst out2.
      rewrite Hr2 in Hrows0. apply app_inv_head in Hrows0. subst added0.
      eapply Forall_impl; [|exact Hall0]. intros r (o & Ho & ->).
      destruct (proj1 (Forall_forall _ _) Hpts o Ho) as [H1 H2].
      cbn [Setup.point_values Row.apr Row.nav_ath]. split; assumption.
Qed.

End LegacySeed.

Section VolatilityRegime.

Import Hyperliquid.

Variable Math_sqrt : Q -> Q.

Lemma returns_of_length (navs : list Q) :
  (List.length (returns_of navs) <= List.length navs - 1)%nat.
Proof.
  induction navs as [|prev rest IH]; [cbn; lia|].
  destruct rest as [|curr rest]; [cbn; lia|].
  change (returns_of (prev :: curr :: rest))
    with ((if Js.gt prev 0 then [(curr - prev) / prev] else [])
            ++ returns_of (curr :: rest)).
  rewrite length_app. cbn [List.length] in IH |- *.
  destruct (Js.gt prev 0); cbn [List.length]; lia.
Qed.

(** Without a positive prior volatility the trend is 0 and the score 50. *)
Lemma volScore_from_flat_prior (returns : list Q) :
  let firstHalf := Js.slice_first (List.length returns / 2) returns in
  Math_sqrt (sample_variance firstHalf (mean firstHalf)) <= 0 ->
  volScore_from Math_sqrt returns = 50%Z.
Proof.
  intros firstHalf H. unfold volScore_from. cbv zeta. fold firstHalf.
  rewrite (gt_false_intro _ _ H). unfold volScore_of.
  assert (E1 : Js.lt 0 (-0.3) = false) by reflexivity.
  assert (E2 : Js.lt 0 (-0.1) = false) by reflexivity.
  assert (E3 : Js.lt (Js.Math_abs 0) 0.1 = true) by reflexivity.
  rewrite E1, E2, E3. reflexivity.
Qed.

Lemma volScore_from_short (returns : list Q) :
  Math_sqrt 0 == 0 -> (List.length returns < 4)%nat ->
  volScore_from Math_sqrt returns = 50%Z.
Proof.
  intros Hsqrt Hlen. apply volScore_from_flat_prior. cbv zeta.
  unfold sample_variance, Js.slice_first.
  assert (Hhalf : (List.length (firstn (List.length returns / 2) returns) <= 1)%nat).
  { rewrite length_firstn.
    assert (List.length returns / 2 < 2)%nat
      by (apply Nat.Div0.div_lt_upper_bound; lia).
    lia. }
  destruct (Nat.ltb_spec 1 (List.length (firstn (List.length returns / 2) returns)))
    as [H|H]; [lia|].
  rewrite Hsqrt. apply Qle_refl.
Qed.

(** X24.  The volatility-regime block, shared by computeTrailingSignals and
    the seed's score backfill, with [Math.sqrt(0)] being 0.  With fewer than
    four returns the first half of the returns has at most one element, its
    variance is taken as 0, the trend is taken as 0 and the score is 50.  So
    a history of at most four snapshots always scores 50 on volatility, and
    so does a seeded row with at most four rows in its trailing window. *)
Theorem vol_score_neutral_on_short_history (Hsqrt : Math_sqrt 0 == 0) :
  (forall returns,
      (List.length returns < 4)%nat -> volScore_from Math_sqrt returns = 50%Z) /\
  (forall now snapshots currentNav,
      (List.length snapshots <= 4)%nat ->
      t_volScore (computeTrailingSignals Math_sqrt now snapshots currentNav) = 50%Z) /\
  (forall allSnaps row s,
      (List.length (trailing_window allSnaps row) <= 4)%nat ->
      Seed.score_row Math_sqrt allSnaps row = Some s ->
      volScore s = 50%Z).
Proof.
  split; [intros returns; now apply volScore_from_short|].
  split.
  - intros now snapshots currentNav Hlen. unfold computeTrailingSignals.
    destruct (List.length snapshots <? 2)%nat; [reflexivity|].
    cbv zeta. cbn [t_volScore]. apply volScore_from_short; [exact Hsqrt|].
    pose proof (returns_of_length (map Row.nav (Js.slice_last 30 snapshots))) as H.
    rewrite length_map in H. unfold Js.slice_last in H |- *.
    rewrite length_skipn in H. lia.
  - intros allSnaps row s Hlen H. unfold Seed.score_row in H. cbv zeta in H.
    destruct (_ <? 2)%nat; [discriminate H|]. injection H as <-.
    cbn [volScore]. apply volScore_from_short; [exact Hsqrt|].
    unfold trailing_window in Hlen.
    match goal with
    | |- context [returns_of ?l] => pose proof (returns_of_length l) as Hr
    end.
    rewrite length_map in Hr. lia.
Qed.

End VolatilityRegime.

Section VolatilityExample.

Import Hyperliquid.

Lemma vol_score_neutral_on_short_history_witness :
  sqrt6 0 == 0 /\ volScore_from sqrt6 [0.01; -0.02; 0.03] = 50%Z.
Proof.
  assert (H : sqrt6 0 == 0) by (vm_compute; reflexivity).
  split; [exact H|].
  apply (proj1 (vol_score_neutral_on_short_history sqrt6 H)).
  cbn [List.length]. lia.
Defined.

End VolatilityExample.

Section Momentum.

Import Hyperliquid.

Lemma len_cons (x : Q) (l : list Q) : len (x :: l) == len l + 1.
Proof.
  unfold len. cbn [List.length]. rewrite Nat2Z.inj_succ. unfold Z.succ.
  now rewrite inject_Z_plus.
Qed.

Lemma len_nonneg (l : list Q) : 0 <= len l.
Proof.
  unfold len. change 0 with (inject_Z 0). rewrite <- Zle_Qle. lia.
Qed.

Lemma sum_lower (lo : Q) (l : list Q) :
  forall a, (forall x, In x l -> lo <= x) -> a + lo * len l <= fold_left Qplus l a.
Proof.
  induction l as [|x l IH]; intros a H; cbn [fold_left].
  - unfold len. cbn [List.length Z.of_nat]. change (inject_Z 0) with 0. lra.
  - eapply Qle_trans; [|apply IH; intros y Hy; apply H; now right].
    rewrite len_cons. pose proof (H x (or_introl eq_refl)). lra.
Qed.

Lemma sum_upper (hi : Q) (l : list Q) :
  forall a, (forall x, In x l -> x <= hi) -> fold_left Qplus l a <= a + hi * len l.
Proof.
  induction l as [|x l IH]; intros a H; cbn [fold_left].
  - unfold len. cbn [List.length Z.of_nat]. change (inject_Z 0) with 0. lra.
  - eapply Qle_trans; [apply IH; intros y Hy; apply H; now right|].
    rewrite len_cons. pose proof (H x (or_introl eq_refl)). lra.
Qed.

(** The mean of a non-empty list lies within any bounds of its elements. *)
Lemma mean_lower (lo : Q) (l : list Q) :
  l <> [] -> (forall x, In x l -> lo <= x) -> lo <= mean l.
Proof.
  intros Hne Hlo. destruct l as [|x l]; [congruence|].
  unfold mean. cbn [List.length Nat.ltb Nat.leb].
  assert (Hpos : 0 < len (x :: l))
    by (rewrite len_cons; pose proof (len_nonneg l); lra).
  pose proof (sum_lower lo (x :: l) 0 Hlo) as H1.
  fold (Js.sum (x :: l)) in H1.
  apply Qle_shift_div_l; [exact Hpos|]. lra.
Qed.

Lemma mean_upper (hi : Q) (l : list Q) :
  l <> [] -> (forall x, In x l -> x <= hi) -> mean l <= hi.
Proof.
  intros Hne Hhi. destruct l as [|x l]; [congruence|].
  unfold mean. cbn [List.length Nat.ltb Nat.leb].
  assert (Hpos : 0 < len (x :: l))
    by (rewrite len_cons; pose proof (len_nonneg l); lra).
  pose proof (sum_upper hi (x :: l) 0 Hhi) as H2.
  fold (Js.sum (x :: l)) in H2.
  apply Qle_shift_div_r; [exact Hpos|]. lra.
Qed.

Lemma mean_above (lo : Q) (l : list Q) :
  l <> [] -> (forall x, In x l -> lo < x) -> lo < mean l.
Proof.
  intros Hne Hlo. destruct l as [|x l]; [congruence|].
  unfold mean. cbn [List.length Nat.ltb Nat.leb].
  assert (Hpos : 0 < len (x :: l))
    by (rewrite len_cons; pose proof (len_nonneg l); lra).
  apply Qlt_shift_div_l; [exact Hpos|].
  unfold Js.sum. cbn [fold_left].
  pose proof (sum_lower lo l (0 + x)
                (fun y Hy => Qlt_le_weak _ _ (Hlo y (or_intror Hy)))) as H1.
  pose proof (Hlo x (or_introl eq_refl)) as Hx.
  rewrite len_cons. lra.
Qed.

Lemma mean_below (hi : Q) (l : list Q) :
  l <> [] -> (forall x, In x l -> x < hi) -> mean l < hi.
Proof.
  intros Hne Hhi. destruct l as [|x l]; [congruence|].
  unfold mean. cbn [List.length Nat.ltb Nat.leb].
  assert (Hpos : 0 < len (x :: l))
    by (rewrite len_cons; pose proof (len_nonneg l); lra).
  apply Qlt_shift_div_r; [exact Hpos|].
  unfold Js.sum. cbn [fold_left].
  pose proof (sum_upper hi l (0 + x)
                (fun y Hy => Qlt_le_weak _ _ (Hhi y (or_intror Hy)))) as H1.
  pose proof (Hhi x (or_introl eq_refl)) as Hx.
  rewrite len_cons. lra.
Qed.

(** X25.  The momentum block of computeTrailingSignals, on a history of at
    least two rows.  The score is read from the last seven returns between
    consecutive stored NAVs of the last thirty rows; the current NAV and
    the clock play no part.  With no return at all (no positive previous
    NAV) the mean is taken as 0 and the score is 55; so it is when every
    one of those returns is 0.  When all of them are gains the score is 10,
    25 or 40, and 10 when each gain is 1% or more; when all of them are
    losses the score is 55, 70, 85 or 95, and 95 when each loss is 2% or
    more. *)
Theorem momentum_score_by_direction
        (Math_sqrt : Q -> Q) (now : Z) (snapshots : list Row.t) (currentNav : Q)
        (Hlen : (2 <= List.length snapshots)%nat) :
  let returns := returns_of (map Row.nav (Js.slice_last 30 snapshots)) in
  let recent := Js.slice_last 7 returns in
  let score :=
    t_momentumScore (computeTrailingSignals Math_sqrt now snapshots currentNav) in
  (forall now' nav',
      t_momentumScore (computeTrailingSignals Math_sqrt now' snapshots nav') = score) /\
  (recent = [] -> score = 55%Z) /\
  (recent <> [] ->
   ((forall x, In x recent -> x == 0) -> score = 55%Z) /\
   ((forall x, In x recent -> 0 < x) -> In score [10; 25; 40]%Z) /\
   ((forall x, In x recent -> 0.01 <= x) -> score = 10%Z) /\
   ((forall x, In x recent -> x < 0) -> In score [55; 70; 85; 95]%Z) /\
   ((forall x, In x recent -> x <= -0.02) -> score = 95%Z)).
Proof.
  intros returns recent score.
  assert (E : (List.length snapshots <? 2)%nat = false)
    by (apply Nat.ltb_ge; exact Hlen).
  assert (Hscore : score = momentumScore_of (mean recent)).
  { subst score. unfold computeTrailingSignals. rewrite E. reflexivity. }
  split.
  { intros now' nav'. rewrite Hscore. unfold computeTrailingSignals.
    rewrite E. reflexivity. }
  rewrite Hscore. split.
  - intros ->. reflexivity.
  - intros Hne. unfold momentumScore_of.
    split; [|split; [|split; [|split]]]; intros H.
    + assert (H1 : 0 <= mean recent).
      { apply mean_lower; [exact Hne|]. intros x Hx. rewrite (H x Hx).
        apply Qle_refl. }
      assert (H2 : mean recent <= 0).
      { apply mean_upper; [exact Hne|]. intros x Hx. rewrite (H x Hx).
        apply Qle_refl. }
      rewrite (gt_false_intro (mean recent) 0.003) by lra.
      rewrite (gt_false_intro (mean recent) 0.001) by lra.
      rewrite (gt_false_intro (mean recent) 0) by lra.
      rewrite (gt_intro (mean recent) (-0.001)) by lra.
      reflexivity.
    + rewrite (gt_intro _ _ (mean_above 0 recent Hne H)).
      destruct (Js.gt _ 0.003); [now left|].
      destruct (Js.gt _ 0.001); [right; now left|]. right; right; now left.
    + pose proof (mean_lower 0.01 recent Hne H) as H1.
      rewrite (gt_intro (mean recent) 0.003) by lra. reflexivity.
    + pose proof (mean_below 0 recent Hne H) as H2.
      rewrite (gt_false_intro (mean recent) 0.003) by lra.
      rewrite (gt_false_intro (mean recent) 0.001) by lra.
      rewrite (gt_false_intro (mean recent) 0) by lra.
      destruct (Js.gt _ (-0.001)); [now left|].
      destruct (Js.gt _ (-0.003)); [right; now left|].
      destruct (Js.gt _ (-0.01)); [right; right; now left|].
      right; right; right; now left.
    + pose proof (mean_upper (-0.02) recent Hne H) as H2.
      rewrite (gt_false_intro (mean recent) 0.003) by lra.
      rewrite (gt_false_intro (mean recent) 0.001) by lra.
      rewrite (gt_false_intro (mean recent) 0) by lra.
      rewrite (gt_false_intro (mean recent) (-0.001)) by lra.
      rewrite (gt_false_intro (mean recent) (-0.003)) by lra.
      rewrite (gt_false_intro (mean recent) (-0.01)) by lra.
      reflexivity.
Qed.

Lemma momentum_score_by_direction_witness :
  (2 <= List.length (Db.rows nine_day_store))%nat /\
  In (t_momentumScore
        (computeTrailingSignals sqrt6 (10 * DAY) (Db.rows nine_day_store) 104))
     [10; 25; 40]%Z.
Proof.
  assert (H : (2 <= List.length (Db.rows nine_day_store))%nat) by (cbn; lia).
  split; [exact H|].
  destruct (momentum_score_by_direction sqrt6 (10 * DAY)
              (Db.rows nine_day_store) 104 H)
    as (_ & _ & Htiers).
  apply Htiers.
  - discriminate.
  - intros x Hx.
    change (In x [(101 - 100) / 100; (102 - 101) / 101; (103 - 102) / 102]) in Hx.
    destruct Hx as [<-|[<-|[<-|[]]]]; reflexivity.
Defined.

End Momentum.
